(** * The Pintos thread scheduling core with the alarm-clock extension

    A shallow embedding of [src/threads/thread.c] and [src/threads/thread.h]:
    the thread record, the global scheduler state, the ready queue, the
    sorted sleeping queue with its cached minimum, the dispatcher and the
    per-tick bookkeeping.  The C functions become computations in a state
    and failure monad over the global kernel state; a failed [ASSERT] or an
    access to a page that holds no thread halts the kernel ([Panic]). *)

From Stdlib Require Import ZArith List Lia String Sorted.
From stdpp Require Import base option list gmap.

Local Open Scope Z_scope.

(* ===================================================================== *)
(** ** Data model (thread.h) *)
(* ===================================================================== *)

(** States in a thread's life cycle. *)
Inductive thread_status : Type :=
| THREAD_RUNNING
| THREAD_READY
| THREAD_BLOCKED
| THREAD_DYING.

#[global] Instance thread_status_eq_dec : EqDecision thread_status.
Proof. solve_decision. Defined.

Definition status_eqb (a b : thread_status) : bool :=
  match a, b with
  | THREAD_RUNNING, THREAD_RUNNING
  | THREAD_READY, THREAD_READY
  | THREAD_BLOCKED, THREAD_BLOCKED
  | THREAD_DYING, THREAD_DYING => true
  | _, _ => false
  end.

(** Interrupt level, as returned by [intr_get_level]. *)
Inductive intr_level : Type := INTR_OFF | INTR_ON.

#[global] Instance intr_level_eq_dec : EqDecision intr_level.
Proof. solve_decision. Defined.

Definition level_eqb (a b : intr_level) : bool :=
  match a, b with
  | INTR_OFF, INTR_OFF | INTR_ON, INTR_ON => true
  | _, _ => false
  end.

Definition TID_ERROR : Z := -1.
Definition PRI_MIN : Z := 0.
Definition PRI_DEFAULT : Z := 31.
Definition PRI_MAX : Z := 63.

Definition THREAD_MAGIC : Z := 0xcd6abf4b.
Definition THREAD_NOT_SLEEPING : Z := -1.
Definition SLEEPING_QUEUE_EMPTY : Z := -1.
Definition TIME_SLICE : Z := 4.

(** The null pointer.  Pointers to thread pages are integers. *)
Definition NULL : Z := 0.

(** The three frames [thread_create] stacks on a fresh thread.  Code
    addresses and the auxiliary argument are kept as integers. *)
Inductive stack_frame : Type :=
| kernel_thread_frame (eip function aux : Z)
| switch_entry_frame (eip : Z)
| switch_threads_frame (eip ebp : Z).

(** Addresses of the two assembly entry points stored in those frames. *)
Inductive code_addr : Type := addr_kernel_thread | addr_switch_entry.

Definition code_ptr (c : code_addr) : Z :=
  match c with addr_kernel_thread => 1 | addr_switch_entry => 2 end.

(** [struct thread].  [stack] is the content of the kernel stack between
    the saved stack pointer and the top of the page, innermost frame first;
    [pagedir] exists in USERPROG builds only. *)
Record thread : Type := mk_thread {
  tid : Z;
  status : thread_status;
  name : string;
  stack : list stack_frame;
  priority : Z;
  wakeup_time_ticks : Z;
  pagedir : Z;
  magic : Z
}.

Definition set_tid (v : Z) (t : thread) : thread :=
  mk_thread v (status t) (name t) (stack t) (priority t)
            (wakeup_time_ticks t) (pagedir t) (magic t).
Definition set_status (v : thread_status) (t : thread) : thread :=
  mk_thread (tid t) v (name t) (stack t) (priority t)
            (wakeup_time_ticks t) (pagedir t) (magic t).
Definition set_stack (v : list stack_frame) (t : thread) : thread :=
  mk_thread (tid t) (status t) (name t) v (priority t)
            (wakeup_time_ticks t) (pagedir t) (magic t).
Definition set_priority (v : Z) (t : thread) : thread :=
  mk_thread (tid t) (status t) (name t) (stack t) v
            (wakeup_time_ticks t) (pagedir t) (magic t).
Definition set_wakeup_time_ticks (v : Z) (t : thread) : thread :=
  mk_thread (tid t) (status t) (name t) (stack t) (priority t)
            v (pagedir t) (magic t).

(** The global state of thread.c together with the parts of the machine it
    reads or writes through its collaborators: the pages that hold a
    [struct thread] ([mem]), the page allocator ([free_pool], and
    [free_log], the pages handed to [palloc_free_page] so far, latest
    first), the interrupt controller ([level], [in_intr_context],
    [yield_on_return]), the timer ([ticks]) and the page the stack pointer
    lies in ([esp_page]).  [USERPROG] is the build option. *)
Record kernel : Type := mk_kernel {
  USERPROG : bool;
  mem : gmap Z thread;
  free_pool : list Z;
  free_log : list Z;
  ready_list : list Z;
  sleeping_list : list Z;
  sleeping_list_min_wakeup_time_ticks : Z;
  all_list : list Z;
  idle_thread : Z;
  initial_thread : Z;
  idle_ticks : Z;
  kernel_ticks : Z;
  user_ticks : Z;
  thread_ticks : Z;
  next_tid : Z;
  esp_page : Z;
  level : intr_level;
  in_intr_context : bool;
  yield_on_return : bool;
  ticks : Z
}.

Definition with_mem (v : gmap Z thread) (k : kernel) : kernel :=
  mk_kernel (USERPROG k) v (free_pool k) (free_log k) (ready_list k)
    (sleeping_list k) (sleeping_list_min_wakeup_time_ticks k) (all_list k)
    (idle_thread k) (initial_thread k) (idle_ticks k) (kernel_ticks k)
    (user_ticks k) (thread_ticks k) (next_tid k) (esp_page k) (level k)
    (in_intr_context k) (yield_on_return k) (ticks k).
Definition with_free_pool (v : list Z) (k : kernel) : kernel :=
  mk_kernel (USERPROG k) (mem k) v (free_log k) (ready_list k)
    (sleeping_list k) (sleeping_list_min_wakeup_time_ticks k) (all_list k)
    (idle_thread k) (initial_thread k) (idle_ticks k) (kernel_ticks k)
    (user_ticks k) (thread_ticks k) (next_tid k) (esp_page k) (level k)
    (in_intr_context k) (yield_on_return k) (ticks k).
Definition with_free_log (v : list Z) (k : kernel) : kernel :=
  mk_kernel (USERPROG k) (mem k) (free_pool k) v (ready_list k)
    (sleeping_list k) (sleeping_list_min_wakeup_time_ticks k) (all_list k)
    (idle_thread k) (initial_thread k) (idle_ticks k) (kernel_ticks k)
    (user_ticks k) (thread_ticks k) (next_tid k) (esp_page k) (level k)
    (in_intr_context k) (yield_on_return k) (ticks k).
Definition with_ready_list (v : list Z) (k : kernel) : kernel :=
  mk_kernel (USERPROG k) (mem k) (free_pool k) (free_log k) v
    (sleeping_list k) (sleeping_list_min_wakeup_time_ticks k) (all_list k)
    (idle_thread k) (initial_thread k) (idle_ticks k) (kernel_ticks k)
    (user_ticks k) (thread_ticks k) (next_tid k) (esp_page k) (level k)
    (in_intr_context k) (yield_on_return k) (ticks k).
Definition with_sleeping_list (v : list Z) (k : kernel) : kernel :=
  mk_kernel (USERPROG k) (mem k) (free_pool k) (free_log k) (ready_list k)
    v (sleeping_list_min_wakeup_time_ticks k) (all_list k)
    (idle_thread k) (initial_thread k) (idle_ticks k) (kernel_ticks k)
    (user_ticks k) (thread_ticks k) (next_tid k) (esp_page k) (level k)
    (in_intr_context k) (yield_on_return k) (ticks k).
Definition with_min_wakeup (v : Z) (k : kernel) : kernel :=
  mk_kernel (USERPROG k) (mem k) (free_pool k) (free_log k) (ready_list k)
    (sleeping_list k) v (all_list k)
    (idle_thread k) (initial_thread k) (idle_ticks k) (kernel_ticks k)
    (user_ticks k) (thread_ticks k) (next_tid k) (esp_page k) (level k)
    (in_intr_context k) (yield_on_return k) (ticks k).
Definition with_all_list (v : list Z) (k : kernel) : kernel :=
  mk_kernel (USERPROG k) (mem k) (free_pool k) (free_log k) (ready_list k)
    (sleeping_list k) (sleeping_list_min_wakeup_time_ticks k) v
    (idle_thread k) (initial_thread k) (idle_ticks k) (kernel_ticks k)
    (user_ticks k) (thread_ticks k) (next_tid k) (esp_page k) (level k)
    (in_intr_context k) (yield_on_return k) (ticks k).
Definition with_idle_thread (v : Z) (k : kernel) : kernel :=
  mk_kernel (USERPROG k) (mem k) (free_pool k) (free_log k) (ready_list k)
    (sleeping_list k) (sleeping_list_min_wakeup_time_ticks k) (all_list k)
    v (initial_thread k) (idle_ticks k) (kernel_ticks k)
    (user_ticks k) (thread_ticks k) (next_tid k) (esp_page k) (level k)
    (in_intr_context k) (yield_on_return k) (ticks k).
Definition with_initial_thread (v : Z) (k : kernel) : kernel :=
  mk_kernel (USERPROG k) (mem k) (free_pool k) (free_log k) (ready_list k)
    (sleeping_list k) (sleeping_list_min_wakeup_time_ticks k) (all_list k)
    (idle_thread k) v (idle_ticks k) (kernel_ticks k)
    (user_ticks k) (thread_ticks k) (next_tid k) (esp_page k) (level k)
    (in_intr_context k) (yield_on_return k) (ticks k).
Definition with_idle_ticks (v : Z) (k : kernel) : kernel :=
  mk_kernel (USERPROG k) (mem k) (free_pool k) (free_log k) (ready_list k)
    (sleeping_list k) (sleeping_list_min_wakeup_time_ticks k) (all_list k)
    (idle_thread k) (initial_thread k) v (kernel_ticks k)
    (user_ticks k) (thread_ticks k) (next_tid k) (esp_page k) (level k)
    (in_intr_context k) (yield_on_return k) (ticks k).
Definition with_kernel_ticks (v : Z) (k : kernel) : kernel :=
  mk_kernel (USERPROG k) (mem k) (free_pool k) (free_log k) (ready_list k)
    (sleeping_list k) (sleeping_list_min_wakeup_time_ticks k) (all_list k)
    (idle_thread k) (initial_thread k) (idle_ticks k) v
    (user_ticks k) (thread_ticks k) (next_tid k) (esp_page k) (level k)
    (in_intr_context k) (yield_on_return k) (ticks k).
Definition with_user_ticks (v : Z) (k : kernel) : kernel :=
  mk_kernel (USERPROG k) (mem k) (free_pool k) (free_log k) (ready_list k)
    (sleeping_list k) (sleeping_list_min_wakeup_time_ticks k) (all_list k)
    (idle_thread k) (initial_thread k) (idle_ticks k) (kernel_ticks k)
    v (thread_ticks k) (next_tid k) (esp_page k) (level k)
    (in_intr_context k) (yield_on_return k) (ticks k).
Definition with_thread_ticks (v : Z) (k : kernel) : kernel :=
  mk_kernel (USERPROG k) (mem k) (free_pool k) (free_log k) (ready_list k)
    (sleeping_list k) (sleeping_list_min_wakeup_time_ticks k) (all_list k)
    (idle_thread k) (initial_thread k) (idle_ticks k) (kernel_ticks k)
    (user_ticks k) v (next_tid k) (esp_page k) (level k)
    (in_intr_context k) (yield_on_return k) (ticks k).
Definition with_next_tid (v : Z) (k : kernel) : kernel :=
  mk_kernel (USERPROG k) (mem k) (free_pool k) (free_log k) (ready_list k)
    (sleeping_list k) (sleeping_list_min_wakeup_time_ticks k) (all_list k)
    (idle_thread k) (initial_thread k) (idle_ticks k) (kernel_ticks k)
    (user_ticks k) (thread_ticks k) v (esp_page k) (level k)
    (in_intr_context k) (yield_on_return k) (ticks k).
Definition with_esp_page (v : Z) (k : kernel) : kernel :=
  mk_kernel (USERPROG k) (mem k) (free_pool k) (free_log k) (ready_list k)
    (sleeping_list k) (sleeping_list_min_wakeup_time_ticks k) (all_list k)
    (idle_thread k) (initial_thread k) (idle_ticks k) (kernel_ticks k)
    (user_ticks k) (thread_ticks k) (next_tid k) v (level k)
    (in_intr_context k) (yield_on_return k) (ticks k).
Definition with_level (v : intr_level) (k : kernel) : kernel :=
  mk_kernel (USERPROG k) (mem k) (free_pool k) (free_log k) (ready_list k)
    (sleeping_list k) (sleeping_list_min_wakeup_time_ticks k) (all_list k)
    (idle_thread k) (initial_thread k) (idle_ticks k) (kernel_ticks k)
    (user_ticks k) (thread_ticks k) (next_tid k) (esp_page k) v
    (in_intr_context k) (yield_on_return k) (ticks k).
Definition with_yield_on_return (v : bool) (k : kernel) : kernel :=
  mk_kernel (USERPROG k) (mem k) (free_pool k) (free_log k) (ready_list k)
    (sleeping_list k) (sleeping_list_min_wakeup_time_ticks k) (all_list k)
    (idle_thread k) (initial_thread k) (idle_ticks k) (kernel_ticks k)
    (user_ticks k) (thread_ticks k) (next_tid k) (esp_page k) (level k)
    (in_intr_context k) v (ticks k).

(* ===================================================================== *)
(** ** The kernel monad *)
(* ===================================================================== *)

(** A computation ends with a value and a new state, or halts the kernel
    (a failed assertion, or a fault on a page that holds no thread), or
    reaches the iteration bound the model gives a loop. *)
Inductive outcome (A : Type) : Type :=
| Done (a : A) (k : kernel)
| Panic (msg : string)
| Fuel.

Arguments Done {A} a k.
Arguments Panic {A} msg.
Arguments Fuel {A}.

Definition M (A : Type) : Type := kernel -> outcome A.

Definition ret {A} (a : A) : M A := fun k => Done a k.

Definition bind {A B} (m : M A) (f : A -> M B) : M B :=
  fun k =>
    match m k with
    | Done a k' => f a k'
    | Panic msg => Panic msg
    | Fuel => Fuel
    end.

Notation "'do' x <- m ; f" := (bind m (fun x => f))
  (at level 10, x name, m at level 100, f at level 200).

Definition get : M kernel := fun k => Done k k.
Definition gets {A} (f : kernel -> A) : M A := fun k => Done (f k) k.
Definition modify (f : kernel -> kernel) : M unit := fun k => Done tt (f k).
Definition panic {A} (msg : string) : M A := fun _ => Panic msg.

(** [ASSERT (cond)] of debug.h: halts the kernel when [cond] is false. *)
Definition ASSERT (cond : bool) (msg : string) : M unit :=
  if cond then ret tt else panic msg.

(** Reading and writing a [struct thread] through a pointer. *)
Definition deref (t : Z) : M thread :=
  fun k =>
    match mem k !! t with
    | Some th => Done th k
    | None => Panic "page fault"
    end.

Definition update (t : Z) (f : thread -> thread) : M unit :=
  do th <- deref t;
  modify (fun k => with_mem (<[t := f th]> (mem k)) k).

(** Machine integers of the i386 target, with two's-complement
    wrap-around: [int] and [tid_t] are 32 bits, [long long] and [int64_t]
    64 bits, [unsigned] 32 bits. *)
Definition wrap_signed (w : Z) (x : Z) : Z :=
  (x + 2 ^ (w - 1)) mod 2 ^ w - 2 ^ (w - 1).
Definition wrap_int (x : Z) : Z := wrap_signed 32 x.
Definition wrap_long_long (x : Z) : Z := wrap_signed 64 x.
Definition wrap_unsigned (x : Z) : Z := x mod 2 ^ 32.

(* ===================================================================== *)
(** ** Collaborators of thread.c *)
(* ===================================================================== *)

(** Modelled from the spec: threads/interrupt.c is not among the sources.
    [intr_disable() -> prev_level], [intr_set_level(prev_level)],
    [intr_get_level()], [intr_context() -> bool] and
    [intr_yield_on_return()], which sets the flag the interrupt-return
    epilogue reads. *)
Definition intr_get_level : M intr_level := gets level.
Definition intr_disable : M intr_level :=
  do old <- gets level;
  do _ <- modify (with_level INTR_OFF);
  ret old.
Definition intr_set_level (l : intr_level) : M unit := modify (with_level l).
Definition intr_context : M bool := gets in_intr_context.
Definition intr_yield_on_return : M unit := modify (with_yield_on_return true).

(** Modelled from the spec: devices/timer.c is not among the sources.
    [now() -> i64], the tick count since boot. *)
Definition timer_ticks : M Z := gets ticks.

(** Modelled from the spec: threads/palloc.c is not among the sources.
    [page_alloc_zeroed() -> page | null] returns a zeroed page, here the
    first page of the pool, or the null pointer when the pool is empty;
    [page_free(page)] releases it. *)
Definition zero_thread : thread :=
  mk_thread 0 THREAD_RUNNING EmptyString [] 0 0 NULL 0.

Definition palloc_get_page : M Z :=
  do pool <- gets free_pool;
  match pool with
  | [] => ret NULL
  | p :: rest =>
      do _ <- modify (with_free_pool rest);
      do _ <- modify (fun k => with_mem (<[p := zero_thread]> (mem k)) k);
      ret p
  end.

Definition palloc_free_page (p : Z) : M unit :=
  do _ <- modify (fun k => with_mem (delete p (mem k)) k);
  do _ <- modify (fun k => with_free_pool (p :: free_pool k) k);
  modify (fun k => with_free_log (p :: free_log k) k).

(** Modelled from the spec: threads/switch.S is not among the sources.
    [switch(prev, next) -> prev_from_their_view]: the call returns in the
    new thread's context, yielding a pointer to the previous thread. *)
Definition switch_threads (cur next : Z) : M Z :=
  do _ <- modify (with_esp_page next);
  ret cur.

(** Modelled from the spec: userprog/process.c is not among the sources.
    The user-program hooks activate or tear down an address space and
    leave the scheduler state alone. *)
Definition process_activate : M unit := ret tt.
Definition process_exit : M unit := ret tt.

(** Modelled from the spec: lib/kernel/list.c is not among the sources.
    The queues are FIFO lists of thread pointers; [list_insert_ordered]
    inserts in ascending order, in front of the first element the new one
    is less than.  A queue is held as the list of its members, not as the
    chain of [elem] links: what a push does to a queue in which the
    pushed thread's one [elem] is still linked is outside this model. *)
Definition list_push_back (l : list Z) (e : Z) : list Z := l ++ [e].
Definition list_push_front (l : list Z) (e : Z) : list Z := e :: l.
Definition list_empty (l : list Z) : bool :=
  match l with [] => true | _ :: _ => false end.
Definition list_size (l : list Z) : Z := Z.of_nat (length l).
Definition list_remove (l : list Z) (e : Z) : list Z :=
  filter (fun x => x <> e) l.

Fixpoint list_insert_ordered (less : Z -> Z -> M bool) (e : Z) (l : list Z)
  : M (list Z) :=
  match l with
  | [] => ret [e]
  | x :: rest =>
      do b <- less e x;
      if b then ret (e :: x :: rest)
      else do rest' <- list_insert_ordered less e rest;
           ret (x :: rest')
  end.

(* ===================================================================== *)
(** ** thread.c *)
(* ===================================================================== *)

(** Returns the running thread: the page the stack pointer lies in. *)
Definition running_thread : M Z := gets esp_page.

(** Returns true if T appears to point to a valid thread. *)
Definition is_thread (t : Z) : M bool :=
  if t =? NULL then ret false
  else do th <- deref t; ret (magic th =? THREAD_MAGIC).

(** Returns a tid to use for a new thread.  The tid lock is free whenever
    it is taken here and is released before returning. *)
Definition allocate_tid : M Z :=
  do tid <- gets next_tid;
  do _ <- modify (with_next_tid (wrap_int (tid + 1)));
  ret tid.

(** Does basic initialization of T as a blocked thread named NAME.
    [strlcpy] keeps at most 15 bytes of the name; a name is a string here
    and cannot be null. *)
Definition init_thread (t : Z) (nm : string) (prio : Z) : M unit :=
  do _ <- ASSERT (negb (t =? NULL)) "t != NULL";
  do _ <- ASSERT ((PRI_MIN <=? prio) && (prio <=? PRI_MAX))
                 "PRI_MIN <= priority && priority <= PRI_MAX";
  do _ <- modify (fun k =>
            with_mem (<[t := mk_thread 0 THREAD_BLOCKED (substring 0 15 nm) []
                                       prio THREAD_NOT_SLEEPING NULL
                                       THREAD_MAGIC]> (mem k)) k);
  do old_level <- intr_disable;
  do _ <- modify (fun k => with_all_list (list_push_back (all_list k) t) k);
  intr_set_level old_level.

(** Allocates a frame at the top of thread T's stack.  The frame is given
    with the fields its caller stores into it right after. *)
Definition alloc_frame (t : Z) (fr : stack_frame) : M unit :=
  do b <- is_thread t;
  do _ <- ASSERT b "is_thread (t)";
  update t (fun th => set_stack (fr :: stack th) th).

(** Returns the running thread, after its sanity checks. *)
Definition thread_current : M Z :=
  do t <- running_thread;
  do b <- is_thread t;
  do _ <- ASSERT b "is_thread (t)";
  do th <- deref t;
  do _ <- ASSERT (status_eqb (status th) THREAD_RUNNING)
                 "t->status == THREAD_RUNNING";
  do _ <- ASSERT (wakeup_time_ticks th =? THREAD_NOT_SLEEPING)
                 "t->wakeup_time_ticks == THREAD_NOT_SLEEPING";
  ret t.

(** Chooses and returns the next thread to be scheduled. *)
Definition next_thread_to_run : M Z :=
  do rl <- gets ready_list;
  match rl with
  | [] => gets idle_thread
  | front :: rest =>
      do _ <- modify (with_ready_list rest);
      ret front
  end.

(** Completes a thread switch and, if the previous thread is dying,
    destroys it. *)
Definition thread_schedule_tail (prev : Z) : M unit :=
  do cur <- running_thread;
  do lv <- intr_get_level;
  do _ <- ASSERT (level_eqb lv INTR_OFF) "intr_get_level () == INTR_OFF";
  do _ <- update cur (set_status THREAD_RUNNING);
  do _ <- modify (with_thread_ticks 0);
  do up <- gets USERPROG;
  do _ <- (if up then process_activate else ret tt);
  if prev =? NULL then ret tt
  else
    do p <- deref prev;
    do init <- gets initial_thread;
    if status_eqb (status p) THREAD_DYING && negb (prev =? init) then
      do _ <- ASSERT (negb (prev =? cur)) "prev != cur";
      palloc_free_page prev
    else ret tt.

(** Schedules a new process: finds another thread to run and switches to
    it.  After a switch the computation goes on in the context of the
    thread switched to. *)
Definition schedule : M unit :=
  do cur <- running_thread;
  do next <- next_thread_to_run;
  do lv <- intr_get_level;
  do _ <- ASSERT (level_eqb lv INTR_OFF) "intr_get_level () == INTR_OFF";
  do c <- deref cur;
  do _ <- ASSERT (negb (status_eqb (status c) THREAD_RUNNING))
                 "cur->status != THREAD_RUNNING";
  do b <- is_thread next;
  do _ <- ASSERT b "is_thread (next)";
  do prev <- (if cur =? next then ret NULL else switch_threads cur next);
  thread_schedule_tail prev.

(** The code that follows [schedule ()] in its caller [cur].  When
    [schedule] did not switch threads the caller runs it at once; after a
    switch the computation has ended in the context of the thread switched
    to, and [cur] runs this code when it is dispatched again.  The state
    returned after a switch is the state at the dispatch: what the thread
    switched to does next (it sets its own interrupt level again) is not
    part of the call. *)
Definition after_schedule (cur : Z) (rest : M unit) : M unit :=
  do now_running <- running_thread;
  if now_running =? cur then rest else ret tt.

(** Initializes the threading system by transforming the code that is
    currently running into a thread. *)
Definition thread_init : M unit :=
  do lv <- intr_get_level;
  do _ <- ASSERT (level_eqb lv INTR_OFF) "intr_get_level () == INTR_OFF";
  do _ <- modify (with_ready_list []);
  do _ <- modify (with_sleeping_list []);
  do _ <- modify (with_min_wakeup SLEEPING_QUEUE_EMPTY);
  do _ <- modify (with_all_list []);
  do t <- running_thread;
  do _ <- modify (with_initial_thread t);
  do _ <- init_thread t "main" PRI_DEFAULT;
  do _ <- update t (set_status THREAD_RUNNING);
  do tid <- allocate_tid;
  update t (set_tid tid).

(** Returns the number of threads currently in the ready list. *)
Definition threads_ready : M Z :=
  do old_level <- intr_disable;
  do ready_thread_count <- gets (fun k => list_size (ready_list k));
  do _ <- intr_set_level old_level;
  ret ready_thread_count.

(** Returns the number of threads currently in the sleeping list. *)
Definition threads_sleeping : M Z :=
  do old_level <- intr_disable;
  do min <- gets sleeping_list_min_wakeup_time_ticks;
  if min =? SLEEPING_QUEUE_EMPTY then ret 0
  else
    do sleeping_thread_count <- gets (fun k => list_size (sleeping_list k));
    do _ <- intr_set_level old_level;
    ret sleeping_thread_count.

(** Called by the timer interrupt handler at each timer tick. *)
Definition thread_tick : M unit :=
  do t <- thread_current;
  do idle <- gets idle_thread;
  do up <- gets USERPROG;
  do th <- deref t;
  do _ <- (if t =? idle then
             modify (fun k => with_idle_ticks (wrap_long_long (idle_ticks k + 1)) k)
           else if up && negb (pagedir th =? NULL) then
             modify (fun k => with_user_ticks (wrap_long_long (user_ticks k + 1)) k)
           else
             modify (fun k => with_kernel_ticks (wrap_long_long (kernel_ticks k + 1)) k));
  do _ <- modify (fun k => with_thread_ticks (wrap_unsigned (thread_ticks k + 1)) k);
  do n <- gets thread_ticks;
  if TIME_SLICE <=? n then intr_yield_on_return else ret tt.

(** Transitions a blocked thread T to the ready-to-run state. *)
Definition thread_unblock (t : Z) : M unit :=
  do b <- is_thread t;
  do _ <- ASSERT b "is_thread (t)";
  do old_level <- intr_disable;
  do th <- deref t;
  do _ <- ASSERT (status_eqb (status th) THREAD_BLOCKED)
                 "t->status == THREAD_BLOCKED";
  do _ <- modify (fun k => with_ready_list (list_push_back (ready_list k) t) k);
  do _ <- update t (set_status THREAD_READY);
  intr_set_level old_level.

(** Creates a new kernel thread named NAME with the given initial
    PRIORITY, which executes FUNCTION passing AUX as the argument, and adds
    it to the ready queue.  Returns the thread identifier for the new
    thread, or TID_ERROR if creation fails. *)
Definition thread_create (nm : string) (prio : Z) (function aux : Z) : M Z :=
  do _ <- ASSERT (negb (function =? NULL)) "function != NULL";
  do t <- palloc_get_page;
  if t =? NULL then ret TID_ERROR
  else
    do _ <- init_thread t nm prio;
    do tid <- allocate_tid;
    do _ <- update t (set_tid tid);
    do old_level <- intr_disable;
    do _ <- alloc_frame t (kernel_thread_frame NULL function aux);
    do _ <- alloc_frame t (switch_entry_frame (code_ptr addr_kernel_thread));
    do _ <- alloc_frame t (switch_threads_frame (code_ptr addr_switch_entry) 0);
    do _ <- intr_set_level old_level;
    do _ <- thread_unblock t;
    ret tid.

(** Puts the current thread to sleep until awoken by [thread_unblock]. *)
Definition thread_block : M unit :=
  do ic <- intr_context;
  do _ <- ASSERT (negb ic) "!intr_context ()";
  do lv <- intr_get_level;
  do _ <- ASSERT (level_eqb lv INTR_OFF) "intr_get_level () == INTR_OFF";
  do cur <- thread_current;
  do _ <- update cur (set_status THREAD_BLOCKED);
  schedule.

(** Compares the [wakeup_time_ticks] value of two thread elements. *)
Definition wakeup_time_ticks_less_than (a b : Z) : M bool :=
  do _ <- ASSERT (negb (a =? NULL)) "a != NULL";
  do _ <- ASSERT (negb (b =? NULL)) "b != NULL";
  do t_a <- deref a;
  do t_b <- deref b;
  ret (wakeup_time_ticks t_a <? wakeup_time_ticks t_b).

(** Inserts a thread into the sleeping queue, in ascending order of
    [wakeup_time_ticks], and updates the cached minimum if necessary. *)
Definition sleeping_queue_insert_ordered (t : Z) : M unit :=
  do ic <- intr_context;
  do _ <- ASSERT (negb ic) "!intr_context ()";
  do lv <- intr_get_level;
  do _ <- ASSERT (level_eqb lv INTR_OFF) "intr_get_level () == INTR_OFF";
  do _ <- ASSERT (negb (t =? NULL)) "t != NULL";
  do th <- deref t;
  do _ <- ASSERT (status_eqb (status th) THREAD_BLOCKED)
                 "t->status == THREAD_BLOCKED";
  do _ <- ASSERT (0 <? wakeup_time_ticks th) "t->wakeup_time_ticks > 0";
  do min <- gets sleeping_list_min_wakeup_time_ticks;
  do sl <- gets sleeping_list;
  do _ <- ASSERT (negb (min =? SLEEPING_QUEUE_EMPTY) || list_empty sl)
                 "min != SLEEPING_QUEUE_EMPTY || list_empty (&sleeping_list)";
  if (min =? SLEEPING_QUEUE_EMPTY) || (wakeup_time_ticks th <=? min) then
    do _ <- modify (with_sleeping_list (list_push_front sl t));
    modify (with_min_wakeup (wakeup_time_ticks th))
  else
    do sl' <- list_insert_ordered wakeup_time_ticks_less_than t sl;
    modify (with_sleeping_list sl').

(** Makes the current thread sleep until the given number of ticks since
    boot. *)
Definition thread_sleep (wakeup : Z) : M unit :=
  do _ <- ASSERT (0 <=? wakeup) "wakeup_time_ticks >= 0";
  do now <- timer_ticks;
  if wakeup <? now then ret tt
  else
    do cur <- thread_current;
    do ic <- intr_context;
    do _ <- ASSERT (negb ic) "!intr_context ()";
    do old_level <- intr_disable;
    do idle <- gets idle_thread;
    if negb (cur =? idle) then
      do _ <- update cur (set_status THREAD_BLOCKED);
      do _ <- update cur (set_wakeup_time_ticks wakeup);
      do _ <- sleeping_queue_insert_ordered cur;
      do _ <- schedule;
      after_schedule cur (intr_set_level old_level)
    else intr_set_level old_level.

(** The loop of [thread_wakeup]: pops the front of the sleeping queue
    until a thread that is not due is found or the queue is empty.  Every
    iteration but the last pops one element, so a bound one above the
    length of the queue is never reached. *)
Fixpoint thread_wakeup_loop (bound : nat) (os_timer_ticks : Z) : M unit :=
  match bound with
  | O => fun _ => Fuel
  | S bound' =>
      do sl <- gets sleeping_list;
      match sl with
      | [] => ret tt
      | front :: rest =>
          do _ <- ASSERT (negb (front =? NULL)) "front_thread != NULL";
          do th <- deref front;
          do _ <- ASSERT (status_eqb (status th) THREAD_BLOCKED)
                         "front_thread->status == THREAD_BLOCKED";
          do _ <- ASSERT (0 <? wakeup_time_ticks th)
                         "front_thread->wakeup_time_ticks > 0";
          if os_timer_ticks <? wakeup_time_ticks th then
            modify (with_min_wakeup (wakeup_time_ticks th))
          else
            do _ <- modify (with_sleeping_list rest);
            do _ <- update front (set_wakeup_time_ticks THREAD_NOT_SLEEPING);
            do _ <- thread_unblock front;
            thread_wakeup_loop bound' os_timer_ticks
      end
  end.

(** Wakes up those threads that need to be woken up, transitioning them
    into the THREAD_READY state. *)
Definition thread_wakeup : M unit :=
  do os_timer_ticks <- timer_ticks;
  do min <- gets sleeping_list_min_wakeup_time_ticks;
  do sl <- gets sleeping_list;
  do _ <- ASSERT (negb (min =? SLEEPING_QUEUE_EMPTY) || list_empty sl)
                 "min != SLEEPING_QUEUE_EMPTY || list_empty (&sleeping_list)";
  if (min =? SLEEPING_QUEUE_EMPTY) || (os_timer_ticks <? min) then ret tt
  else
    do old_level <- intr_disable;
    do _ <- thread_wakeup_loop (S (length sl)) os_timer_ticks;
    do sl' <- gets sleeping_list;
    do _ <- (if list_empty sl'
             then modify (with_min_wakeup SLEEPING_QUEUE_EMPTY)
             else ret tt);
    intr_set_level old_level.

(** Returns the name of the running thread. *)
Definition thread_name : M string :=
  do t <- thread_current;
  do th <- deref t;
  ret (name th).

(** Returns the running thread's tid. *)
Definition thread_tid : M Z :=
  do t <- thread_current;
  do th <- deref t;
  ret (tid th).

(** Deschedules the current thread and destroys it.  Never returns to the
    caller. *)
Definition thread_exit : M unit :=
  do ic <- intr_context;
  do _ <- ASSERT (negb ic) "!intr_context ()";
  do up <- gets USERPROG;
  do _ <- (if up then process_exit else ret tt);
  do _ <- intr_disable;
  do t <- thread_current;
  do _ <- modify (fun k => with_all_list (list_remove (all_list k) t) k);
  do t' <- thread_current;
  do _ <- update t' (set_status THREAD_DYING);
  do _ <- schedule;
  after_schedule t' (panic "NOT_REACHED ()").

(** Yields the CPU. *)
Definition thread_yield : M unit :=
  do cur <- thread_current;
  do ic <- intr_context;
  do _ <- ASSERT (negb ic) "!intr_context ()";
  do old_level <- intr_disable;
  do idle <- gets idle_thread;
  do _ <- (if negb (cur =? idle)
           then modify (fun k => with_ready_list (list_push_back (ready_list k) cur) k)
           else ret tt);
  do _ <- update cur (set_status THREAD_READY);
  do _ <- schedule;
  after_schedule cur (intr_set_level old_level).

(** Sets the current thread's priority to NEW_PRIORITY. *)
Definition thread_set_priority (new_priority : Z) : M unit :=
  do t <- thread_current;
  update t (set_priority new_priority).

(** Returns the current thread's priority. *)
Definition thread_get_priority : M Z :=
  do t <- thread_current;
  do th <- deref t;
  ret (priority th).

(* ===================================================================== *)
(** ** Concrete kernel states *)
(* ===================================================================== *)

Definition kthread (id : Z) (st : thread_status) (nm : string) (wake : Z)
  : thread :=
  mk_thread id st nm [] PRI_DEFAULT wake NULL THREAD_MAGIC.

(** A running system at tick 100: "main" runs, the idle thread is
    blocked, one worker is ready and three sleepers wait for ticks 105,
    110 and 110. *)
Definition sample_mem : gmap Z thread :=
  <[0x1000 := kthread 1 THREAD_RUNNING "main" (-1)]>
  (<[0x2000 := kthread 2 THREAD_BLOCKED "idle" (-1)]>
  (<[0x3000 := kthread 3 THREAD_BLOCKED "s2" 105]>
  (<[0x4000 := kthread 4 THREAD_BLOCKED "s1" 110]>
  (<[0x5000 := kthread 5 THREAD_BLOCKED "s3" 110]>
  (<[0x6000 := kthread 6 THREAD_READY "worker" (-1)]> ∅))))).

Definition sample_kernel : kernel :=
  mk_kernel false sample_mem [0x7000; 0x8000] [] [0x6000]
    [0x3000; 0x4000; 0x5000] 105
    [0x1000; 0x2000; 0x3000; 0x4000; 0x5000; 0x6000]
    0x2000 0x1000 0 0 0 0 7 0x1000 INTR_ON false false 100.

(** The same system with the given tick count. *)
Definition at_tick (now : Z) (k : kernel) : kernel :=
  mk_kernel (USERPROG k) (mem k) (free_pool k) (free_log k) (ready_list k)
    (sleeping_list k) (sleeping_list_min_wakeup_time_ticks k) (all_list k)
    (idle_thread k) (initial_thread k) (idle_ticks k) (kernel_ticks k)
    (user_ticks k) (thread_ticks k) (next_tid k) (esp_page k) (level k)
    (in_intr_context k) (yield_on_return k) now.

(** The system right after boot, before the first timer tick: "main" and
    the idle thread only, interrupts on, no sleeper. *)
Definition boot_mem : gmap Z thread :=
  <[0x1000 := kthread 1 THREAD_RUNNING "main" (-1)]>
  (<[0x2000 := kthread 2 THREAD_BLOCKED "idle" (-1)]> ∅).

Definition boot_kernel : kernel :=
  mk_kernel false boot_mem [0x7000; 0x8000] [] [] [] SLEEPING_QUEUE_EMPTY
    [0x1000; 0x2000] 0x2000 0x1000 0 0 0 0 3 0x1000 INTR_ON false false 0.

(** The system of [sample_kernel] at tick 100 with a running thread whose
    wake field holds 50 instead of the sentinel. *)
Definition stale_wake_kernel : kernel :=
  with_mem (<[0x1000 := kthread 1 THREAD_RUNNING "main" 50]> sample_mem)
    sample_kernel.

(** The system of [sample_kernel] while the idle thread runs: "main" and
    the worker are ready. *)
Definition idle_running_kernel : kernel :=
  with_esp_page 0x2000
    (with_ready_list [0x1000; 0x6000]
       (with_mem
          (<[0x1000 := kthread 1 THREAD_READY "main" (-1)]>
             (<[0x2000 := kthread 2 THREAD_RUNNING "idle" (-1)]> sample_mem))
          sample_kernel)).

(** Three workers A, B, C: A runs, B and C are ready. *)
Definition three_workers : kernel :=
  mk_kernel false
    (<[0x1000 := kthread 1 THREAD_RUNNING "A" (-1)]>
     (<[0x2000 := kthread 2 THREAD_BLOCKED "idle" (-1)]>
     (<[0x3000 := kthread 3 THREAD_READY "B" (-1)]>
     (<[0x4000 := kthread 4 THREAD_READY "C" (-1)]> ∅))))
    [] [] [0x3000; 0x4000] [] SLEEPING_QUEUE_EMPTY
    [0x1000; 0x2000; 0x3000; 0x4000]
    0x2000 0x1000 0 0 0 0 5 0x1000 INTR_ON false false 100.

(** The system of [sample_kernel] with a BLOCKED thread that is to wake at
    tick 107 and is not queued yet, interrupts off. *)
Definition insert_kernel : kernel :=
  with_level INTR_OFF
    (with_mem (<[0x9000 := kthread 9 THREAD_BLOCKED "s4" 107]> sample_mem)
       sample_kernel).

(** [three_workers] with one free page in the pool. *)
Definition pooled_workers : kernel := with_free_pool [0x5000] three_workers.

(** The system of [sample_kernel] with one more thread, BLOCKED while it
    waits for a semaphore: it is on neither queue of the scheduler. *)
Definition waiter_kernel : kernel :=
  with_mem (<[0xA000 := kthread 10 THREAD_BLOCKED "waiter" (-1)]> sample_mem)
    sample_kernel.

(* ===================================================================== *)
(** ** Vocabulary of the specifications *)
(* ===================================================================== *)

(** A computation halts the kernel. *)
Definition halts {A} (o : outcome A) : Prop := exists msg, o = Panic msg.

(** A pointer to a page that holds a thread with an intact canary. *)
Definition valid_thread (k : kernel) (t : Z) (th : thread) : Prop :=
  t <> NULL /\ mem k !! t = Some th /\ magic th = THREAD_MAGIC.

(** The range of a [long long] counter in which [++] does not overflow. *)
Definition can_increment (c : Z) : Prop := - 2 ^ 63 <= c < 2 ^ 63 - 1.

(** The thread [next_thread_to_run] returns: the front of the ready queue,
    or the idle thread when the queue is empty. *)
Definition next_candidate (k : kernel) : Z :=
  match ready_list k with
  | [] => idle_thread k
  | front :: _ => front
  end.

(** Every entry of the ready queue is a valid thread in READY state. *)
Definition ready_wf (k : kernel) : Prop :=
  forall a, a ∈ ready_list k ->
    exists ta, valid_thread k a ta /\ status ta = THREAD_READY.

(** The state after [thread_schedule_tail] has marked the running thread,
    whose record was [c], and started its time slice. *)
Definition mark_running (k : kernel) (c : thread) : kernel :=
  with_thread_ticks 0
    (with_mem (<[esp_page k := set_status THREAD_RUNNING c]> (mem k)) k).

(** The state after [palloc_free_page p]. *)
Definition release_page (p : Z) (k : kernel) : kernel :=
  with_free_log (p :: free_log k)
    (with_free_pool (p :: free_pool k) (with_mem (delete p (mem k)) k)).

(** The fields of the kernel state that lie outside the thread records
    and the two queues with the cached minimum are the same in [k] and
    [k']. *)
Definition same_frame (k k' : kernel) : Prop :=
  USERPROG k' = USERPROG k /\ free_pool k' = free_pool k
  /\ free_log k' = free_log k /\ all_list k' = all_list k
  /\ idle_thread k' = idle_thread k /\ initial_thread k' = initial_thread k
  /\ idle_ticks k' = idle_ticks k /\ kernel_ticks k' = kernel_ticks k
  /\ user_ticks k' = user_ticks k /\ thread_ticks k' = thread_ticks k
  /\ next_tid k' = next_tid k /\ esp_page k' = esp_page k
  /\ level k' = level k /\ in_intr_context k' = in_intr_context k
  /\ yield_on_return k' = yield_on_return k /\ ticks k' = ticks k.

(** The wake tick stored in the thread at [a]. *)
Definition wake_of (k : kernel) (a : Z) : Z :=
  match mem k !! a with
  | Some th => wakeup_time_ticks th
  | None => 0
  end.

(** The sleeping queue is sorted ascending by wake tick. *)
Definition sleeping_sorted (k : kernel) : Prop :=
  Sorted Z.le (map (wake_of k) (sleeping_list k)).

(** The cached minimum is the sentinel iff the queue is empty, and the
    wake tick of the head otherwise. *)
Definition min_cache_ok (k : kernel) : Prop :=
  (sleeping_list_min_wakeup_time_ticks k = SLEEPING_QUEUE_EMPTY
   <-> sleeping_list k = [])
  /\ (forall a rest, sleeping_list k = a :: rest ->
        sleeping_list_min_wakeup_time_ticks k = wake_of k a).

(** The invariant of the sleeping queue: no thread is queued twice, every
    entry has a positive wake tick, the queue is sorted and the cache is
    coherent. *)
Definition sleep_queue_inv (k : kernel) : Prop :=
  NoDup (sleeping_list k)
  /\ (forall a, a ∈ sleeping_list k -> 0 < wake_of k a)
  /\ sleeping_sorted k
  /\ min_cache_ok k.

(** Every entry of the sleeping queue is a valid thread in BLOCKED state. *)
Definition sleepers_blocked (k : kernel) : Prop :=
  forall a, a ∈ sleeping_list k ->
    exists th, valid_thread k a th /\ status th = THREAD_BLOCKED.

(** Ordered insertion on the wake ticks [w], as [list_insert_ordered]
    performs it with [wakeup_time_ticks_less_than]. *)
Fixpoint insert_by (w : Z -> Z) (e : Z) (l : list Z) : list Z :=
  match l with
  | [] => [e]
  | x :: rest =>
      if w e <? w x then e :: x :: rest else x :: insert_by w e rest
  end.

(** The record of a thread right after [thread_create]: READY, with the
    three frames of its first dispatch on its stack. *)
Definition created_thread (id : Z) (nm : string) (prio function aux : Z)
  : thread :=
  mk_thread id THREAD_READY (substring 0 15 nm)
    [switch_threads_frame (code_ptr addr_switch_entry) 0;
     switch_entry_frame (code_ptr addr_kernel_thread);
     kernel_thread_frame NULL function aux]
    prio THREAD_NOT_SLEEPING NULL THREAD_MAGIC.

(** The range of a [tid_t] counter in which [++] does not overflow. *)
Definition tid_can_increment (n : Z) : Prop := - 2 ^ 31 <= n < 2 ^ 31 - 1.

(** The record [thread_init] gives the running thread. *)
Definition main_thread (id : Z) : thread :=
  mk_thread id THREAD_RUNNING "main" [] PRI_DEFAULT THREAD_NOT_SLEEPING NULL
    THREAD_MAGIC.

(** The queue of runnable threads, the running one first, after one
    yield: the head goes to the back. *)
Definition rot1 (l : list Z) : list Z :=
  match l with
  | [] => []
  | x :: rest => rest ++ [x]
  end.

(** [n] calls of [m] in a row. *)
Fixpoint repeat_call (n : nat) (m : M unit) : M unit :=
  match n with
  | O => ret tt
  | S n' => do _ <- m; repeat_call n' m
  end.

(** The runnable threads are well formed: outside interrupt context a
    valid thread that is not the idle thread runs, RUNNING and not
    sleeping, and the ready queue holds valid READY threads that are not
    sleeping, none twice, the idle thread not among them. *)
Definition runnable_wf (k : kernel) : Prop :=
  in_intr_context k = false
  /\ esp_page k <> idle_thread k
  /\ (exists c, valid_thread k (esp_page k) c /\ status c = THREAD_RUNNING
                /\ wakeup_time_ticks c = THREAD_NOT_SLEEPING)
  /\ NoDup (ready_list k)
  /\ (idle_thread k ∉ ready_list k)
  /\ (forall a, a ∈ ready_list k ->
        exists ta, valid_thread k a ta /\ status ta = THREAD_READY
                   /\ wakeup_time_ticks ta = THREAD_NOT_SLEEPING).

(** The status of the thread in page [a], if the page holds one. *)
Definition status_of (k : kernel) (a : Z) : option thread_status :=
  status <$> mem k !! a.

(** Exactly one thread is RUNNING: the one the stack pointer lies in. *)
Definition one_running (k : kernel) : Prop :=
  status_of k (esp_page k) = Some THREAD_RUNNING
  /\ forall a, status_of k a = Some THREAD_RUNNING -> a = esp_page k.

(** The page pool holds each free page once, never the null pointer, and
    no page of the pool holds a thread. *)
Definition pool_free (k : kernel) : Prop :=
  NoDup (free_pool k)
  /\ (NULL ∉ free_pool k)
  /\ forall a, a ∈ free_pool k -> status_of k a = None.

(** The queue link is used as thread.h says: the ready queue holds READY
    threads and the sleeping queue BLOCKED ones, each of them once, and
    the idle thread is never asleep.  So no thread is linked in both
    queues, and a RUNNING thread is linked in none. *)
Definition queues_wf (k : kernel) : Prop :=
  NoDup (ready_list k)
  /\ (forall a, a ∈ ready_list k -> status_of k a = Some THREAD_READY)
  /\ NoDup (sleeping_list k)
  /\ (forall a, a ∈ sleeping_list k -> status_of k a = Some THREAD_BLOCKED)
  /\ (idle_thread k ∉ sleeping_list k).

Definition scheduler_inv (k : kernel) : Prop :=
  one_running k /\ pool_free k /\ queues_wf k.

(** The state inside [schedule]: the caller has given up RUNNING and the
    next thread is not marked yet. *)
Definition parked (k : kernel) : Prop :=
  (forall a, status_of k a <> Some THREAD_RUNNING)
  /\ pool_free k /\ queues_wf k.

(** [k'] has the statuses of [k] but for page [t], whose status is [s]
    ([None] once the page is freed). *)
Definition sets_status (k k' : kernel) (t : Z) (s : option thread_status)
  : Prop :=
  forall a, status_of k' a = if decide (a = t) then s else status_of k a.

(** What the rest of the kernel settles before a thread calls into
    thread.c: the interrupt level and the interrupt-context flag
    (interrupt.c: handler entry and exit, [intr_disable], [intr_enable]),
    the pending-yield flag and the tick count (timer.c).  A thread that
    has just been dispatched sets its own level here, by the code that
    follows its [schedule ()]: [intr_set_level (old_level)] in
    [thread_yield] and [thread_sleep], the caller of [thread_block],
    [intr_enable ()] in [kernel_thread]. *)
Record env : Type := mk_env {
  env_level : intr_level;
  env_intr_context : bool;
  env_ticks : Z;
  env_yield_on_return : bool
}.

Definition resume (e : env) (k : kernel) : kernel :=
  mk_kernel (USERPROG k) (mem k) (free_pool k) (free_log k) (ready_list k)
    (sleeping_list k) (sleeping_list_min_wakeup_time_ticks k) (all_list k)
    (idle_thread k) (initial_thread k) (idle_ticks k) (kernel_ticks k)
    (user_ticks k) (thread_ticks k) (next_tid k) (esp_page k)
    (env_level e) (env_intr_context e) (env_yield_on_return e) (env_ticks e).

(** The calls of the thread interface that change the scheduler state. *)
Inductive call : Type :=
  | call_create (nm : string) (prio function aux : Z)
  | call_unblock (t : Z)
  | call_block
  | call_yield
  | call_sleep (wakeup : Z)
  | call_wakeup
  | call_tick
  | call_set_priority (new_priority : Z)
  | call_exit.

(** A caller of [thread_unblock] hands over a thread whose queue link is
    free (a semaphore takes the thread off its wait list first, the
    sweep pops the sleeper first): a run in which a thread still linked
    in the sleeping queue is unblocked ends there. *)
Definition run_call (c : call) : M unit :=
  match c with
  | call_create nm prio function aux =>
      do _ <- thread_create nm prio function aux; ret tt
  | call_unblock t =>
      do sl <- gets sleeping_list;
      if existsb (Z.eqb t) sl
      then panic "elem is linked in the sleeping queue"
      else thread_unblock t
  | call_block => thread_block
  | call_yield => thread_yield
  | call_sleep wakeup => thread_sleep wakeup
  | call_wakeup => thread_wakeup
  | call_tick => thread_tick
  | call_set_priority p => thread_set_priority p
  | call_exit => thread_exit
  end.

(** A run of the kernel as thread.c sees it: before each call the rest
    of the kernel has settled the level, the context flag, the pending
    yield and the tick count the call is made with. *)
Fixpoint run_trace (tr : list (env * call)) : M unit :=
  match tr with
  | [] => ret tt
  | (e, c) :: rest =>
      do _ <- modify (resume e);
      do _ <- run_call c;
      run_trace rest
  end.

(* ===================================================================== *)
(** ** Symbolic execution of kernel computations *)
(* ===================================================================== *)

Ltac munfold :=
  unfold ASSERT, intr_get_level, intr_disable, intr_set_level, intr_context,
    intr_yield_on_return, timer_ticks, running_thread, update, deref,
    bind, ret, gets, get, modify, panic.

Ltac msimpl :=
  cbn -[lookup insert delete Z.add Z.sub Z.modulo Z.pow Z.ltb Z.leb Z.eqb
       is_thread thread_current thread_unblock thread_schedule_tail schedule
       next_thread_to_run sleeping_queue_insert_ordered list_insert_ordered
       thread_wakeup_loop palloc_get_page palloc_free_page switch_threads
       init_thread alloc_frame allocate_tid next_candidate].

Ltac mstep := munfold; msimpl.

Lemma bind_halts {A B} (m : M A) (f : A -> M B) k :
  halts (m k) -> halts (bind m f k).
Proof. intros [msg H]. exists msg. unfold bind. by rewrite H. Qed.

Lemma bind_done {A B} (m : M A) (f : A -> M B) k a k1 :
  m k = Done a k1 -> bind m f k = f a k1.
Proof. intros H. unfold bind. by rewrite H. Qed.

Lemma bind_done_inv {A B} (m : M A) (f : A -> M B) k b k' :
  bind m f k = Done b k' ->
  exists a k1, m k = Done a k1 /\ f a k1 = Done b k'.
Proof.
  unfold bind. destruct (m k) as [a k1| |]; [|done|done].
  intros H. by exists a, k1.
Qed.

Lemma status_eqb_eq a b : status_eqb a b = true <-> a = b.
Proof. destruct a, b; cbn; split; congruence. Qed.

Lemma status_eqb_neq a b : status_eqb a b = false <-> a <> b.
Proof. destruct a, b; cbn; split; congruence. Qed.

Lemma is_thread_valid k t th :
  t <> NULL -> mem k !! t = Some th ->
  is_thread t k = Done (magic th =? THREAD_MAGIC) k.
Proof.
  intros Hn Hl. unfold is_thread.
  destruct (Z.eqb_spec t NULL) as [->|_]; [done|].
  mstep. by rewrite Hl.
Qed.

Lemma is_thread_true k t th :
  valid_thread k t th -> is_thread t k = Done true k.
Proof.
  intros (Hn & Hl & Hm). rewrite (is_thread_valid k t th Hn Hl), Hm.
  by rewrite Z.eqb_refl.
Qed.

Lemma thread_current_ok k th :
  valid_thread k (esp_page k) th ->
  status th = THREAD_RUNNING ->
  wakeup_time_ticks th = THREAD_NOT_SLEEPING ->
  thread_current k = Done (esp_page k) k.
Proof.
  intros Hv Hs Hw. unfold thread_current.
  rewrite (bind_done running_thread _ k (esp_page k) k) by done.
  rewrite (bind_done _ _ _ _ _ (is_thread_true _ _ _ Hv)).
  destruct Hv as (_ & Hl & _).
  mstep. rewrite Hl, Hs. msimpl. by rewrite Hw.
Qed.

Lemma thread_current_halts k th :
  mem k !! esp_page k = Some th ->
  wakeup_time_ticks th <> THREAD_NOT_SLEEPING ->
  halts (thread_current k).
Proof.
  intros Hl Hw. unfold thread_current, is_thread.
  rewrite (bind_done running_thread _ k (esp_page k) k) by done.
  destruct (Z.eqb_spec (esp_page k) NULL) as [He|He].
  { mstep. by eexists. }
  mstep. rewrite Hl.
  destruct (magic th =? THREAD_MAGIC); msimpl; [|by eexists].
  rewrite Hl.
  destruct (status_eqb (status th) THREAD_RUNNING); msimpl; [|by eexists].
  destruct (Z.eqb_spec (wakeup_time_ticks th) THREAD_NOT_SLEEPING); [done|].
  by eexists.
Qed.

Lemma thread_current_wake_message k th :
  valid_thread k (esp_page k) th ->
  status th = THREAD_RUNNING ->
  wakeup_time_ticks th <> THREAD_NOT_SLEEPING ->
  thread_current k = Panic "t->wakeup_time_ticks == THREAD_NOT_SLEEPING".
Proof.
  intros Hv Hs Hw. unfold thread_current.
  rewrite (bind_done running_thread _ k (esp_page k) k) by done.
  rewrite (bind_done _ _ _ _ _ (is_thread_true _ _ _ Hv)).
  destruct Hv as (_ & Hl & _).
  mstep. rewrite Hl, Hs. msimpl.
  by destruct (Z.eqb_spec (wakeup_time_ticks th) THREAD_NOT_SLEEPING).
Qed.

Lemma thread_unblock_blocked k t th :
  valid_thread k t th ->
  status th = THREAD_BLOCKED ->
  thread_unblock t k =
    Done tt (with_mem (<[t := set_status THREAD_READY th]> (mem k))
               (with_ready_list (ready_list k ++ [t]) k)).
Proof.
  intros Hv Hs. unfold thread_unblock.
  rewrite (bind_done _ _ _ _ _ (is_thread_true _ _ _ Hv)).
  destruct Hv as (_ & Hl & _).
  mstep. rewrite Hl, Hs. msimpl. rewrite Hl.
  destruct k; reflexivity.
Qed.

Lemma thread_unblock_not_blocked k t th :
  valid_thread k t th ->
  status th <> THREAD_BLOCKED ->
  thread_unblock t k = Panic "t->status == THREAD_BLOCKED".
Proof.
  intros Hv Hs. unfold thread_unblock.
  rewrite (bind_done _ _ _ _ _ (is_thread_true _ _ _ Hv)).
  destruct Hv as (_ & Hl & _).
  mstep. rewrite Hl.
  apply status_eqb_neq in Hs. by rewrite Hs.
Qed.

(* ===================================================================== *)
(** ** Blocking primitives *)
(* ===================================================================== *)

(** C6. For every valid thread [t], [thread_unblock t] halts on a fatal
    assertion unless [t] is BLOCKED.  Let [t] be BLOCKED with its queue
    link free: [t] is on neither the ready queue nor the sleeping queue
    (thread.h: the one [elem] of a thread serves the ready queue, the
    sleeping queue and the wait lists in turn).  Then the call returns,
    and it is the critical section [intr_disable]; append; status write;
    [intr_set_level]: the append of [t] to the back of the ready queue
    and the write of READY both happen in states with interrupts off,
    and the caller's level is set again afterwards.  The state returned
    differs from the one the call was made in only by [t] appended to
    the back of the ready queue and [t]'s status set to READY.  In
    particular the running thread is the same (no suspension, no
    preemption), the interrupt level is the caller's again, and the
    sleeping queue, its cached minimum, the registry and the counters
    are untouched; [t] is on the ready queue alone, once. *)
Theorem thread_unblock_spec (k : kernel) (t : Z) (th : thread) :
  valid_thread k t th ->
  (status th <> THREAD_BLOCKED ->
     thread_unblock t k = Panic "t->status == THREAD_BLOCKED")
  /\ (status th = THREAD_BLOCKED ->
      t ∉ ready_list k ->
      t ∉ sleeping_list k ->
      exists k1 k2 k3 k',
        thread_unblock t k
        = (do old_level <- intr_disable;
           do _ <- modify (fun k0 =>
                     with_ready_list (list_push_back (ready_list k0) t) k0);
           do _ <- update t (set_status THREAD_READY);
           intr_set_level old_level) k
        /\ intr_disable k = Done (level k) k1
        /\ modify (fun k0 =>
             with_ready_list (list_push_back (ready_list k0) t) k0) k1
           = Done tt k2
        /\ update t (set_status THREAD_READY) k2 = Done tt k3
        /\ intr_set_level (level k) k3 = Done tt k'
        /\ level k1 = INTR_OFF /\ level k2 = INTR_OFF /\ level k3 = INTR_OFF
        /\ thread_unblock t k = Done tt k'
        /\ k' = with_mem (<[t := set_status THREAD_READY th]> (mem k))
                  (with_ready_list (ready_list k ++ [t]) k)
        /\ ready_list k' = ready_list k ++ [t]
        /\ status <$> mem k' !! t = Some THREAD_READY
        /\ (forall u, u <> t -> mem k' !! u = mem k !! u)
        /\ esp_page k' = esp_page k
        /\ level k' = level k
        /\ yield_on_return k' = yield_on_return k
        /\ sleeping_list k' = sleeping_list k
        /\ sleeping_list_min_wakeup_time_ticks k'
           = sleeping_list_min_wakeup_time_ticks k
        /\ (t ∉ sleeping_list k')
        /\ (NoDup (ready_list k) -> NoDup (ready_list k'))).
Proof.
  intros Hv. split; intros Hs.
  - by apply (thread_unblock_not_blocked k t th).
  - intros Hr Hsl. pose proof Hv as (Hn & Hl & Hm).
    set (k1 := with_level INTR_OFF k).
    set (k2 := with_ready_list (list_push_back (ready_list k1) t) k1).
    set (k3 := with_mem (<[t := set_status THREAD_READY th]> (mem k2)) k2).
    set (k' := with_mem (<[t := set_status THREAD_READY th]> (mem k))
                 (with_ready_list (ready_list k ++ [t]) k)).
    assert (Hrun : thread_unblock t k = Done tt k')
      by (by apply (thread_unblock_blocked k t th)).
    assert (Hup : update t (set_status THREAD_READY) k2 = Done tt k3).
    { unfold update, deref. munfold. change (mem k2) with (mem k).
      by rewrite Hl. }
    assert (Hset : intr_set_level (level k) k3 = Done tt k')
      by (subst k' k3 k2 k1; destruct k; reflexivity).
    exists k1, k2, k3, k'.
    split.
    { rewrite Hrun. symmetry.
      rewrite (bind_done intr_disable _ k (level k) k1) by done.
      rewrite (bind_done _ _ k1 tt k2) by done.
      by rewrite (bind_done _ _ _ _ _ Hup). }
    split; [done|]. split; [done|]. split; [exact Hup|].
    split; [exact Hset|]. split; [done|]. split; [done|]. split; [done|].
    split; [exact Hrun|]. split; [done|]. subst k'. msimpl.
    split; [done|]. split; [by rewrite lookup_insert_eq|].
    split; [intros u Hu; by rewrite lookup_insert_ne|].
    split; [done|]. split; [done|]. split; [done|]. split; [done|].
    split; [done|]. split; [done|].
    intros Hnd. apply NoDup_app. split; [done|]. split.
    + intros a Ha Hin. apply list_elem_of_singleton in Hin. by subst a.
    + apply NoDup_singleton.
Qed.

Lemma thread_unblock_spec_witness :
  valid_thread waiter_kernel 0xA000 (kthread 10 THREAD_BLOCKED "waiter" (-1))
  /\ (0xA000 ∉ ready_list waiter_kernel)
  /\ (0xA000 ∉ sleeping_list waiter_kernel)
  /\ exists k', thread_unblock 0xA000 waiter_kernel = Done tt k'
       /\ ready_list k' = [0x6000; 0xA000]
       /\ esp_page k' = 0x1000
       /\ level k' = INTR_ON.
Proof.
  assert (Hv : valid_thread waiter_kernel 0xA000
                 (kthread 10 THREAD_BLOCKED "waiter" (-1))).
  { split; [|split]; [vm_compute; congruence|reflexivity|reflexivity]. }
  assert (Hr : 0xA000 ∉ ready_list waiter_kernel)
    by (cbn; rewrite !elem_of_cons, elem_of_nil; lia).
  assert (Hsl : 0xA000 ∉ sleeping_list waiter_kernel)
    by (cbn; rewrite !elem_of_cons, elem_of_nil; lia).
  split; [exact Hv|]. split; [exact Hr|]. split; [exact Hsl|].
  destruct (thread_unblock_spec waiter_kernel 0xA000 _ Hv) as [_ H].
  destruct (H eq_refl Hr Hsl)
    as (k1 & k2 & k3 & k' & _ & _ & _ & _ & _ & _ & _ & _ & Hrun & _ & Hq
        & _ & _ & He & Hlv & _).
  exists k'. split; [exact Hrun|]. split; [exact Hq|]. split; [exact He|].
  exact Hlv.
Defined.

(* ===================================================================== *)
(** ** Counters and per-tick bookkeeping *)
(* ===================================================================== *)

Lemma threads_sleeping_empty k :
  sleeping_list_min_wakeup_time_ticks k = SLEEPING_QUEUE_EMPTY ->
  threads_sleeping k = Done 0 (with_level INTR_OFF k).
Proof. intros H. unfold threads_sleeping. mstep. by rewrite H. Qed.

Lemma threads_sleeping_nonempty k :
  sleeping_list_min_wakeup_time_ticks k <> SLEEPING_QUEUE_EMPTY ->
  threads_sleeping k
  = Done (list_size (sleeping_list k)) (with_level (level k) (with_level INTR_OFF k)).
Proof.
  intros H. unfold threads_sleeping. mstep.
  by destruct (Z.eqb_spec (sleeping_list_min_wakeup_time_ticks k)
                 SLEEPING_QUEUE_EMPTY).
Qed.

(** C4.  On the empty-queue fast path [threads_sleeping] returns 0 with
    interrupts left disabled: called right after boot with interrupts on
    and no sleeper, it returns in a state whose interrupt level is
    INTR_OFF.  Its sibling [threads_ready] gives the level back on its
    only path. *)
Theorem threads_sleeping_fast_path_keeps_interrupts_off :
  level boot_kernel = INTR_ON
  /\ sleeping_list boot_kernel = []
  /\ threads_sleeping boot_kernel = Done 0 (with_level INTR_OFF boot_kernel)
  /\ level (with_level INTR_OFF boot_kernel) <> level boot_kernel
  /\ threads_ready boot_kernel = Done 0 boot_kernel.
Proof.
  split; [reflexivity|]. split; [reflexivity|].
  split; [by apply threads_sleeping_empty|].
  split; [by cbn|reflexivity].
Qed.

(** C5.  When the page allocator has no page left, [thread_create]
    returns TID_ERROR in the very state it was called in: the registry of
    all threads, the ready queue, the sleeping queue and the tid counter
    are those of before the call. *)
Theorem thread_create_allocation_failure
  (k : kernel) (nm : string) (prio function aux : Z) :
  function <> NULL ->
  free_pool k = [] ->
  thread_create nm prio function aux k = Done TID_ERROR k
  /\ forall k', thread_create nm prio function aux k = Done TID_ERROR k' ->
       all_list k' = all_list k /\ ready_list k' = ready_list k
       /\ sleeping_list k' = sleeping_list k /\ next_tid k' = next_tid k
       /\ mem k' = mem k.
Proof.
  intros Hf Hp.
  assert (H : thread_create nm prio function aux k = Done TID_ERROR k).
  { unfold thread_create, palloc_get_page. mstep.
    destruct (Z.eqb_spec function NULL); [done|]. msimpl.
    by rewrite Hp. }
  split; [exact H|]. intros k' H'. rewrite H in H'. by inversion H'.
Qed.

Lemma thread_create_allocation_failure_witness :
  thread_create "worker" PRI_DEFAULT 0x8048000 0
    (with_free_pool [] sample_kernel)
  = Done TID_ERROR (with_free_pool [] sample_kernel).
Proof.
  apply (thread_create_allocation_failure (with_free_pool [] sample_kernel)
           "worker" PRI_DEFAULT 0x8048000 0).
  - vm_compute. congruence.
  - reflexivity.
Defined.

Lemma wrap_long_long_succ c : can_increment c -> wrap_long_long (c + 1) = c + 1.
Proof.
  unfold can_increment, wrap_long_long, wrap_signed. intros H.
  rewrite Z.mod_small; lia.
Qed.

(** C9.  Called on a valid running thread, [thread_tick] returns.  It
    adds one to exactly one of the three statistics counters: [idle_ticks]
    when the running thread is the idle thread, else [user_ticks] when the
    build has user programs and the thread has a page directory, else
    [kernel_ticks].  It adds one to the unsigned per-slice counter, and
    the yield-on-return flag is raised by this call exactly when the
    incremented counter is at least TIME_SLICE = 4.  The running thread,
    the queues and the thread records are the same as before: the
    dispatcher is not entered. *)
Theorem thread_tick_spec (k : kernel) (th : thread) :
  valid_thread k (esp_page k) th ->
  status th = THREAD_RUNNING ->
  wakeup_time_ticks th = THREAD_NOT_SLEEPING ->
  can_increment (idle_ticks k) ->
  can_increment (user_ticks k) ->
  can_increment (kernel_ticks k) ->
  exists k',
    thread_tick k = Done tt k'
    /\ (idle_ticks k', user_ticks k', kernel_ticks k')
       = (if esp_page k =? idle_thread k
          then (idle_ticks k + 1, user_ticks k, kernel_ticks k)
          else if USERPROG k && negb (pagedir th =? NULL)
          then (idle_ticks k, user_ticks k + 1, kernel_ticks k)
          else (idle_ticks k, user_ticks k, kernel_ticks k + 1))
    /\ thread_ticks k' = (thread_ticks k + 1) mod 2 ^ 32
    /\ TIME_SLICE = 4
    /\ yield_on_return k'
       = (yield_on_return k || (TIME_SLICE <=? thread_ticks k'))
    /\ esp_page k' = esp_page k
    /\ mem k' = mem k
    /\ ready_list k' = ready_list k
    /\ sleeping_list k' = sleeping_list k
    /\ level k' = level k.
Proof.
  intros Hv Hs Hw Hi Hu Hk. unfold thread_tick.
  rewrite (bind_done _ _ _ _ _ (thread_current_ok k th Hv Hs Hw)).
  destruct Hv as (_ & Hl & _).
  mstep. rewrite Hl.
  destruct (esp_page k =? idle_thread k); msimpl;
    [|destruct (USERPROG k && negb (pagedir th =? NULL)); msimpl];
    (destruct (TIME_SLICE <=? wrap_unsigned (thread_ticks k + 1)) eqn:Ht;
     msimpl; eexists; (split; [reflexivity|]); msimpl;
     rewrite ?wrap_long_long_succ by assumption;
     unfold wrap_unsigned in *; rewrite ?Ht;
     repeat split; try reflexivity;
     by destruct (yield_on_return k)).
Qed.

Lemma thread_tick_spec_witness :
  exists k',
    thread_tick (with_thread_ticks 3 sample_kernel) = Done tt k'
    /\ (idle_ticks k', user_ticks k', kernel_ticks k') = (0, 0, 1)
    /\ thread_ticks k' = 4
    /\ yield_on_return k' = true
    /\ esp_page k' = 0x1000.
Proof.
  destruct (thread_tick_spec (with_thread_ticks 3 sample_kernel)
              (kthread 1 THREAD_RUNNING "main" (-1)))
    as (k' & Hr & Hc & Ht & _ & Hy & He & _).
  - split; [|split]; [vm_compute; congruence|reflexivity|reflexivity].
  - reflexivity.
  - reflexivity.
  - unfold can_increment. cbn. lia.
  - unfold can_increment. cbn. lia.
  - unfold can_increment. cbn. lia.
  - exists k'. split; [exact Hr|]. split; [exact Hc|].
    split; [exact Ht|]. split; [|exact He].
    rewrite Hy, Ht. reflexivity.
Defined.

(* ===================================================================== *)
(** ** The sanity checks of [thread_current] *)
(* ===================================================================== *)

(** C10, as stated, fails for [thread_sleep]: with the running thread's
    wake field at 50, not the sentinel, [thread_sleep 3] at tick 100
    returns normally, in the state it was called in. *)
Lemma thread_sleep_past_deadline_skips_thread_current :
  (exists th, mem stale_wake_kernel !! esp_page stale_wake_kernel = Some th
              /\ wakeup_time_ticks th <> THREAD_NOT_SLEEPING)
  /\ thread_sleep 3 stale_wake_kernel = Done tt stale_wake_kernel
  /\ ~ halts (thread_sleep 3 stale_wake_kernel).
Proof.
  split.
  { exists (kthread 1 THREAD_RUNNING "main" 50).
    split; [reflexivity|]. vm_compute. congruence. }
  assert (H : thread_sleep 3 stale_wake_kernel = Done tt stale_wake_kernel)
    by reflexivity.
  split; [exact H|]. intros [msg Hm]. rewrite H in Hm. discriminate.
Qed.

(** C10, amended.  [thread_current] checks that the running thread's
    [wakeup_time_ticks] is THREAD_NOT_SLEEPING: when it is not, the call
    halts the kernel, and on a thread that passes the canary and status
    checks it is this assertion that fails.  [thread_tid], [thread_name],
    [thread_yield], [thread_tick], [thread_get_priority] and
    [thread_set_priority] start with [thread_current] and halt with it.
    [thread_sleep] halts as well unless its deadline is non-negative and
    already past ([0 <= deadline < timer_ticks ()]): then it returns
    before it calls [thread_current], with the state unchanged. *)
Theorem thread_current_wake_assertion (k : kernel) (th : thread) :
  mem k !! esp_page k = Some th ->
  wakeup_time_ticks th <> THREAD_NOT_SLEEPING ->
  halts (thread_current k)
  /\ (esp_page k <> NULL -> magic th = THREAD_MAGIC ->
      status th = THREAD_RUNNING ->
      thread_current k = Panic "t->wakeup_time_ticks == THREAD_NOT_SLEEPING")
  /\ halts (thread_tid k)
  /\ halts (thread_name k)
  /\ halts (thread_yield k)
  /\ halts (thread_tick k)
  /\ halts (thread_get_priority k)
  /\ (forall p, halts (thread_set_priority p k))
  /\ (forall deadline, ~ (0 <= deadline < ticks k) ->
        halts (thread_sleep deadline k))
  /\ (forall deadline, 0 <= deadline < ticks k ->
        thread_sleep deadline k = Done tt k).
Proof.
  intros Hl Hw.
  pose proof (thread_current_halts k th Hl Hw) as Hc.
  split; [exact Hc|].
  split. { intros Hn Hm Hs. by apply (thread_current_wake_message k th). }
  split; [by apply bind_halts|]. split; [by apply bind_halts|].
  split; [by apply bind_halts|]. split; [by apply bind_halts|].
  split; [by apply bind_halts|]. split; [intros p; by apply bind_halts|].
  split.
  - intros d Hd. unfold thread_sleep, ASSERT.
    destruct (Z.leb_spec 0 d) as [H0|H0]; [|by eexists].
    unfold bind at 1, ret at 1. unfold bind at 1, timer_ticks at 1, gets at 1.
    destruct (Z.ltb_spec d (ticks k)) as [H1|H1]; [lia|].
    by apply bind_halts.
  - intros d [H0 H1]. unfold thread_sleep, ASSERT.
    destruct (Z.leb_spec 0 d) as [_|]; [|lia].
    unfold bind at 1, ret at 1. unfold bind at 1, timer_ticks at 1, gets at 1.
    by destruct (Z.ltb_spec d (ticks k)) as [_|]; [|lia].
Qed.

Lemma thread_current_wake_assertion_witness :
  thread_current stale_wake_kernel
  = Panic "t->wakeup_time_ticks == THREAD_NOT_SLEEPING"
  /\ halts (thread_yield stale_wake_kernel)
  /\ halts (thread_sleep 100 stale_wake_kernel)
  /\ thread_sleep 99 stale_wake_kernel = Done tt stale_wake_kernel.
Proof.
  destruct (thread_current_wake_assertion stale_wake_kernel
              (kthread 1 THREAD_RUNNING "main" 50))
    as (_ & Hm & _ & _ & Hy & _ & _ & _ & Hs & Hr).
  - reflexivity.
  - vm_compute. congruence.
  - split; [|split; [exact Hy|split]].
    + apply Hm; [vm_compute; congruence|reflexivity|reflexivity].
    + apply Hs. cbn. lia.
    + apply Hr. cbn. lia.
Defined.

(* ===================================================================== *)
(** ** The dispatcher *)
(* ===================================================================== *)

Lemma thread_schedule_tail_result k prev c :
  level k = INTR_OFF ->
  mem k !! esp_page k = Some c ->
  thread_schedule_tail prev k =
    if prev =? NULL then Done tt (mark_running k c)
    else match mem (mark_running k c) !! prev with
         | None => Panic "page fault"
         | Some p =>
             if status_eqb (status p) THREAD_DYING
                && negb (prev =? initial_thread k)
             then if negb (prev =? esp_page k)
                  then Done tt (release_page prev (mark_running k c))
                  else Panic "prev != cur"
             else Done tt (mark_running k c)
         end.
Proof.
  intros Hlv Hc. unfold thread_schedule_tail, process_activate, palloc_free_page.
  munfold. cbn -[lookup insert delete Z.eqb]. rewrite Hlv. msimpl. rewrite Hc.
  assert (Hgoal : forall b : bool,
            (if b then fun k0 : kernel => Done tt k0
             else fun k0 : kernel => Done tt k0) = fun k0 : kernel => Done tt k0)
    by (by intros []).
  rewrite Hgoal. msimpl.
  destruct (prev =? NULL); [reflexivity|]. msimpl.
  destruct (_ !! prev) as [p|]; [|reflexivity]. msimpl.
  destruct (status_eqb (status p) THREAD_DYING && negb (prev =? initial_thread k));
    [|reflexivity].
  by destruct (prev =? esp_page k).
Qed.

Lemma next_thread_to_run_result k :
  next_thread_to_run k
  = Done (next_candidate k) (with_ready_list (tail (ready_list k)) k).
Proof.
  unfold next_thread_to_run, next_candidate. mstep.
  destruct k as [? ? ? ? rl ? ? ? ? ? ? ? ? ? ? ? ? ? ? ?]. msimpl.
  by destruct rl.
Qed.

Lemma schedule_result k c n :
  level k = INTR_OFF ->
  mem k !! esp_page k = Some c ->
  status c <> THREAD_RUNNING ->
  valid_thread k (next_candidate k) n ->
  schedule k =
    if esp_page k =? next_candidate k
    then thread_schedule_tail NULL (with_ready_list (tail (ready_list k)) k)
    else thread_schedule_tail (esp_page k)
           (with_esp_page (next_candidate k)
              (with_ready_list (tail (ready_list k)) k)).
Proof.
  intros Hlv Hc Hs Hv. unfold schedule.
  rewrite (bind_done running_thread _ k (esp_page k) k) by done.
  rewrite (bind_done _ _ _ _ _ (next_thread_to_run_result k)).
  set (k1 := with_ready_list (tail (ready_list k)) k).
  assert (Hv1 : valid_thread k1 (next_candidate k) n) by exact Hv.
  unfold bind at 1, intr_get_level at 1, gets at 1.
  change (level k1) with (level k). rewrite Hlv. msimpl.
  unfold bind at 1, ASSERT at 1, ret at 1.
  unfold bind at 1, deref at 1. change (mem k1) with (mem k). rewrite Hc.
  apply status_eqb_neq in Hs. rewrite Hs. msimpl.
  rewrite (bind_done _ _ _ _ _ (is_thread_true _ _ _ Hv1)).
  unfold bind at 1, ASSERT at 1, ret at 1.
  destruct (esp_page k =? next_candidate k); reflexivity.
Qed.

(** A dispatch from a thread that is neither running nor dying to another
    thread. *)
Lemma schedule_switch k c n :
  level k = INTR_OFF ->
  mem k !! esp_page k = Some c ->
  status c <> THREAD_RUNNING ->
  status c <> THREAD_DYING ->
  valid_thread k (next_candidate k) n ->
  next_candidate k <> esp_page k ->
  schedule k
  = Done tt (mark_running
               (with_esp_page (next_candidate k)
                  (with_ready_list (tail (ready_list k)) k)) n).
Proof.
  intros Hlv Hc Hr Hd Hv Hne.
  rewrite (schedule_result k c n Hlv Hc Hr Hv).
  destruct (Z.eqb_spec (esp_page k) (next_candidate k)) as [|_]; [done|].
  destruct Hv as (Hn1 & Hn2 & Hn3).
  set (k1 := with_esp_page _ _).
  rewrite (thread_schedule_tail_result k1 (esp_page k) n) by done.
  assert (Hm : mem (mark_running k1 n) !! esp_page k = Some c).
  { unfold mark_running. subst k1. msimpl. by rewrite lookup_insert_ne. }
  rewrite Hm. apply status_eqb_neq in Hd. rewrite Hd. msimpl.
  by destruct (esp_page k =? NULL).
Qed.

(** C8.  [thread_schedule_tail prev], entered with interrupts off on a
    running thread whose page holds a thread, and with [prev] null or a
    page that holds a thread, returns; the running thread is the same, its
    status is RUNNING and the per-slice counter is 0.  The call frees
    [prev]'s page (the page log grows by [prev], nothing else is ever
    logged) if and only if [prev] is not null, the status the code reads
    from [prev] is DYING and [prev] is not the initial thread; for a
    [prev] other than the running thread that status is the one [prev]
    had on entry.  A page is freed only if it held a thread, and holds
    none afterwards, so no later call frees it again.  Consequently, when
    a DYING thread other than the initial thread calls [schedule] and
    another thread is next to run, that successor's [thread_schedule_tail]
    frees the dying thread's page, exactly once. *)
Theorem thread_schedule_tail_spec :
  (forall (k : kernel) (prev : Z) (c : thread),
     level k = INTR_OFF ->
     mem k !! esp_page k = Some c ->
     prev = NULL \/ is_Some (mem k !! prev) ->
     exists k',
       thread_schedule_tail prev k = Done tt k'
       /\ esp_page k' = esp_page k
       /\ status <$> mem k' !! esp_page k' = Some THREAD_RUNNING
       /\ thread_ticks k' = 0
       /\ (free_log k' = prev :: free_log k \/ free_log k' = free_log k)
       /\ (free_log k' = prev :: free_log k <->
           prev <> NULL
           /\ status <$> mem (mark_running k c) !! prev = Some THREAD_DYING
           /\ prev <> initial_thread k)
       /\ (prev <> esp_page k ->
           status <$> mem (mark_running k c) !! prev = status <$> mem k !! prev)
       /\ (free_log k' = prev :: free_log k ->
           is_Some (mem k !! prev) /\ mem k' !! prev = None))
  /\ (forall (k k' : kernel) (prev : Z),
        mem k !! prev = None ->
        thread_schedule_tail prev k = Done tt k' ->
        free_log k' = free_log k)
  /\ (forall (k : kernel) (c n : thread),
        level k = INTR_OFF ->
        mem k !! esp_page k = Some c ->
        status c = THREAD_DYING ->
        esp_page k <> NULL ->
        esp_page k <> initial_thread k ->
        valid_thread k (next_candidate k) n ->
        next_candidate k <> esp_page k ->
        exists k',
          schedule k = Done tt k'
          /\ esp_page k' = next_candidate k
          /\ status <$> mem k' !! esp_page k' = Some THREAD_RUNNING
          /\ free_log k' = esp_page k :: free_log k
          /\ mem k' !! esp_page k = None).
Proof.
  assert (Hne : forall (p : Z) (l : list Z), l = p :: l -> False).
  { intros p l H. apply (f_equal length) in H. cbn in H. lia. }
  split; [|split].
  - intros k prev c Hlv Hc Hp.
    rewrite (thread_schedule_tail_result k prev c Hlv Hc).
    assert (Hs0 : prev <> esp_page k ->
                  mem (mark_running k c) !! prev = mem k !! prev).
    { intros H. unfold mark_running. msimpl. by rewrite lookup_insert_ne. }
    assert (Hs1 : mem (mark_running k c) !! esp_page k
                  = Some (set_status THREAD_RUNNING c)).
    { unfold mark_running. msimpl. by rewrite lookup_insert_eq. }
    destruct (Z.eqb_spec prev NULL) as [->|Hn].
    { exists (mark_running k c). split; [reflexivity|].
      change (esp_page (mark_running k c)) with (esp_page k).
      change (free_log (mark_running k c)) with (free_log k).
      rewrite Hs1. split; [done|]. split; [done|]. split; [done|].
      split; [by right|]. split; [|split].
      - split; [intros H; by apply Hne in H|]. by intros (H & _).
      - intros H. by rewrite Hs0.
      - intros H. by apply Hne in H. }
    destruct Hp as [Hp|[p0 Hp0]]; [done|].
    destruct (mem (mark_running k c) !! prev) as [p|] eqn:Hp.
    2:{ exfalso. destruct (decide (prev = esp_page k)) as [->|Hd].
        - by rewrite Hs1 in Hp.
        - rewrite <- Hs0 in Hp0 by done. done. }
    destruct (status_eqb (status p) THREAD_DYING) eqn:Hd.
    + apply status_eqb_eq in Hd.
      assert (Hpc : prev <> esp_page k).
      { intros ->. rewrite Hs1 in Hp. inversion Hp; subst p. done. }
      destruct (Z.eqb_spec prev (initial_thread k)) as [Hi|Hi]; msimpl.
      * exists (mark_running k c). split; [reflexivity|].
        change (esp_page (mark_running k c)) with (esp_page k).
        change (free_log (mark_running k c)) with (free_log k).
        rewrite Hs1. split; [done|]. split; [done|]. split; [done|].
        split; [by right|]. split; [|split].
        -- split; [intros H; by apply Hne in H|]. by intros (_ & _ & H).
        -- intros H. by rewrite <- Hs0.
        -- intros H. by apply Hne in H.
      * destruct (Z.eqb_spec prev (esp_page k)) as [He|_]; [done|]. msimpl.
        exists (release_page prev (mark_running k c)). split; [reflexivity|].
        change (esp_page (release_page prev (mark_running k c)))
          with (esp_page k).
        change (free_log (release_page prev (mark_running k c)))
          with (prev :: free_log k).
        change (mem (release_page prev (mark_running k c)))
          with (delete prev (mem (mark_running k c))).
        rewrite lookup_delete_ne, Hs1 by done.
        split; [done|]. split; [done|]. split; [done|].
        split; [by left|]. split; [|split].
        -- split; [|done]. intros _. by rewrite Hd.
        -- intros H. by rewrite <- Hs0.
        -- intros _. split; [done|]. by rewrite lookup_delete_eq.
    + apply status_eqb_neq in Hd. msimpl.
      exists (mark_running k c). split; [reflexivity|].
      change (esp_page (mark_running k c)) with (esp_page k).
      change (free_log (mark_running k c)) with (free_log k).
      rewrite Hs1. split; [done|]. split; [done|]. split; [done|].
      split; [by right|]. split; [|split].
      * split; [intros H; by apply Hne in H|].
        intros (_ & H & _). cbn in H. congruence.
      * intros H. by rewrite <- Hs0.
      * intros H. by apply Hne in H.
  - intros k k' prev Hp H.
    unfold thread_schedule_tail, process_activate in H. revert H.
    munfold. cbn -[lookup insert delete Z.eqb].
    destruct (level_eqb (level k) INTR_OFF); msimpl; [|done].
    destruct (mem k !! esp_page k) as [c|] eqn:Hc; [|done]. msimpl.
    assert (Hgoal : forall b : bool,
              (if b then fun k0 : kernel => Done tt k0
               else fun k0 : kernel => Done tt k0) = fun k0 : kernel => Done tt k0)
      by (by intros []).
    rewrite Hgoal. msimpl.
    destruct (prev =? NULL); msimpl; [intros H; by inversion H|].
    rewrite lookup_insert_ne by congruence. by rewrite Hp.
  - intros k c n Hlv Hc Hs Hnull Hi Hv Hnc.
    assert (Hr : status c <> THREAD_RUNNING) by (rewrite Hs; done).
    rewrite (schedule_result k c n Hlv Hc Hr Hv).
    destruct (Z.eqb_spec (esp_page k) (next_candidate k)) as [He|_];
      [congruence|].
    destruct Hv as (Hnn & Hnl & Hnm).
    set (k1 := with_esp_page _ _).
    rewrite (thread_schedule_tail_result k1 (esp_page k) n) by done.
    destruct (Z.eqb_spec (esp_page k) NULL) as [|_]; [done|].
    assert (Hm : mem (mark_running k1 n) !! esp_page k = Some c).
    { unfold mark_running. msimpl. by rewrite lookup_insert_ne. }
    rewrite Hm, Hs. msimpl.
    change (initial_thread k1) with (initial_thread k).
    change (esp_page k1) with (next_candidate k).
    destruct (Z.eqb_spec (esp_page k) (initial_thread k)) as [|_]; [done|].
    destruct (Z.eqb_spec (esp_page k) (next_candidate k)) as [|_]; [done|].
    msimpl. eexists. split; [reflexivity|]. msimpl.
    split; [done|].
    rewrite lookup_delete_ne, lookup_insert_eq by done.
    split; [done|]. split; [done|]. by rewrite lookup_delete_eq.
Qed.

Lemma thread_schedule_tail_spec_witness :
  (exists k',
     thread_schedule_tail 0x3000
       (with_level INTR_OFF
          (with_mem (<[0x3000 := kthread 3 THREAD_DYING "s2" (-1)]> sample_mem)
             sample_kernel)) = Done tt k'
     /\ thread_ticks k' = 0
     /\ free_log k' = [0x3000])
  /\ (exists k',
     schedule
       (with_level INTR_OFF
          (with_esp_page 0x3000
             (with_mem (<[0x3000 := kthread 3 THREAD_DYING "s2" (-1)]> sample_mem)
                sample_kernel))) = Done tt k'
     /\ esp_page k' = 0x6000
     /\ free_log k' = [0x3000]
     /\ mem k' !! 0x3000 = None).
Proof.
  destruct thread_schedule_tail_spec as (Htail & _ & Hsched).
  split.
  - destruct (Htail
      (with_level INTR_OFF
         (with_mem (<[0x3000 := kthread 3 THREAD_DYING "s2" (-1)]> sample_mem)
            sample_kernel))
      0x3000 (kthread 1 THREAD_RUNNING "main" (-1)))
      as (k' & Hr & _ & _ & Ht & _ & Hiff & _).
    + reflexivity.
    + reflexivity.
    + right. by eexists.
    + exists k'. split; [exact Hr|]. split; [exact Ht|].
      apply Hiff. split; [vm_compute; congruence|].
      split; [reflexivity|vm_compute; congruence].
  - destruct (Hsched
      (with_level INTR_OFF
         (with_esp_page 0x3000
            (with_mem (<[0x3000 := kthread 3 THREAD_DYING "s2" (-1)]> sample_mem)
               sample_kernel)))
      (kthread 3 THREAD_DYING "s2" (-1))
      (kthread 6 THREAD_READY "worker" (-1)))
      as (k' & Hr & He & _ & Hf & Hm).
    + reflexivity.
    + reflexivity.
    + reflexivity.
    + vm_compute. congruence.
    + vm_compute. congruence.
    + split; [|split]; [vm_compute; congruence|reflexivity|reflexivity].
    + vm_compute. congruence.
    + exists k'. split; [exact Hr|]. split; [exact He|].
      split; [exact Hf|exact Hm].
Defined.

Lemma thread_yield_result k c :
  valid_thread k (esp_page k) c ->
  status c = THREAD_RUNNING ->
  wakeup_time_ticks c = THREAD_NOT_SLEEPING ->
  in_intr_context k = false ->
  thread_yield k =
    (do _ <- schedule;
     after_schedule (esp_page k) (intr_set_level (level k)))
      (with_mem (<[esp_page k := set_status THREAD_READY c]> (mem k))
         (with_ready_list
            (if negb (esp_page k =? idle_thread k)
             then ready_list k ++ [esp_page k] else ready_list k)
            (with_level INTR_OFF k))).
Proof.
  intros Hv Hs Hw Hi. unfold thread_yield.
  rewrite (bind_done _ _ _ _ _ (thread_current_ok k c Hv Hs Hw)).
  destruct Hv as (_ & Hl & _).
  mstep. rewrite Hi. msimpl.
  destruct (esp_page k =? idle_thread k); msimpl; rewrite Hl; reflexivity.
Qed.

(** C7.  Let [t] be a valid BLOCKED thread, let the running thread be
    valid and outside interrupt context, and let the ready queue hold
    valid READY threads.  Then [thread_unblock t] followed at once by
    [thread_yield] returns in the context of the thread at the front of
    the ready queue extended by [t]; that thread is [t] if and only if the
    ready queue was empty before the unblock. *)
Theorem unblock_then_yield_fifo (k : kernel) (t : Z) (th c : thread) :
  valid_thread k t th ->
  status th = THREAD_BLOCKED ->
  valid_thread k (esp_page k) c ->
  status c = THREAD_RUNNING ->
  wakeup_time_ticks c = THREAD_NOT_SLEEPING ->
  in_intr_context k = false ->
  ready_wf k ->
  exists k',
    (do _ <- thread_unblock t; thread_yield) k = Done tt k'
    /\ esp_page k' = hd t (ready_list k)
    /\ status <$> mem k' !! esp_page k' = Some THREAD_RUNNING
    /\ (esp_page k' = t <-> ready_list k = []).
Proof.
  intros Hvt Hst Hvc Hsc Hwc Hic Hwf.
  assert (Htc : t <> esp_page k).
  { intros ->. destruct Hvt as (_ & H1 & _), Hvc as (_ & H2 & _). congruence. }
  rewrite (bind_done _ _ _ _ _ (thread_unblock_blocked k t th Hvt Hst)).
  set (k1 := with_mem _ _).
  assert (Hvc1 : valid_thread k1 (esp_page k1) c).
  { destruct Hvc as (H1 & H2 & H3). split; [exact H1|]. split; [|exact H3].
    subst k1. msimpl. by rewrite lookup_insert_ne. }
  rewrite (thread_yield_result k1 c Hvc1 Hsc Hwc Hic).
  set (k2 := with_mem _ _).
  (* the thread at the front of the extended queue *)
  assert (Hnext : next_candidate k2 = hd t (ready_list k)).
  { subst k2 k1. unfold next_candidate. msimpl.
    destruct (esp_page k =? idle_thread k); msimpl; by destruct (ready_list k). }
  assert (Hhd : hd t (ready_list k) <> esp_page k
                /\ exists n, valid_thread k2 (hd t (ready_list k)) n
                             /\ (hd t (ready_list k) = t <-> ready_list k = [])).
  { destruct (ready_list k) as [|a r] eqn:Hrl; cbn [hd].
    - split; [done|]. exists (set_status THREAD_READY th).
      split; [|done]. destruct Hvt as (H1 & H2 & H3).
      split; [done|]. split; [|done].
      subst k2 k1. msimpl. rewrite lookup_insert_ne, lookup_insert_eq; done.
    - destruct (Hwf a) as (ta & (Ha1 & Ha2 & Ha3) & Hsa).
      { rewrite Hrl. left. }
      assert (Hat : a <> t).
      { intros ->. destruct Hvt as (_ & H & _). congruence. }
      assert (Hac : a <> esp_page k).
      { intros ->. destruct Hvc as (_ & H & _). congruence. }
      split; [done|]. exists ta. split; [|done].
      split; [done|]. split; [|done].
      subst k2 k1. msimpl. rewrite !lookup_insert_ne; done. }
  destruct Hhd as (Hne & n & Hvn & Hiff).
  assert (Hc2 : mem k2 !! esp_page k2 = Some (set_status THREAD_READY c)).
  { subst k2 k1. msimpl. by rewrite lookup_insert_eq. }
  rewrite <- Hnext in Hvn, Hne.
  rewrite (bind_done _ _ _ _ _
             (schedule_switch k2 (set_status THREAD_READY c) n
                eq_refl Hc2 ltac:(done) ltac:(done) Hvn Hne)).
  unfold after_schedule. mstep.
  change (esp_page k2) with (esp_page k) in *.
  destruct (Z.eqb_spec (next_candidate k2) (esp_page k)) as [|_]; [done|].
  eexists. split; [reflexivity|]. unfold mark_running. msimpl.
  rewrite lookup_insert_eq, Hnext. done.
Qed.

Lemma unblock_then_yield_fifo_witness :
  (exists k',
     (do _ <- thread_unblock 0x3000; thread_yield) sample_kernel = Done tt k'
     /\ esp_page k' = 0x6000)
  /\ (exists k',
     (do _ <- thread_unblock 0x3000; thread_yield)
       (with_ready_list [] sample_kernel) = Done tt k'
     /\ esp_page k' = 0x3000).
Proof.
  split.
  - destruct (unblock_then_yield_fifo sample_kernel 0x3000
                (kthread 3 THREAD_BLOCKED "s2" 105)
                (kthread 1 THREAD_RUNNING "main" (-1)))
      as (k' & Hr & He & _).
    + split; [|split]; [vm_compute; congruence|reflexivity|reflexivity].
    + reflexivity.
    + split; [|split]; [vm_compute; congruence|reflexivity|reflexivity].
    + reflexivity.
    + reflexivity.
    + reflexivity.
    + intros a Ha. apply list_elem_of_singleton in Ha. subst a.
      exists (kthread 6 THREAD_READY "worker" (-1)).
      split; [|reflexivity].
      split; [|split]; [vm_compute; congruence|reflexivity|reflexivity].
    + exists k'. split; [exact Hr|exact He].
  - destruct (unblock_then_yield_fifo (with_ready_list [] sample_kernel) 0x3000
                (kthread 3 THREAD_BLOCKED "s2" 105)
                (kthread 1 THREAD_RUNNING "main" (-1)))
      as (k' & Hr & He & _).
    + split; [|split]; [vm_compute; congruence|reflexivity|reflexivity].
    + reflexivity.
    + split; [|split]; [vm_compute; congruence|reflexivity|reflexivity].
    + reflexivity.
    + reflexivity.
    + reflexivity.
    + intros a Ha. by apply elem_of_nil in Ha.
    + exists k'. split; [exact Hr|exact He].
Defined.

(* ===================================================================== *)
(** ** The sleeping queue *)
(* ===================================================================== *)

Lemma insert_by_elem w e l a : a ∈ insert_by w e l <-> a = e \/ a ∈ l.
Proof.
  induction l as [|x r IH]; cbn.
  - rewrite list_elem_of_singleton. split; [by left|]. intros [|H]; [done|].
    by apply elem_of_nil in H.
  - destruct (w e <? w x).
    + by rewrite elem_of_cons.
    + rewrite !elem_of_cons, IH. tauto.
Qed.

Lemma insert_by_NoDup w e l : e ∉ l -> NoDup l -> NoDup (insert_by w e l).
Proof.
  induction l as [|x r IH]; cbn; intros He Hnd.
  - apply NoDup_singleton.
  - destruct (w e <? w x); [by apply NoDup_cons|].
    apply NoDup_cons in Hnd as [Hx Hr]. apply not_elem_of_cons in He as [? ?].
    apply NoDup_cons. split; [|by apply IH].
    rewrite insert_by_elem. intros [|]; congruence.
Qed.

Lemma insert_by_sorted w e l :
  Sorted Z.le (map w l) -> Sorted Z.le (map w (insert_by w e l)).
Proof.
  induction l as [|x r IH]; cbn; intros Hs.
  - repeat constructor.
  - destruct (Z.ltb_spec (w e) (w x)) as [Hlt|Hge]; cbn.
    + constructor; [exact Hs|]. constructor. lia.
    + inversion Hs as [|? ? Hr Hhd]; subst. constructor; [by apply IH|].
      destruct r as [|y r']; cbn.
      * constructor. lia.
      * destruct (w e <? w y); cbn; constructor; [lia|].
        by inversion Hhd.
Qed.

Lemma insert_by_head w e x rest :
  w x <= w e -> exists rest', insert_by w e (x :: rest) = x :: rest'.
Proof.
  intros H. cbn. destruct (Z.ltb_spec (w e) (w x)); [lia|]. by eexists.
Qed.

Lemma list_insert_ordered_done k e l l' k' :
  list_insert_ordered wakeup_time_ticks_less_than e l k = Done l' k' ->
  k' = k /\ l' = insert_by (wake_of k) e l.
Proof.
  revert l' k'. induction l as [|x r IH]; intros l' k'.
  - cbn. unfold ret. intros H. by inversion H.
  - cbn [list_insert_ordered insert_by]. unfold wakeup_time_ticks_less_than.
    mstep. unfold wake_of.
    destruct (e =? NULL); msimpl; [done|].
    destruct (x =? NULL); msimpl; [done|].
    destruct (mem k !! e) as [te|]; [|done].
    destruct (mem k !! x) as [tx|]; [|done].
    destruct (wakeup_time_ticks te <? wakeup_time_ticks tx).
    + intros H. by inversion H.
    + destruct (list_insert_ordered _ e r k) as [r' k1| |] eqn:Hr; [|done|done].
      destruct (IH r' k1 eq_refl) as [-> ->].
      unfold wake_of. intros H. by inversion H.
Qed.

Lemma sorted_head_le (l : list Z) x y :
  Sorted Z.le (x :: l) -> y ∈ l -> x <= y.
Proof.
  intros Hs Hy. apply Sorted_StronglySorted in Hs; [|unfold Relations_1.Transitive; lia].
  inversion Hs as [|? ? _ Hall]; subst.
  rewrite Forall_forall in Hall. by apply Hall.
Qed.

Lemma sorted_app_l (l1 l2 : list Z) : Sorted Z.le (l1 ++ l2) -> Sorted Z.le l1.
Proof.
  induction l1 as [|x r IH]; cbn; intros Hs; [constructor|].
  inversion Hs as [|? ? Hr Hhd]; subst. constructor; [by apply IH|].
  destruct r; cbn in *; constructor. by inversion Hhd.
Qed.

Lemma sorted_app_r (l1 l2 : list Z) : Sorted Z.le (l1 ++ l2) -> Sorted Z.le l2.
Proof.
  induction l1 as [|x r IH]; cbn; intros Hs; [done|].
  inversion Hs; subst. by apply IH.
Qed.

Ltac nil_elem :=
  intros; match goal with H : _ ∈ [] |- _ => by apply elem_of_nil in H end.

Lemma same_frame_refl k : same_frame k k.
Proof. by repeat split. Qed.

Lemma same_frame_trans k1 k2 k3 :
  same_frame k1 k2 -> same_frame k2 k3 -> same_frame k1 k3.
Proof. unfold same_frame. intros H1 H2. intuition congruence. Qed.

Lemma thread_unblock_done_inv k t k' :
  thread_unblock t k = Done tt k' ->
  exists th, valid_thread k t th /\ status th = THREAD_BLOCKED
    /\ k' = with_mem (<[t := set_status THREAD_READY th]> (mem k))
              (with_ready_list (ready_list k ++ [t]) k).
Proof.
  intros H.
  assert (Hv : exists th, valid_thread k t th /\ status th = THREAD_BLOCKED).
  { revert H. unfold thread_unblock, is_thread. mstep.
    destruct (Z.eqb_spec t NULL) as [|Hn]; msimpl; [done|].
    destruct (mem k !! t) as [th|] eqn:Hl; msimpl; [|done].
    destruct (Z.eqb_spec (magic th) THREAD_MAGIC) as [Hm|]; msimpl; [|done].
    rewrite Hl.
    destruct (status_eqb (status th) THREAD_BLOCKED) eqn:Hs; msimpl; [|done].
    intros _. exists th. apply status_eqb_eq in Hs. by repeat split. }
  destruct Hv as (th & Hv & Hs). exists th. split; [done|]. split; [done|].
  rewrite (thread_unblock_blocked k t th Hv Hs) in H. by inversion H.
Qed.

(** What a sweep that returns has done: [drained] is the prefix of the
    queue it popped. *)
Lemma thread_wakeup_loop_done bound now : forall k k',
  thread_wakeup_loop bound now k = Done tt k' ->
  NoDup (sleeping_list k) ->
  exists drained,
    sleeping_list k = drained ++ sleeping_list k'
    /\ ready_list k' = ready_list k ++ drained
    /\ (forall a, a ∈ drained ->
          wake_of k a <= now
          /\ exists th, mem k' !! a = Some th
               /\ wakeup_time_ticks th = THREAD_NOT_SLEEPING
               /\ status th = THREAD_READY)
    /\ (forall a, a ∉ drained -> mem k' !! a = mem k !! a)
    /\ match sleeping_list k' with
       | [] => sleeping_list_min_wakeup_time_ticks k'
               = sleeping_list_min_wakeup_time_ticks k
       | a :: _ => now < wake_of k a /\ 0 < wake_of k a
                   /\ sleeping_list_min_wakeup_time_ticks k' = wake_of k a
       end
    /\ same_frame k k'.
Proof.
  induction bound as [|b IH]; intros k k' H Hnd; [done|].
  revert H. cbn [thread_wakeup_loop]. unfold bind at 1, gets at 1.
  destruct (sleeping_list k) as [|front rest] eqn:Hsl.
  { unfold ret. intros H. inversion H; subst k'. exists []. rewrite Hsl.
    repeat split; try done; try nil_elem. by rewrite app_nil_r. }
  mstep.
  destruct (front =? NULL); msimpl; [done|].
  destruct (mem k !! front) as [th|] eqn:Hl; msimpl; [|done].
  destruct (status_eqb (status th) THREAD_BLOCKED); msimpl; [|done].
  destruct (Z.ltb_spec 0 (wakeup_time_ticks th)) as [Hpos|]; msimpl; [|done].
  destruct (Z.ltb_spec now (wakeup_time_ticks th)) as [Hlt|Hge]; msimpl.
  { intros H. inversion H; subst k'. exists []. msimpl. rewrite Hsl.
    unfold wake_of. rewrite Hl.
    repeat split; try done; try nil_elem. by rewrite app_nil_r. }
  rewrite Hl.
  set (k2 := with_mem _ _).
  destruct (thread_unblock front k2) as [u k3| |] eqn:Hu; [|done|done].
  destruct u. intros H.
  destruct (thread_unblock_done_inv _ _ _ Hu) as (th2 & (_ & Hl2 & _) & _ & Hk3).
  subst k2. cbn -[lookup insert delete] in Hl2. rewrite lookup_insert_eq in Hl2.
  inversion Hl2; subst th2. clear Hl2.
  apply NoDup_cons in Hnd as [Hfr Hnd].
  destruct (IH k3 k' H) as (dr & Hs & Hr & Hdr & Hrest & Hmin & Hfrm).
  { by subst k3. }
  assert (Hsub : forall a, a ∈ dr -> a ∈ rest).
  { intros a Ha. replace rest with (sleeping_list k3) by (by subst k3).
    rewrite Hs. apply elem_of_app. by left. }
  assert (Hsub' : forall a, a ∈ sleeping_list k' -> a ∈ rest).
  { intros a Ha. replace rest with (sleeping_list k3) by (by subst k3).
    rewrite Hs. apply elem_of_app. by right. }
  assert (Hw3 : forall a, a <> front -> wake_of k3 a = wake_of k a).
  { intros a Ha. subst k3. unfold wake_of. msimpl.
    by rewrite !lookup_insert_ne. }
  exists (front :: dr). split; [|split; [|split; [|split; [|split]]]].
  - replace rest with (sleeping_list k3) by (by subst k3). by rewrite Hs.
  - rewrite Hr. subst k3. msimpl. by rewrite <- app_assoc.
  - intros a Ha. apply elem_of_cons in Ha as [->|Ha].
    + split; [unfold wake_of; by rewrite Hl|].
      rewrite Hrest by (intros Hin; apply Hfr; by apply Hsub).
      subst k3. msimpl. rewrite lookup_insert_eq. by eexists.
    + destruct (Hdr a Ha) as [Hle Hth]. split; [|done].
      rewrite <- Hw3; [done|]. intros ->. apply Hfr. by apply Hsub.
  - intros a Ha. apply not_elem_of_cons in Ha as [Hne Ha].
    rewrite Hrest by done. subst k3. msimpl. by rewrite !lookup_insert_ne.
  - destruct (sleeping_list k') as [|a r'] eqn:Hsl'.
    + rewrite Hmin. by subst k3.
    + rewrite <- Hw3; [|intros ->; apply Hfr, Hsub'; left].
      destruct Hmin as (? & ? & ->). by subst k3.
  - eapply same_frame_trans; [|exact Hfrm]. subst k3. by repeat split.
Qed.

(** A sweep over valid BLOCKED sleepers with positive wake ticks returns. *)
Lemma thread_wakeup_loop_total bound now : forall k,
  (length (sleeping_list k) < bound)%nat ->
  NoDup (sleeping_list k) ->
  (forall a, a ∈ sleeping_list k ->
     exists th, valid_thread k a th /\ status th = THREAD_BLOCKED
                /\ 0 < wakeup_time_ticks th) ->
  exists k', thread_wakeup_loop bound now k = Done tt k'.
Proof.
  induction bound as [|b IH]; intros k Hb Hnd Hok; [lia|].
  cbn [thread_wakeup_loop]. unfold bind at 1, gets at 1.
  destruct (sleeping_list k) as [|front rest] eqn:Hsl; [by eexists|].
  destruct (Hok front) as (th & Hv & Hs & Hpos); [left|].
  pose proof Hv as (Hn & Hl & Hm).
  mstep.
  destruct (Z.eqb_spec front NULL) as [|_]; [done|]. msimpl.
  rewrite Hl, Hs. msimpl.
  destruct (Z.ltb_spec 0 (wakeup_time_ticks th)) as [_|]; [|lia]. msimpl.
  destruct (now <? wakeup_time_ticks th); msimpl; [by eexists|].
  rewrite Hl.
  set (k2 := with_mem _ _).
  assert (Hv2 : valid_thread k2 front
                  (set_wakeup_time_ticks THREAD_NOT_SLEEPING th)).
  { split; [done|]. split; [|done]. subst k2. msimpl.
    by rewrite lookup_insert_eq. }
  rewrite (thread_unblock_blocked k2 front _ Hv2 Hs).
  apply NoDup_cons in Hnd as [Hfr Hnd].
  apply IH.
  - subst k2. msimpl. cbn in Hb. lia.
  - by subst k2.
  - intros a Ha. assert (Hin : a ∈ rest) by (subst k2; exact Ha).
    destruct (Hok a) as (ta & (Ha1 & Ha2 & Ha3) & Hsa & Hpa); [by right|].
    assert (a <> front) by (intros ->; done).
    exists ta. split; [|done]. split; [done|]. split; [|done].
    subst k2. msimpl. by rewrite !lookup_insert_ne.
Qed.

Lemma wake_of_agree k k' a :
  mem k' !! a = mem k !! a -> wake_of k' a = wake_of k a.
Proof. unfold wake_of. by intros ->. Qed.

Lemma sleep_queue_inv_ext k k' :
  sleeping_list k' = sleeping_list k ->
  sleeping_list_min_wakeup_time_ticks k' = sleeping_list_min_wakeup_time_ticks k ->
  (forall a, a ∈ sleeping_list k -> wake_of k' a = wake_of k a) ->
  sleep_queue_inv k -> sleep_queue_inv k'.
Proof.
  intros Hsl Hmin Hw (Hnd & Hpos & Hsort & Hiff & Hhd).
  unfold sleep_queue_inv, sleeping_sorted, min_cache_ok.
  rewrite Hsl, Hmin.
  split; [done|]. split; [|split; [|split]].
  - intros a Ha. rewrite Hw by done. by apply Hpos.
  - replace (map (wake_of k') (sleeping_list k))
      with (map (wake_of k) (sleeping_list k)); [done|].
    apply map_ext_in. intros a Ha. symmetry. apply Hw. by apply list_elem_of_In.
  - done.
  - intros a rest Ha. rewrite Hw by (rewrite Ha; left). by apply (Hhd a rest).
Qed.

(** What a call of [thread_wakeup] that returns has done. *)
Lemma thread_wakeup_done k k' :
  thread_wakeup k = Done tt k' ->
  sleep_queue_inv k ->
  sleep_queue_inv k'
  /\ exists drained,
       sleeping_list k = drained ++ sleeping_list k'
       /\ ready_list k' = ready_list k ++ drained
       /\ (forall a, a ∈ drained ->
             wake_of k a <= ticks k
             /\ exists th, mem k' !! a = Some th
                  /\ wakeup_time_ticks th = THREAD_NOT_SLEEPING
                  /\ status th = THREAD_READY)
       /\ (forall a, a ∈ sleeping_list k' -> ticks k < wake_of k' a)
       /\ Sorted Z.le (map (wake_of k) drained)
       /\ same_frame k k'.
Proof.
  intros H Hinv. pose proof Hinv as (Hnd & Hpos & Hsort & Hiff & Hhd).
  revert H. unfold thread_wakeup. mstep.
  destruct (negb (sleeping_list_min_wakeup_time_ticks k =? SLEEPING_QUEUE_EMPTY)
            || list_empty (sleeping_list k)); msimpl; [|done].
  destruct (Z.eqb_spec (sleeping_list_min_wakeup_time_ticks k)
              SLEEPING_QUEUE_EMPTY) as [He|He]; msimpl.
  { intros H. inversion H; subst k'. split; [done|]. exists [].
    apply Hiff in He. rewrite He.
    repeat split; try done; try nil_elem; try (by rewrite app_nil_r);
      constructor. }
  destruct (Z.ltb_spec (ticks k) (sleeping_list_min_wakeup_time_ticks k))
    as [Hlt|Hge]; msimpl.
  { intros H. inversion H; subst k'. split; [done|]. exists [].
    repeat split; try done; try nil_elem; try (by rewrite app_nil_r);
      try (by constructor).
    intros a Ha. unfold sleeping_sorted in Hsort.
    destruct (sleeping_list k) as [|x r] eqn:Hsl; [nil_elem|].
    rewrite (Hhd x r eq_refl) in Hlt.
    apply elem_of_cons in Ha as [->|Ha]; [done|].
    cbn in Hsort. pose proof (sorted_head_le _ _ (wake_of k a) Hsort) as Hle.
    assert (wake_of k a ∈ map (wake_of k) r).
    { apply list_elem_of_In, in_map. by apply list_elem_of_In. }
    specialize (Hle H0). lia. }
  set (k0 := with_level INTR_OFF k).
  destruct (thread_wakeup_loop _ (ticks k) k0) as [u k1| |] eqn:Hloop;
    [|done|done].
  destruct u.
  destruct (thread_wakeup_loop_done _ _ _ _ Hloop Hnd)
    as (dr & Hs & Hr & Hdr & Hrest & Hmin & Hfrm).
  change (sleeping_list k0) with (sleeping_list k) in Hs.
  change (ready_list k0) with (ready_list k) in Hr.
  change (mem k0) with (mem k) in Hrest.
  assert (Hnd' : NoDup (dr ++ sleeping_list k1)) by (by rewrite <- Hs).
  apply NoDup_app in Hnd' as (Hnd1 & Hdisj & Hnd2).
  assert (Hw1 : forall a, a ∈ sleeping_list k1 -> wake_of k1 a = wake_of k a).
  { intros a Ha. apply wake_of_agree, Hrest. intros Hin.
    by apply (Hdisj a). }
  assert (Hin1 : forall a, a ∈ sleeping_list k1 -> a ∈ sleeping_list k).
  { intros a Ha. rewrite Hs. apply elem_of_app. by right. }
  assert (Hsort1 : Sorted Z.le (map (wake_of k) (sleeping_list k1))).
  { unfold sleeping_sorted in Hsort. rewrite Hs, map_app in Hsort.
    by apply sorted_app_r in Hsort. }
  assert (Hsortd : Sorted Z.le (map (wake_of k) dr)).
  { unfold sleeping_sorted in Hsort. rewrite Hs, map_app in Hsort.
    by apply sorted_app_l in Hsort. }
  assert (Hdue : forall a, a ∈ sleeping_list k1 -> ticks k < wake_of k a).
  { intros a Ha. destruct (sleeping_list k1) as [|x r] eqn:Hsl1; [nil_elem|].
    destruct Hmin as (Hx & _ & _). change (wake_of k0 x) with (wake_of k x) in Hx.
    apply elem_of_cons in Ha as [->|Ha]; [done|].
    cbn in Hsort1. pose proof (sorted_head_le _ _ (wake_of k a) Hsort1) as Hle.
    assert (wake_of k a ∈ map (wake_of k) r).
    { apply list_elem_of_In, in_map. by apply list_elem_of_In. }
    specialize (Hle H). lia. }
  assert (Hfr : forall m,
            same_frame k (with_level (level k) k1)
            /\ same_frame k (with_level (level k) (with_min_wakeup m k1))).
  { intros m. unfold same_frame in *. subst k0. cbn in *. tauto. }
  assert (Hmap : map (wake_of k1) (sleeping_list k1)
                 = map (wake_of k) (sleeping_list k1)).
  { apply map_ext_in. intros a Ha. apply Hw1. by apply list_elem_of_In. }
  assert (Hdr' : forall a, a ∈ dr ->
            wake_of k a <= ticks k
            /\ exists th, mem k1 !! a = Some th
                 /\ wakeup_time_ticks th = THREAD_NOT_SLEEPING
                 /\ status th = THREAD_READY) by exact Hdr.
  destruct (sleeping_list k1) as [|x r] eqn:Hsl1; msimpl; intros H;
    inversion H; subst k'; clear H.
  - split.
    + unfold sleep_queue_inv, sleeping_sorted, min_cache_ok. msimpl.
      rewrite Hsl1. split; [constructor|]. split; [nil_elem|].
      split; [constructor|]. split; [done|]. intros a rest Ha. done.
    + exists dr. msimpl. rewrite Hsl1.
      split; [done|]. split; [done|]. split; [exact Hdr'|].
      split; [nil_elem|]. split; [done|]. apply Hfr.
  - destruct Hmin as (Hx1 & Hx2 & Hx3).
    change (wake_of k0 x) with (wake_of k x) in *.
    assert (Hwx : forall a, wake_of (with_level (level k) k1) a = wake_of k1 a)
      by done.
    split.
    + unfold sleep_queue_inv, sleeping_sorted, min_cache_ok. msimpl.
      rewrite Hsl1.
      split; [done|]. split; [|split; [|split]].
      * intros a Ha. rewrite Hwx, Hw1 by done. apply Hpos. by apply Hin1.
      * replace (map (wake_of (with_level (level k) k1)) (x :: r))
          with (map (wake_of k1) (x :: r)) by done.
        by rewrite Hmap.
      * rewrite Hx3. unfold SLEEPING_QUEUE_EMPTY. split; [lia|done].
      * intros a rest Ha. inversion Ha; subst a rest.
        rewrite Hwx, Hw1 by left. done.
    + exists dr. msimpl. rewrite Hsl1.
      split; [done|]. split; [done|]. split; [exact Hdr'|].
      split; [|split; [done|apply (Hfr 0)]].
      intros a Ha. rewrite Hwx, Hw1 by done. by apply Hdue.
Qed.

(** On a coherent queue of valid BLOCKED sleepers [thread_wakeup] returns. *)
Lemma thread_wakeup_total k :
  sleep_queue_inv k -> sleepers_blocked k ->
  exists k', thread_wakeup k = Done tt k'.
Proof.
  intros (Hnd & Hpos & Hsort & Hiff & Hhd) Hbl.
  unfold thread_wakeup. mstep.
  destruct (Z.eqb_spec (sleeping_list_min_wakeup_time_ticks k)
              SLEEPING_QUEUE_EMPTY) as [He|He]; msimpl.
  { apply Hiff in He. rewrite He. msimpl. by eexists. }
  destruct (ticks k <? sleeping_list_min_wakeup_time_ticks k); msimpl;
    [by eexists|].
  set (k0 := with_level INTR_OFF k).
  destruct (thread_wakeup_loop_total (S (length (sleeping_list k))) (ticks k) k0)
    as (k1 & Hk1).
  - subst k0. msimpl. lia.
  - done.
  - intros a Ha. destruct (Hbl a Ha) as (th & Hv & Hs).
    exists th. split; [done|]. split; [done|].
    specialize (Hpos a Ha). unfold wake_of in Hpos.
    destruct Hv as (_ & Hl & _). by rewrite Hl in Hpos.
  - rewrite Hk1. destruct (list_empty (sleeping_list k1)); msimpl; by eexists.
Qed.

(** C1.  Let the sleeping queue be coherent (sorted by wake tick, cache
    equal to the head's wake tick or to the sentinel when empty, positive
    wake ticks, no thread queued twice) and hold valid BLOCKED threads.
    Then [thread_wakeup] returns, and with [now] the tick count it read
    first: the queue splits into the drained prefix and the queue left
    behind; no thread left behind has a wake tick at or below [now]; every
    drained thread was due, has its wake tick reset to THREAD_NOT_SLEEPING
    and its status set to READY; and the drained threads were appended to
    the ready queue in ascending order of their wake ticks.  The running
    thread and the interrupt level are those of the caller. *)
Theorem thread_wakeup_spec (k : kernel) :
  sleep_queue_inv k ->
  sleepers_blocked k ->
  exists k' drained,
    thread_wakeup k = Done tt k'
    /\ sleeping_list k = drained ++ sleeping_list k'
    /\ (forall a, a ∈ sleeping_list k' -> ticks k < wake_of k' a)
    /\ (forall a, a ∈ drained ->
          wake_of k a <= ticks k
          /\ exists th, mem k' !! a = Some th
               /\ wakeup_time_ticks th = THREAD_NOT_SLEEPING
               /\ status th = THREAD_READY)
    /\ ready_list k' = ready_list k ++ drained
    /\ Sorted Z.le (map (wake_of k) drained)
    /\ esp_page k' = esp_page k
    /\ level k' = level k.
Proof.
  intros Hinv Hbl.
  destruct (thread_wakeup_total k Hinv Hbl) as (k' & Hk').
  destruct (thread_wakeup_done k k' Hk' Hinv)
    as (_ & dr & Hs & Hr & Hdr & Hleft & Hsort & Hfrm).
  exists k', dr. repeat (split; [done|]).
  unfold same_frame in Hfrm. tauto.
Qed.

Lemma sample_kernel_sleep_queue_inv : forall now,
  sleep_queue_inv (at_tick now sample_kernel).
Proof.
  intros now. split; [|split; [|split; [|split]]].
  - cbn. repeat (apply NoDup_cons; split;
                   [rewrite ?elem_of_cons, elem_of_nil; lia|]).
    apply NoDup_nil_2.
  - cbn. intros a Ha. repeat (apply elem_of_cons in Ha as [->|Ha]);
      [by vm_compute..|nil_elem].
  - unfold sleeping_sorted. cbn.
    change (Sorted Z.le [105; 110; 110]).
    repeat (apply Sorted_cons;
            [|first [apply HdRel_nil | apply HdRel_cons; lia]]).
    apply Sorted_nil.
  - cbn. split; intros H; discriminate H.
  - cbn. intros a rest Ha. by inversion Ha.
Qed.

Lemma sample_kernel_sleepers_blocked : forall now,
  sleepers_blocked (at_tick now sample_kernel).
Proof.
  intros now a Ha. cbn in Ha.
  repeat (apply elem_of_cons in Ha as [->|Ha]); [| | |nil_elem].
  - exists (kthread 3 THREAD_BLOCKED "s2" 105). split; [|done].
    split; [|split]; [vm_compute; congruence|reflexivity|reflexivity].
  - exists (kthread 4 THREAD_BLOCKED "s1" 110). split; [|done].
    split; [|split]; [vm_compute; congruence|reflexivity|reflexivity].
  - exists (kthread 5 THREAD_BLOCKED "s3" 110). split; [|done].
    split; [|split]; [vm_compute; congruence|reflexivity|reflexivity].
Qed.

Lemma thread_wakeup_spec_witness :
  exists k' drained,
    thread_wakeup (at_tick 107 sample_kernel) = Done tt k'
    /\ [0x3000; 0x4000; 0x5000] = drained ++ sleeping_list k'
    /\ (forall a, a ∈ sleeping_list k' -> 107 < wake_of k' a)
    /\ ready_list k' = [0x6000] ++ drained.
Proof.
  destruct (thread_wakeup_spec (at_tick 107 sample_kernel)
              (sample_kernel_sleep_queue_inv 107)
              (sample_kernel_sleepers_blocked 107))
    as (k' & dr & Hr & Hs & Hleft & _ & Hq & _).
  exists k', dr. split; [exact Hr|]. split; [exact Hs|].
  split; [exact Hleft|exact Hq].
Defined.

Lemma is_thread_done_inv k t b k' :
  is_thread t k = Done b k' ->
  k' = k /\ (b = true -> exists th, valid_thread k t th).
Proof.
  unfold is_thread. mstep.
  destruct (Z.eqb_spec t NULL) as [|Hn].
  { intros H. inversion H; subst. split; [done|]. intros; discriminate. }
  destruct (mem k !! t) as [th|] eqn:Hl; [|done].
  intros H. inversion H; subst. split; [done|]. intros Hm. exists th.
  split; [done|]. split; [done|]. by apply Z.eqb_eq.
Qed.

Lemma thread_current_done_inv k t k' :
  thread_current k = Done t k' ->
  k' = k /\ t = esp_page k
  /\ exists th, valid_thread k t th /\ status th = THREAD_RUNNING
       /\ wakeup_time_ticks th = THREAD_NOT_SLEEPING.
Proof.
  unfold thread_current.
  rewrite (bind_done running_thread _ k (esp_page k) k) by done.
  intros H. apply bind_done_inv in H as (b & k1 & Hb & H).
  apply is_thread_done_inv in Hb as [-> Hb].
  revert H. mstep. destruct b; msimpl; [|done].
  destruct (Hb eq_refl) as (th & Hv). pose proof Hv as (_ & Hl & _).
  rewrite Hl.
  destruct (status_eqb (status th) THREAD_RUNNING) eqn:Hs; msimpl; [|done].
  destruct (Z.eqb_spec (wakeup_time_ticks th) THREAD_NOT_SLEEPING) as [Hw|];
    [|done].
  intros H. inversion H. split; [done|]. split; [done|].
  exists th. apply status_eqb_eq in Hs. by subst.
Qed.

(** What an ordered insert that returns has done. *)
Lemma sleeping_queue_insert_ordered_done k t k' :
  sleeping_queue_insert_ordered t k = Done tt k' ->
  sleep_queue_inv k ->
  t ∉ sleeping_list k ->
  sleep_queue_inv k'
  /\ t ∈ sleeping_list k'
  /\ 0 < wake_of k' t
  /\ mem k' = mem k
  /\ ready_list k' = ready_list k
  /\ same_frame k k'.
Proof.
  intros H (Hnd & Hpos & Hsort & Hiff & Hhd) Hnotin.
  revert H. unfold sleeping_queue_insert_ordered. mstep.
  destruct (in_intr_context k); msimpl; [done|].
  destruct (level_eqb (level k) INTR_OFF); msimpl; [|done].
  destruct (t =? NULL); msimpl; [done|].
  destruct (mem k !! t) as [th|] eqn:Hl; msimpl; [|done].
  destruct (status_eqb (status th) THREAD_BLOCKED); msimpl; [|done].
  destruct (Z.ltb_spec 0 (wakeup_time_ticks th)) as [Hp|]; msimpl; [|done].
  destruct (negb (sleeping_list_min_wakeup_time_ticks k =? SLEEPING_QUEUE_EMPTY)
            || list_empty (sleeping_list k)); msimpl; [|done].
  assert (Hwt : wake_of k t = wakeup_time_ticks th)
    by (unfold wake_of; by rewrite Hl).
  destruct ((sleeping_list_min_wakeup_time_ticks k =? SLEEPING_QUEUE_EMPTY)
            || (wakeup_time_ticks th <=? sleeping_list_min_wakeup_time_ticks k))
    eqn:Hcond; msimpl.
  - (* new head *)
    intros H. inversion H; subst k'; clear H.
    set (k' := with_min_wakeup _ _).
    assert (Hw : forall a, wake_of k' a = wake_of k a) by done.
    split; [|split; [by left|]; split; [by rewrite Hw, Hwt|];
             split; [done|]; split; [done|]; by repeat split].
    unfold sleep_queue_inv, sleeping_sorted, min_cache_ok. subst k'. msimpl.
    unfold list_push_front.
    split; [by apply NoDup_cons|]. split; [|split; [|split]].
    + intros a Ha. rewrite Hw. apply elem_of_cons in Ha as [->|Ha];
        [by rewrite Hwt|by apply Hpos].
    + cbn [map]. change (wake_of (with_min_wakeup _ _) ) with (wake_of k).
      constructor; [exact Hsort|].
      destruct (sleeping_list k) as [|x r] eqn:Hsl; cbn; constructor.
      rewrite Hwt, <- (Hhd x r eq_refl).
      apply orb_true_iff in Hcond as [He|Hle].
      * apply Z.eqb_eq, Hiff in He. done.
      * by apply Z.leb_le.
    + unfold SLEEPING_QUEUE_EMPTY. split; [lia|done].
    + intros a rest Ha. inversion Ha; subst. by rewrite Hw, Hwt.
  - (* ordered insertion behind the head *)
    apply orb_false_iff in Hcond as [He Hgt].
    apply Z.eqb_neq in He. apply Z.leb_gt in Hgt.
    destruct (list_insert_ordered _ t (sleeping_list k) k)
      as [sl' k1| |] eqn:Hins; [|done|done].
    apply list_insert_ordered_done in Hins as [-> ->].
    intros H. inversion H; subst k'; clear H.
    set (k' := with_sleeping_list _ _).
    assert (Hw : forall a, wake_of k' a = wake_of k a) by done.
    split; [|split; [subst k'; msimpl; apply insert_by_elem; by left|];
             split; [by rewrite Hw, Hwt|];
             split; [done|]; split; [done|]; by repeat split].
    unfold sleep_queue_inv, sleeping_sorted, min_cache_ok. subst k'. msimpl.
    split; [by apply insert_by_NoDup|]. split; [|split; [|split]].
    + intros a Ha. rewrite Hw. apply insert_by_elem in Ha as [->|Ha];
        [by rewrite Hwt|by apply Hpos].
    + change (wake_of (with_sleeping_list _ _)) with (wake_of k).
      by apply insert_by_sorted.
    + split; [done|]. intros Hnil.
      assert (Hin : t ∈ insert_by (wake_of k) t (sleeping_list k))
        by (apply insert_by_elem; by left).
      rewrite Hnil in Hin. nil_elem.
    + intros a rest Ha. rewrite Hw.
      destruct (sleeping_list k) as [|x r] eqn:Hsl.
      { exfalso. apply He. by apply Hiff. }
      destruct (insert_by_head (wake_of k) t x r) as (r' & Hr').
      { rewrite <- (Hhd x r eq_refl), Hwt. lia. }
      rewrite Hr' in Ha. inversion Ha; subst. by apply (Hhd a r).
Qed.

(** A dispatch away from a thread that is not dying touches neither the
    sleeping queue nor any wake tick. *)
Lemma schedule_done_frame k k' c :
  schedule k = Done tt k' ->
  mem k !! esp_page k = Some c ->
  status c <> THREAD_DYING ->
  sleeping_list k' = sleeping_list k
  /\ sleeping_list_min_wakeup_time_ticks k'
     = sleeping_list_min_wakeup_time_ticks k
  /\ (forall a, wake_of k' a = wake_of k a).
Proof.
  intros H Hc Hs. revert H. unfold schedule.
  rewrite (bind_done running_thread _ k (esp_page k) k) by done.
  rewrite (bind_done _ _ _ _ _ (next_thread_to_run_result k)).
  set (k1 := with_ready_list _ k).
  mstep.
  destruct (level_eqb (level k) INTR_OFF) eqn:Hlv; msimpl; [|done].
  assert (Hlv' : level k = INTR_OFF) by (by destruct (level k)).
  change (mem k1) with (mem k). rewrite Hc.
  destruct (status_eqb (status c) THREAD_RUNNING); msimpl; [done|].
  destruct (is_thread (next_candidate k) k1) as [b k2| |] eqn:Hb; [|done|done].
  apply is_thread_done_inv in Hb as [-> Hb].
  destruct b; msimpl; [|done].
  destruct (Hb eq_refl) as (n & Hn1 & Hn2 & Hn3).
  assert (Hset : forall (m : gmap Z thread) x th a,
            m !! x = Some th ->
            match <[x := set_status THREAD_RUNNING th]> m !! a with
            | Some t0 => wakeup_time_ticks t0 | None => 0 end
            = match m !! a with
              | Some t0 => wakeup_time_ticks t0 | None => 0 end).
  { intros m x th a Hx. destruct (decide (x = a)) as [->|Hne].
    - by rewrite lookup_insert_eq, Hx.
    - by rewrite lookup_insert_ne. }
  destruct (Z.eqb_spec (esp_page k) (next_candidate k)) as [Heq|Hne]; msimpl.
  - rewrite (thread_schedule_tail_result k1 NULL c) by done.
    cbn [Z.eqb NULL]. intros H. inversion H; subst k'.
    split; [done|]. split; [done|]. intros a. unfold wake_of, mark_running.
    msimpl. by apply Hset.
  - unfold switch_threads. mstep.
    set (k2 := with_esp_page _ k1).
    rewrite (thread_schedule_tail_result k2 (esp_page k) n) by done.
    assert (Hm : mem (mark_running k2 n) !! esp_page k = Some c).
    { unfold mark_running. subst k2. msimpl. by rewrite lookup_insert_ne. }
    rewrite Hm. apply status_eqb_neq in Hs. rewrite Hs. msimpl.
    destruct (esp_page k =? NULL); intros H; inversion H; subst k';
      (split; [done|]; split; [done|]; intros a; unfold wake_of, mark_running;
       subst k2; msimpl; by apply Hset).
Qed.

(** What a call of [thread_sleep] that returns has done to the sleeping
    queue: nothing (deadline already past, or the idle thread), or the
    caller was inserted with its deadline as wake tick. *)
Lemma thread_sleep_done k deadline k' :
  thread_sleep deadline k = Done tt k' ->
  sleep_queue_inv k ->
  sleep_queue_inv k'
  /\ (sleeping_list k' = sleeping_list k
      \/ (esp_page k ∈ sleeping_list k'
          /\ wake_of k' (esp_page k) = deadline /\ 0 < deadline)).
Proof.
  intros H Hinv. revert H. unfold thread_sleep. mstep.
  destruct (0 <=? deadline); msimpl; [|done].
  destruct (deadline <? ticks k); msimpl.
  { intros H. inversion H; subst k'. split; [done|by left]. }
  destruct (thread_current k) as [t k1| |] eqn:Hcur; [|done|done].
  apply thread_current_done_inv in Hcur
    as (-> & -> & c & (Hn & Hl & Hm) & Hs & Hw).
  destruct (in_intr_context k) eqn:Hic; msimpl; [done|].
  destruct (Z.eqb_spec (esp_page k) (idle_thread k)) as [Hidle|Hidle]; msimpl.
  { intros H. inversion H; subst k'. split; [|by left].
    by apply (sleep_queue_inv_ext k). }
  rewrite Hl. msimpl. rewrite lookup_insert_eq. msimpl.
  set (k2 := with_mem _ _).
  assert (Hcur2 : mem k2 !! esp_page k
                  = Some (set_wakeup_time_ticks deadline
                            (set_status THREAD_BLOCKED c))).
  { subst k2. msimpl. by rewrite lookup_insert_eq. }
  assert (Hnotin : esp_page k ∉ sleeping_list k).
  { intros Hin. destruct Hinv as (_ & Hpos & _).
    specialize (Hpos _ Hin). unfold wake_of in Hpos. rewrite Hl, Hw in Hpos.
    unfold THREAD_NOT_SLEEPING in Hpos. lia. }
  assert (Hinv2 : sleep_queue_inv k2).
  { apply (sleep_queue_inv_ext k); try done.
    intros a Ha. apply wake_of_agree. subst k2. msimpl.
    rewrite !lookup_insert_ne; [done|intros <-; done..]. }
  destruct (sleeping_queue_insert_ordered (esp_page k) k2)
    as [u k3| |] eqn:Hins; [|done|done].
  destruct u.
  apply sleeping_queue_insert_ordered_done in Hins
    as (Hinv3 & Hin3 & Hpos3 & Hmem3 & _ & Hfrm3); [|done|done].
  destruct (schedule k3) as [u k4| |] eqn:Hsched; [|done|done]. destruct u.
  assert (He3 : esp_page k3 = esp_page k).
  { unfold same_frame in Hfrm3. subst k2. cbn in Hfrm3. tauto. }
  assert (Hcur3 : mem k3 !! esp_page k3
                  = Some (set_wakeup_time_ticks deadline
                            (set_status THREAD_BLOCKED c))).
  { by rewrite Hmem3, He3. }
  destruct (schedule_done_frame k3 k4 _ Hsched Hcur3) as (Hsl4 & Hmin4 & Hwk4);
    [done|].
  unfold after_schedule. mstep.
  intros H.
  assert (Hk' : sleeping_list k' = sleeping_list k4
                /\ sleeping_list_min_wakeup_time_ticks k'
                   = sleeping_list_min_wakeup_time_ticks k4
                /\ forall a, wake_of k' a = wake_of k4 a).
  { destruct (esp_page k4 =? esp_page k); inversion H; by subst k'. }
  destruct Hk' as (Hsl' & Hmin' & Hwk').
  assert (Hsl : sleeping_list k' = sleeping_list k3) by congruence.
  assert (Hmin : sleeping_list_min_wakeup_time_ticks k'
                 = sleeping_list_min_wakeup_time_ticks k3) by congruence.
  assert (Hwk : forall a, wake_of k' a = wake_of k3 a).
  { intros a. by rewrite Hwk', Hwk4. }
  split.
  - by apply (sleep_queue_inv_ext k3).
  - right. rewrite Hsl, Hwk. split; [done|].
    assert (Hd : wake_of k3 (esp_page k) = deadline).
    { unfold wake_of. rewrite <- He3 at 1. by rewrite Hcur3. }
    split; [done|]. by rewrite <- Hd.
Qed.

(** [thread_init] leaves an empty sleeping queue with the sentinel cached. *)
Lemma thread_init_done k k' :
  thread_init k = Done tt k' -> sleep_queue_inv k'.
Proof.
  unfold thread_init, init_thread, allocate_tid. mstep.
  destruct (level_eqb (level k) INTR_OFF); msimpl; [|done].
  destruct (esp_page k =? NULL); msimpl; [done|].
  change ((PRI_MIN <=? PRI_DEFAULT) && (PRI_DEFAULT <=? PRI_MAX)) with true.
  msimpl. rewrite lookup_insert_eq. msimpl.
  match goal with
  | |- context [(<[?a := ?x]> ?m) !! ?a] => rewrite (lookup_insert_eq m a x)
  end.
  intros H. inversion H; subst k'.
  unfold sleep_queue_inv, sleeping_sorted, min_cache_ok. msimpl.
  split; [constructor|]. split; [nil_elem|]. split; [constructor|].
  split; [done|]. intros a rest Ha. done.
Qed.

(** C2.  The invariant of the sleeping queue and its cached minimum (the
    queue is sorted ascending by wake tick; the cache is the sentinel -1
    if and only if the queue is empty, and the head's wake tick otherwise;
    with it, every entry has a positive wake tick and no thread is queued
    twice) holds after [thread_init], and every call of [thread_sleep],
    of its ordered insert [sleeping_queue_insert_ordered] on a thread that
    is not queued yet, and of [thread_wakeup] that returns from a state
    where it holds returns in a state where it holds. *)
Theorem sleep_queue_inv_preserved :
  (forall k k', thread_init k = Done tt k' -> sleep_queue_inv k')
  /\ (forall k deadline k',
        sleep_queue_inv k ->
        thread_sleep deadline k = Done tt k' ->
        sleep_queue_inv k')
  /\ (forall k t k',
        sleep_queue_inv k ->
        t ∉ sleeping_list k ->
        sleeping_queue_insert_ordered t k = Done tt k' ->
        sleep_queue_inv k')
  /\ (forall k k',
        sleep_queue_inv k ->
        thread_wakeup k = Done tt k' ->
        sleep_queue_inv k')
  /\ (forall k,
        sleep_queue_inv k ->
        Sorted Z.le (map (wake_of k) (sleeping_list k))
        /\ (sleeping_list_min_wakeup_time_ticks k = SLEEPING_QUEUE_EMPTY
            <-> sleeping_list k = [])
        /\ (forall a rest, sleeping_list k = a :: rest ->
              sleeping_list_min_wakeup_time_ticks k = wake_of k a)).
Proof.
  split; [exact thread_init_done|]. split; [|split; [|split]].
  - intros k d k' Hinv H. by destruct (thread_sleep_done k d k' H Hinv).
  - intros k t k' Hinv Ht H.
    by destruct (sleeping_queue_insert_ordered_done k t k' H Hinv Ht).
  - intros k k' Hinv H. by destruct (thread_wakeup_done k k' H Hinv).
  - intros k (_ & _ & Hsort & Hiff & Hhd). done.
Qed.

Lemma sleep_queue_inv_preserved_witness :
  (exists k', thread_sleep 107 sample_kernel = Done tt k'
              /\ sleeping_list k' = [0x3000; 0x1000; 0x4000; 0x5000]
              /\ sleep_queue_inv k')
  /\ (exists k', thread_wakeup (at_tick 105 sample_kernel) = Done tt k'
              /\ sleeping_list k' = [0x4000; 0x5000]
              /\ sleeping_list_min_wakeup_time_ticks k' = 110
              /\ sleep_queue_inv k').
Proof.
  destruct sleep_queue_inv_preserved as (_ & Hsleep & _ & Hwake & _).
  split.
  - destruct (thread_sleep 107 sample_kernel) as [u k'| |] eqn:Hr;
      [|by vm_compute in Hr..].
    destruct u. exists k'. split; [reflexivity|].
    split; [by (vm_compute in Hr; inversion Hr)|].
    apply (Hsleep sample_kernel 107 k');
      [exact (sample_kernel_sleep_queue_inv 100)|exact Hr].
  - destruct (thread_wakeup (at_tick 105 sample_kernel)) as [u k'| |] eqn:Hr;
      [|by vm_compute in Hr..].
    destruct u. exists k'. split; [reflexivity|].
    split; [by (vm_compute in Hr; inversion Hr)|].
    split; [by (vm_compute in Hr; inversion Hr)|].
    apply (Hwake (at_tick 105 sample_kernel) k');
      [exact (sample_kernel_sleep_queue_inv 105)|exact Hr].
Defined.

Lemma wakeup_time_ticks_less_than_result k a b ta tb :
  a <> NULL -> b <> NULL -> mem k !! a = Some ta -> mem k !! b = Some tb ->
  wakeup_time_ticks_less_than a b k
  = Done (wakeup_time_ticks ta <? wakeup_time_ticks tb) k.
Proof.
  intros Ha Hb Hla Hlb. unfold wakeup_time_ticks_less_than. mstep.
  destruct (Z.eqb_spec a NULL) as [|_]; [done|].
  destruct (Z.eqb_spec b NULL) as [|_]; [done|]. msimpl.
  by rewrite Hla, Hlb.
Qed.

Lemma list_insert_ordered_total k e te l :
  e <> NULL -> mem k !! e = Some te ->
  (forall x, x ∈ l -> x <> NULL /\ is_Some (mem k !! x)) ->
  exists l', list_insert_ordered wakeup_time_ticks_less_than e l k = Done l' k.
Proof.
  intros He Hle. induction l as [|x r IH]; intros Hl; [by eexists|].
  cbn [list_insert_ordered].
  destruct (Hl x) as (Hx & tx & Hlx); [left|].
  rewrite (bind_done _ _ _ _ _
             (wakeup_time_ticks_less_than_result k e x te tx He Hx Hle Hlx)).
  destruct (wakeup_time_ticks te <? wakeup_time_ticks tx); [by eexists|].
  destruct IH as (r' & Hr'). { intros y Hy. apply Hl. by right. }
  rewrite (bind_done _ _ _ _ _ Hr'). by eexists.
Qed.

Lemma sleeping_queue_insert_ordered_total k t th :
  in_intr_context k = false ->
  level k = INTR_OFF ->
  t <> NULL -> mem k !! t = Some th ->
  status th = THREAD_BLOCKED ->
  0 < wakeup_time_ticks th ->
  sleep_queue_inv k ->
  (forall x, x ∈ sleeping_list k -> x <> NULL /\ is_Some (mem k !! x)) ->
  exists k', sleeping_queue_insert_ordered t k = Done tt k'.
Proof.
  intros Hic Hlv Hn Hl Hs Hpos (_ & _ & _ & Hiff & _) Hall.
  unfold sleeping_queue_insert_ordered. mstep.
  rewrite Hic. msimpl. rewrite Hlv. msimpl.
  destruct (Z.eqb_spec t NULL) as [|_]; [done|]. msimpl.
  rewrite Hl, Hs. msimpl.
  destruct (Z.ltb_spec 0 (wakeup_time_ticks th)) as [_|]; [|lia]. msimpl.
  assert (Hassert : negb (sleeping_list_min_wakeup_time_ticks k
                          =? SLEEPING_QUEUE_EMPTY)
                    || list_empty (sleeping_list k) = true).
  { destruct (Z.eqb_spec (sleeping_list_min_wakeup_time_ticks k)
                SLEEPING_QUEUE_EMPTY) as [He|]; [|done].
    apply Hiff in He. by rewrite He. }
  rewrite Hassert. msimpl.
  destruct ((sleeping_list_min_wakeup_time_ticks k =? SLEEPING_QUEUE_EMPTY)
            || (wakeup_time_ticks th <=? sleeping_list_min_wakeup_time_ticks k));
    msimpl; [by eexists|].
  destruct (list_insert_ordered_total k t th (sleeping_list k) Hn Hl Hall)
    as (l' & Hl').
  rewrite Hl'. by eexists.
Qed.

(** C3, as stated, fails when the caller is the idle thread: with a
    deadline that is not past, [thread_sleep] returns, and the caller is
    not in the sleeping queue. *)
Lemma thread_sleep_idle_is_not_queued :
  0 <= 120
  /\ in_intr_context idle_running_kernel = false
  /\ wake_of idle_running_kernel (esp_page idle_running_kernel)
     = THREAD_NOT_SLEEPING
  /\ ~ (120 < ticks idle_running_kernel)
  /\ thread_sleep 120 idle_running_kernel
     = Done tt (with_level INTR_ON (with_level INTR_OFF idle_running_kernel))
  /\ esp_page idle_running_kernel
     ∉ sleeping_list
         (with_level INTR_ON (with_level INTR_OFF idle_running_kernel)).
Proof.
  split; [lia|]. split; [reflexivity|]. split; [reflexivity|].
  split; [cbn; lia|]. split; [reflexivity|].
  cbn. rewrite !elem_of_cons, elem_of_nil. lia.
Qed.

(** The off-by-one between the two assertions on the deadline: right
    after boot, at tick 0, [thread_sleep 0] passes the check
    [wakeup_time_ticks >= 0] and the past-deadline test, and halts in
    [sleeping_queue_insert_ordered]. *)
Lemma thread_sleep_zero_at_tick_zero :
  ticks boot_kernel = 0
  /\ thread_sleep 0 boot_kernel = Panic "t->wakeup_time_ticks > 0".
Proof. split; reflexivity. Qed.

(** C3, amended.  Let the caller be a valid running thread outside
    interrupt context whose wake field holds the sentinel, let the
    sleeping queue be coherent and hold valid BLOCKED threads, and, unless
    the caller is the idle thread, let the next thread to run be a valid
    thread other than the caller.  Then for a deadline that is not
    negative, the call with deadline 0 at tick 0 apart, [thread_sleep]
    trips no assertion.  It returns at once, in the state it was called
    in, when the deadline is before [timer_ticks ()]; it returns with the
    queues and the thread records as they were when the caller is the idle
    thread; otherwise the caller is BLOCKED in the sleeping queue with the
    deadline as its wake tick and the next thread runs.  In every case the
    queue invariant holds afterwards: all entries, the inserted one
    included, have a positive wake tick. *)
Theorem thread_sleep_spec (k : kernel) (c : thread) (deadline : Z) :
  valid_thread k (esp_page k) c ->
  status c = THREAD_RUNNING ->
  wakeup_time_ticks c = THREAD_NOT_SLEEPING ->
  in_intr_context k = false ->
  sleep_queue_inv k ->
  sleepers_blocked k ->
  (esp_page k <> idle_thread k ->
   next_candidate k <> esp_page k
   /\ exists n, valid_thread k (next_candidate k) n) ->
  0 <= deadline ->
  0 < deadline \/ 0 < ticks k ->
  exists k',
    thread_sleep deadline k = Done tt k'
    /\ (deadline < ticks k -> k' = k)
    /\ (ticks k <= deadline -> esp_page k = idle_thread k ->
        sleeping_list k' = sleeping_list k /\ ready_list k' = ready_list k
        /\ mem k' = mem k /\ esp_page k' = esp_page k /\ level k' = level k)
    /\ (ticks k <= deadline -> esp_page k <> idle_thread k ->
        esp_page k ∈ sleeping_list k'
        /\ mem k' !! esp_page k
           = Some (set_wakeup_time_ticks deadline
                     (set_status THREAD_BLOCKED c))
        /\ esp_page k' = next_candidate k)
    /\ sleep_queue_inv k'
    /\ (forall a, a ∈ sleeping_list k' -> 0 < wake_of k' a).
Proof.
  intros Hv Hs Hw Hic Hinv Hbl Hnext Hnneg Hnz.
  assert (Hex : exists k',
    thread_sleep deadline k = Done tt k'
    /\ (deadline < ticks k -> k' = k)
    /\ (ticks k <= deadline -> esp_page k = idle_thread k ->
        sleeping_list k' = sleeping_list k /\ ready_list k' = ready_list k
        /\ mem k' = mem k /\ esp_page k' = esp_page k /\ level k' = level k)
    /\ (ticks k <= deadline -> esp_page k <> idle_thread k ->
        esp_page k ∈ sleeping_list k'
        /\ mem k' !! esp_page k
           = Some (set_wakeup_time_ticks deadline
                     (set_status THREAD_BLOCKED c))
        /\ esp_page k' = next_candidate k)).
  2:{ destruct Hex as (k' & Hr & H1 & H2 & H3).
      destruct (thread_sleep_done k deadline k' Hr Hinv) as [Hinv' _].
      exists k'. split; [done|]. split; [done|]. split; [done|].
      split; [done|]. split; [done|]. by destruct Hinv' as (_ & ? & _). }
  unfold thread_sleep. mstep.
  destruct (Z.leb_spec 0 deadline) as [_|]; [|lia]. msimpl.
  destruct (Z.ltb_spec deadline (ticks k)) as [Hlt|Hge]; msimpl.
  { exists k. split; [done|]. split; [done|]. split; intros; lia. }
  assert (Hpos : 0 < deadline) by lia.
  rewrite (thread_current_ok k c Hv Hs Hw), Hic. msimpl.
  pose proof Hv as (Hn & Hl & Hm).
  destruct (Z.eqb_spec (esp_page k) (idle_thread k)) as [Hidle|Hidle]; msimpl.
  { eexists. split; [reflexivity|]. msimpl. split; [intros; lia|].
    split; [done|]. intros. done. }
  rewrite Hl. msimpl. rewrite lookup_insert_eq. msimpl.
  set (c' := set_wakeup_time_ticks deadline (set_status THREAD_BLOCKED c)).
  set (k2 := with_mem _ _).
  assert (Hcur2 : mem k2 !! esp_page k = Some c').
  { subst k2. msimpl. by rewrite lookup_insert_eq. }
  assert (Hnotin : esp_page k ∉ sleeping_list k).
  { intros Hin. destruct Hinv as (_ & Hp & _).
    specialize (Hp _ Hin). unfold wake_of in Hp. rewrite Hl, Hw in Hp.
    unfold THREAD_NOT_SLEEPING in Hp. lia. }
  assert (Hother : forall a, a <> esp_page k -> mem k2 !! a = mem k !! a).
  { intros a Ha. subst k2. msimpl. by rewrite !lookup_insert_ne. }
  assert (Hinv2 : sleep_queue_inv k2).
  { apply (sleep_queue_inv_ext k); try done.
    intros a Ha. apply wake_of_agree, Hother. by intros ->. }
  destruct (sleeping_queue_insert_ordered_total k2 (esp_page k) c')
    as (k3 & Hk3); try done.
  { intros x Hx. destruct (Hbl x Hx) as (tx & (Hx1 & Hx2 & _) & _).
    split; [done|]. rewrite Hother by (by intros ->). by eexists. }
  rewrite Hk3.
  destruct (sleeping_queue_insert_ordered_done _ _ _ Hk3 Hinv2 Hnotin)
    as (Hinv3 & Hin3 & Hpos3 & Hmem3 & Hrl3 & Hfrm3).
  assert (He3 : esp_page k3 = esp_page k
                /\ level k3 = INTR_OFF /\ idle_thread k3 = idle_thread k).
  { unfold same_frame in Hfrm3. subst k2. cbn in Hfrm3. tauto. }
  destruct He3 as (He3 & Hlv3 & Hid3).
  destruct (Hnext Hidle) as (Hnc & n & Hn1 & Hn2 & Hn3).
  assert (Hnc3 : next_candidate k3 = next_candidate k).
  { unfold next_candidate. by rewrite Hrl3, Hid3. }
  assert (Hvn3 : valid_thread k3 (next_candidate k3) n).
  { rewrite Hnc3. split; [done|]. split; [|done].
    by rewrite Hmem3, Hother. }
  assert (Hc3 : mem k3 !! esp_page k3 = Some c') by (by rewrite Hmem3, He3).
  assert (Hne3 : next_candidate k3 <> esp_page k3) by (by rewrite Hnc3, He3).
  rewrite (schedule_switch k3 c' n Hlv3 Hc3 ltac:(done) ltac:(done) Hvn3 Hne3).
  unfold after_schedule. mstep.
  destruct (Z.eqb_spec (next_candidate k3) (esp_page k)) as [Heq|_];
    [by rewrite Hnc3 in Heq|].
  eexists. split; [reflexivity|]. split; [intros; lia|].
  split; [intros; done|]. intros _ _.
  split; [exact Hin3|]. split; [|exact Hnc3].
  unfold mark_running. msimpl.
  rewrite lookup_insert_ne by (by rewrite Hnc3). by rewrite <- He3.
Qed.

Lemma thread_sleep_spec_witness :
  exists k',
    thread_sleep 107 sample_kernel = Done tt k'
    /\ 0x1000 ∈ sleeping_list k'
    /\ esp_page k' = 0x6000
    /\ (forall a, a ∈ sleeping_list k' -> 0 < wake_of k' a).
Proof.
  destruct (thread_sleep_spec sample_kernel
              (kthread 1 THREAD_RUNNING "main" (-1)) 107)
    as (k' & Hr & _ & _ & Hq & _ & Hp).
  - split; [|split]; [vm_compute; congruence|reflexivity|reflexivity].
  - reflexivity.
  - reflexivity.
  - reflexivity.
  - exact (sample_kernel_sleep_queue_inv 100).
  - exact (sample_kernel_sleepers_blocked 100).
  - intros _. split; [vm_compute; congruence|].
    exists (kthread 6 THREAD_READY "worker" (-1)).
    split; [|split]; [vm_compute; congruence|reflexivity|reflexivity].
  - lia.
  - left. lia.
  - destruct Hq as (Hin & _ & He); [cbn; lia|vm_compute; congruence|].
    exists k'. split; [exact Hr|]. split; [exact Hin|].
    split; [exact He|exact Hp].
Defined.

(* ===================================================================== *)
(** ** Thread creation and initialisation *)
(* ===================================================================== *)

Ltac rw_insert_eq :=
  match goal with
  | |- context [(<[?a := ?x]> ?m) !! ?a] => rewrite (lookup_insert_eq m a x)
  end.

Lemma palloc_get_page_result k p rest :
  free_pool k = p :: rest ->
  palloc_get_page k
  = Done p (with_mem (<[p := zero_thread]> (mem k)) (with_free_pool rest k)).
Proof. intros H. unfold palloc_get_page. mstep. by rewrite H. Qed.

Lemma init_thread_result k t nm prio :
  t <> NULL ->
  PRI_MIN <= prio <= PRI_MAX ->
  init_thread t nm prio k
  = Done tt
      (with_all_list (all_list k ++ [t])
         (with_mem
            (<[t := mk_thread 0 THREAD_BLOCKED (substring 0 15 nm) [] prio
                      THREAD_NOT_SLEEPING NULL THREAD_MAGIC]> (mem k)) k)).
Proof.
  intros Ht Hprio. unfold init_thread, list_push_back. munfold.
  cbn -[lookup insert delete Z.eqb Z.leb substring].
  destruct (Z.eqb_spec t NULL) as [|_]; [done|].
  destruct (Z.leb_spec PRI_MIN prio) as [_|]; [|lia].
  destruct (Z.leb_spec prio PRI_MAX) as [_|]; [|lia].
  cbn -[lookup insert delete substring]. destruct k; reflexivity.
Qed.

Lemma alloc_frame_result k t th fr :
  valid_thread k t th ->
  alloc_frame t fr k
  = Done tt (with_mem (<[t := set_stack (fr :: stack th) th]> (mem k)) k).
Proof.
  intros Hv. unfold alloc_frame.
  rewrite (bind_done _ _ _ _ _ (is_thread_true _ _ _ Hv)).
  destruct Hv as (_ & Hl & _). mstep. by rewrite Hl.
Qed.

Lemma thread_create_result k nm prio function aux p rest :
  function <> NULL ->
  PRI_MIN <= prio <= PRI_MAX ->
  free_pool k = p :: rest ->
  p <> NULL ->
  thread_create nm prio function aux k
  = Done (next_tid k)
      (with_ready_list (ready_list k ++ [p])
         (with_next_tid (wrap_int (next_tid k + 1))
            (with_all_list (all_list k ++ [p])
               (with_mem
                  (<[p := created_thread (next_tid k) nm prio function aux]>
                     (mem k))
                  (with_free_pool rest k))))).
Proof.
  intros Hf Hprio Hpool Hp. unfold thread_create.
  unfold bind at 1, ASSERT at 1.
  destruct (Z.eqb_spec function NULL) as [|_]; [done|].
  cbn [negb]. unfold ret at 1.
  rewrite (bind_done _ _ _ _ _ (palloc_get_page_result k p rest Hpool)).
  destruct (Z.eqb_spec p NULL) as [|_]; [done|].
  set (k1 := with_mem _ (with_free_pool rest k)).
  rewrite (bind_done _ _ _ _ _ (init_thread_result k1 p nm prio Hp Hprio)).
  set (th0 := mk_thread 0 THREAD_BLOCKED _ _ _ _ _ _).
  set (k2 := with_all_list _ _).
  assert (Hl2 : mem k2 !! p = Some th0).
  { subst k2 k1. cbn -[lookup insert]. by rewrite lookup_insert_eq. }
  rewrite (bind_done allocate_tid _ k2 (next_tid k)
             (with_next_tid (wrap_int (next_tid k + 1)) k2)) by done.
  set (k3 := with_next_tid _ k2).
  set (th1 := set_tid (next_tid k) th0).
  rewrite (bind_done (update p (set_tid (next_tid k))) _ k3 tt
             (with_mem (<[p := th1]> (mem k3)) k3)).
  2:{ unfold update, deref. munfold. change (mem k3) with (mem k2).
      by rewrite Hl2. }
  set (k4 := with_mem _ k3).
  rewrite (bind_done intr_disable _ k4 (level k) (with_level INTR_OFF k4))
    by done.
  set (k5 := with_level INTR_OFF k4).
  assert (Hv5 : valid_thread k5 p th1).
  { split; [done|]. split; [|done]. subst k5 k4. cbn -[lookup insert].
    by rewrite lookup_insert_eq. }
  rewrite (bind_done _ _ _ _ _ (alloc_frame_result k5 p th1 _ Hv5)).
  set (th2 := set_stack _ th1). set (k6 := with_mem _ k5).
  assert (Hv6 : valid_thread k6 p th2).
  { split; [done|]. split; [|done]. subst k6. cbn -[lookup insert].
    by rewrite lookup_insert_eq. }
  rewrite (bind_done _ _ _ _ _ (alloc_frame_result k6 p th2 _ Hv6)).
  set (th3 := set_stack _ th2). set (k7 := with_mem _ k6).
  assert (Hv7 : valid_thread k7 p th3).
  { split; [done|]. split; [|done]. subst k7. cbn -[lookup insert].
    by rewrite lookup_insert_eq. }
  rewrite (bind_done _ _ _ _ _ (alloc_frame_result k7 p th3 _ Hv7)).
  set (th4 := set_stack _ th3). set (k8 := with_mem _ k7).
  rewrite (bind_done (intr_set_level (level k)) _ k8 tt
             (with_level (level k) k8)) by done.
  set (k9 := with_level (level k) k8).
  assert (Hv9 : valid_thread k9 p th4).
  { split; [done|]. split; [|done]. subst k9 k8. cbn -[lookup insert].
    by rewrite lookup_insert_eq. }
  rewrite (bind_done _ _ _ _ _
             (thread_unblock_blocked k9 p th4 Hv9 eq_refl)).
  unfold ret. f_equal.
  subst k9 k8 k7 k6 k5 k4 k3 k2 k1. cbn -[lookup insert wrap_int].
  rewrite !insert_insert_eq.
  destruct k; reflexivity.
Qed.


(** X1.  With a page in the pool, a non-null function and a priority in
    [[PRI_MIN, PRI_MAX]], [thread_create] returns the tid it drew from the
    counter.  The page taken from the pool holds the new thread: READY,
    named by the first 15 bytes of the name, not sleeping, canary set,
    its stack primed with the three frames of its first dispatch.  The
    thread is appended to the registry and to the back of the ready
    queue; every other thread record, the sleeping queue, the running
    thread and the interrupt level are as before: the creator keeps the
    CPU. *)
Theorem thread_create_spec
  (k : kernel) (nm : string) (prio function aux p : Z) (rest : list Z) :
  function <> NULL ->
  PRI_MIN <= prio <= PRI_MAX ->
  free_pool k = p :: rest ->
  p <> NULL ->
  exists k',
    thread_create nm prio function aux k = Done (next_tid k) k'
    /\ mem k' !! p = Some (created_thread (next_tid k) nm prio function aux)
    /\ (forall a, a <> p -> mem k' !! a = mem k !! a)
    /\ ready_list k' = ready_list k ++ [p]
    /\ all_list k' = all_list k ++ [p]
    /\ free_pool k' = rest
    /\ next_tid k' = wrap_int (next_tid k + 1)
    /\ sleeping_list k' = sleeping_list k
    /\ sleeping_list_min_wakeup_time_ticks k'
       = sleeping_list_min_wakeup_time_ticks k
    /\ esp_page k' = esp_page k
    /\ level k' = level k
    /\ free_log k' = free_log k.
Proof.
  intros Hf Hprio Hpool Hp. eexists.
  split; [by apply thread_create_result|].
  cbn -[lookup insert]. split; [by rewrite lookup_insert_eq|].
  split; [|done]. intros a Ha. by rewrite lookup_insert_ne.
Qed.

Lemma thread_create_spec_witness :
  exists k',
    thread_create "a-name-of-more-than-15-bytes" 40 0x8048000 7 sample_kernel
    = Done 7 k'
    /\ mem k' !! 0x7000
       = Some (created_thread 7 "a-name-of-more-" 40 0x8048000 7)
    /\ ready_list k' = [0x6000; 0x7000]
    /\ free_pool k' = [0x8000]
    /\ esp_page k' = 0x1000.
Proof.
  destruct (thread_create_spec sample_kernel "a-name-of-more-than-15-bytes"
              40 0x8048000 7 0x7000 [0x8000])
    as (k' & Hr & Hm & _ & Hq & _ & Hp & _ & _ & _ & He & _).
  - vm_compute. congruence.
  - unfold PRI_MIN, PRI_MAX. lia.
  - reflexivity.
  - vm_compute. congruence.
  - exists k'. split; [exact Hr|]. split; [exact Hm|].
    split; [exact Hq|]. split; [exact Hp|exact He].
Defined.

Lemma wrap_int_succ n : tid_can_increment n -> wrap_int (n + 1) = n + 1.
Proof.
  unfold tid_can_increment, wrap_int, wrap_signed. intros H.
  rewrite Z.mod_small; lia.
Qed.

(** X2.  Thread identifiers are handed out in increasing order: two
    creations in a row that find a page each return consecutive tids, the
    first the value of the counter, as long as the counter is below
    INT_MAX. *)
Theorem thread_create_consecutive_tids
  (k : kernel) (nm1 nm2 : string) (prio1 prio2 f1 f2 aux1 aux2 p1 p2 : Z)
  (rest : list Z) :
  f1 <> NULL -> f2 <> NULL ->
  PRI_MIN <= prio1 <= PRI_MAX -> PRI_MIN <= prio2 <= PRI_MAX ->
  free_pool k = p1 :: p2 :: rest ->
  p1 <> NULL -> p2 <> NULL ->
  tid_can_increment (next_tid k) ->
  exists k',
    (do tid1 <- thread_create nm1 prio1 f1 aux1;
     do tid2 <- thread_create nm2 prio2 f2 aux2;
     ret (tid1, tid2)) k
    = Done (next_tid k, next_tid k + 1) k'
    /\ ready_list k' = ready_list k ++ [p1; p2]
    /\ (tid <$> mem k' !! p2) = Some (next_tid k + 1)
    /\ (p1 <> p2 -> (tid <$> mem k' !! p1) = Some (next_tid k)).
Proof.
  intros Hf1 Hf2 Hpr1 Hpr2 Hpool Hp1 Hp2 Hn.
  rewrite (bind_done _ _ _ _ _
             (thread_create_result k nm1 prio1 f1 aux1 p1 (p2 :: rest)
                Hf1 Hpr1 Hpool Hp1)).
  set (k1 := with_ready_list _ _).
  rewrite (bind_done _ _ _ _ _
             (thread_create_result k1 nm2 prio2 f2 aux2 p2 rest
                Hf2 Hpr2 eq_refl Hp2)).
  subst k1. cbn -[lookup insert wrap_int]. rewrite (wrap_int_succ _ Hn).
  eexists. split; [reflexivity|]. cbn -[lookup insert wrap_int].
  split; [by rewrite <- app_assoc|].
  split; [by rewrite lookup_insert_eq|].
  intros Hne. rewrite lookup_insert_ne by done. by rewrite lookup_insert_eq.
Qed.

Lemma thread_create_consecutive_tids_witness :
  exists k',
    (do tid1 <- thread_create "a" 31 0x8048000 0;
     do tid2 <- thread_create "b" 31 0x8048100 0;
     ret (tid1, tid2)) sample_kernel
    = Done (7, 8) k'
    /\ ready_list k' = [0x6000; 0x7000; 0x8000].
Proof.
  destruct (thread_create_consecutive_tids sample_kernel "a" "b" 31 31
              0x8048000 0x8048100 0 0 0x7000 0x8000 [])
    as (k' & Hr & Hq & _).
  - vm_compute. congruence.
  - vm_compute. congruence.
  - unfold PRI_MIN, PRI_MAX. lia.
  - unfold PRI_MIN, PRI_MAX. lia.
  - reflexivity.
  - vm_compute. congruence.
  - vm_compute. congruence.
  - unfold tid_can_increment. cbn. lia.
  - exists k'. split; [exact Hr|exact Hq].
Defined.

(** X3.  The contract of [thread_create] is checked before anything is
    written: a null function halts the kernel on the first assertion;
    with a page in the pool, a priority outside [[PRI_MIN, PRI_MAX]]
    halts it in [init_thread]. *)
Theorem thread_create_contract
  (k : kernel) (nm : string) (prio function aux : Z) :
  (function = NULL ->
   thread_create nm prio function aux k = Panic "function != NULL")
  /\ (function <> NULL ->
      (exists p rest, free_pool k = p :: rest /\ p <> NULL) ->
      ~ (PRI_MIN <= prio <= PRI_MAX) ->
      thread_create nm prio function aux k
      = Panic "PRI_MIN <= priority && priority <= PRI_MAX").
Proof.
  split.
  - intros ->. reflexivity.
  - intros Hf (p & rest & Hpool & Hp) Hprio.
    unfold thread_create, palloc_get_page, init_thread.
    munfold. cbn -[lookup insert delete Z.eqb Z.leb].
    destruct (Z.eqb_spec function NULL) as [|_]; [done|].
    cbn -[lookup insert delete Z.eqb Z.leb]. rewrite Hpool.
    cbn -[lookup insert delete Z.eqb Z.leb].
    destruct (Z.eqb_spec p NULL) as [|_]; [done|].
    cbn -[lookup insert delete Z.eqb Z.leb].
    destruct (Z.leb_spec PRI_MIN prio); destruct (Z.leb_spec prio PRI_MAX);
      try reflexivity. lia.
Qed.

Lemma thread_create_contract_witness :
  thread_create "w" 64 0x8048000 0 sample_kernel
  = Panic "PRI_MIN <= priority && priority <= PRI_MAX".
Proof.
  destruct (thread_create_contract sample_kernel "w" 64 0x8048000 0)
    as [_ H].
  apply H.
  - vm_compute. congruence.
  - exists 0x7000, [0x8000]. split; [reflexivity|vm_compute; congruence].
  - unfold PRI_MIN, PRI_MAX. lia.
Defined.

Lemma thread_init_result k :
  level k = INTR_OFF ->
  esp_page k <> NULL ->
  thread_init k
  = Done tt
      (with_mem (<[esp_page k := main_thread (next_tid k)]> (mem k))
         (with_next_tid (wrap_int (next_tid k + 1))
            (with_all_list [esp_page k]
               (with_initial_thread (esp_page k)
                  (with_min_wakeup SLEEPING_QUEUE_EMPTY
                     (with_sleeping_list [] (with_ready_list [] k))))))).
Proof.
  intros Hlv Hn.
  destruct k as [up m fp fl rl sl mn al idl ini it kt ut tt0 nt esp lv ic yr tk].
  cbn in Hlv, Hn. subst lv.
  unfold thread_init, init_thread, allocate_tid, list_push_back.
  munfold. cbn -[lookup insert delete Z.eqb wrap_int].
  destruct (Z.eqb_spec esp NULL) as [|_]; [done|].
  cbn -[lookup insert delete Z.eqb wrap_int].
  repeat (rw_insert_eq; cbn -[lookup insert delete Z.eqb wrap_int]).
  rewrite !insert_insert_eq. reflexivity.
Qed.

(** X4.  Called with interrupts off, [thread_init] turns the code that
    is running into the initial thread: the queues are empty, the cached
    minimum is the sentinel, the registry holds the running thread alone,
    and that thread is RUNNING, named "main", of default priority, not
    sleeping, with the first tid.  From then on [thread_current] passes
    its checks, and [thread_tid], [thread_name] and [thread_get_priority]
    answer for the initial thread.  Called with interrupts on it halts. *)
Theorem thread_init_spec (k : kernel) :
  (level k = INTR_ON ->
   thread_init k = Panic "intr_get_level () == INTR_OFF")
  /\ (level k = INTR_OFF ->
      esp_page k <> NULL ->
      exists k',
        thread_init k = Done tt k'
        /\ ready_list k' = [] /\ sleeping_list k' = []
        /\ sleeping_list_min_wakeup_time_ticks k' = SLEEPING_QUEUE_EMPTY
        /\ all_list k' = [esp_page k]
        /\ initial_thread k' = esp_page k
        /\ mem k' !! esp_page k = Some (main_thread (next_tid k))
        /\ thread_current k' = Done (esp_page k) k'
        /\ thread_tid k' = Done (next_tid k) k'
        /\ thread_name k' = Done "main"%string k'
        /\ thread_get_priority k' = Done PRI_DEFAULT k'
        /\ level k' = INTR_OFF).
Proof.
  split.
  - intros Hlv. unfold thread_init. munfold. by rewrite Hlv.
  - intros Hlv Hn. eexists. split; [by apply thread_init_result|].
    set (k' := with_mem _ _).
    assert (Hm : mem k' !! esp_page k = Some (main_thread (next_tid k))).
    { subst k'. cbn -[lookup insert]. by rewrite lookup_insert_eq. }
    assert (Hc : thread_current k' = Done (esp_page k) k').
    { by apply (thread_current_ok k' (main_thread (next_tid k))). }
    repeat (split; [done|]).
    unfold thread_tid, thread_name, thread_get_priority.
    rewrite !(bind_done _ _ _ _ _ Hc). munfold. rewrite Hm.
    by repeat split.
Qed.

Lemma thread_init_spec_witness :
  exists k',
    thread_init (with_level INTR_OFF boot_kernel) = Done tt k'
    /\ all_list k' = [0x1000]
    /\ thread_tid k' = Done 3 k'.
Proof.
  destruct (thread_init_spec (with_level INTR_OFF boot_kernel)) as [_ H].
  destruct H as (k' & Hr & _ & _ & _ & Ha & _ & _ & _ & Ht & _).
  - reflexivity.
  - vm_compute. congruence.
  - exists k'. split; [exact Hr|]. split; [exact Ha|exact Ht].
Defined.

(** X5.  [thread_current] returns the running thread, leaving the state
    alone, exactly when the running thread's page holds a thread with
    the canary intact, in RUNNING state and not sleeping.  A clobbered
    canary (the sign of a stack overflow) halts the kernel on
    [is_thread], and a running thread whose status is not RUNNING halts
    it on the status check. *)
Theorem thread_current_spec (k : kernel) :
  (forall t k',
     thread_current k = Done t k' <->
     t = esp_page k /\ k' = k
     /\ exists th, valid_thread k (esp_page k) th
          /\ status th = THREAD_RUNNING
          /\ wakeup_time_ticks th = THREAD_NOT_SLEEPING)
  /\ (forall th, mem k !! esp_page k = Some th ->
        magic th <> THREAD_MAGIC ->
        thread_current k = Panic "is_thread (t)")
  /\ (forall th, valid_thread k (esp_page k) th ->
        status th <> THREAD_RUNNING ->
        thread_current k = Panic "t->status == THREAD_RUNNING").
Proof.
  split; [|split].
  - intros t k'. split.
    + intros H. apply thread_current_done_inv in H as (-> & -> & th & H).
      split; [done|]. split; [done|]. by exists th.
    + intros (-> & -> & th & Hv & Hs & Hw). by apply (thread_current_ok k th).
  - intros th Hl Hm. unfold thread_current, is_thread. munfold.
    destruct (esp_page k =? NULL); [done|].
    cbn -[lookup Z.eqb]. rewrite Hl.
    by destruct (Z.eqb_spec (magic th) THREAD_MAGIC).
  - intros th Hv Hs. unfold thread_current.
    rewrite (bind_done running_thread _ k (esp_page k) k) by done.
    rewrite (bind_done _ _ _ _ _ (is_thread_true _ _ _ Hv)).
    destruct Hv as (_ & Hl & _). munfold. cbn -[lookup Z.eqb]. rewrite Hl.
    apply status_eqb_neq in Hs. by rewrite Hs.
Qed.

Lemma thread_current_spec_witness :
  thread_current sample_kernel = Done 0x1000 sample_kernel
  /\ thread_current
       (with_mem (<[0x1000 := mk_thread 1 THREAD_RUNNING "main" [] 31 (-1) 0
                                 0xdeadbeef]> sample_mem) sample_kernel)
     = Panic "is_thread (t)".
Proof.
  destruct (thread_current_spec sample_kernel) as (Hiff & _ & _).
  split.
  - apply Hiff. split; [reflexivity|]. split; [reflexivity|].
    exists (kthread 1 THREAD_RUNNING "main" (-1)).
    split; [|split; reflexivity].
    split; [|split]; [vm_compute; congruence|reflexivity|reflexivity].
  - destruct (thread_current_spec
                (with_mem (<[0x1000 := mk_thread 1 THREAD_RUNNING "main" [] 31
                                         (-1) 0 0xdeadbeef]> sample_mem)
                   sample_kernel)) as (_ & Hmagic & _).
    apply (Hmagic (mk_thread 1 THREAD_RUNNING "main" [] 31 (-1) 0 0xdeadbeef)).
    + reflexivity.
    + vm_compute. congruence.
Defined.

(* ===================================================================== *)
(** ** Counters, priorities and unblocking *)
(* ===================================================================== *)

(** X6.  [threads_ready] returns the length of the ready queue and gives
    back the very state it was called in.  With a coherent cache,
    [threads_sleeping] returns the length of the sleeping queue on both
    of its paths: 0 on the fast path, where the queue is empty, and the
    counted length otherwise, where it also gives back the state it was
    called in. *)
Theorem thread_counters_spec (k : kernel) :
  threads_ready k = Done (Z.of_nat (length (ready_list k))) k
  /\ (min_cache_ok k ->
      exists k',
        threads_sleeping k = Done (Z.of_nat (length (sleeping_list k))) k'
        /\ (sleeping_list k <> [] -> k' = k)).
Proof.
  split.
  - unfold threads_ready. mstep. unfold list_size. by destruct k.
  - intros (Hiff & _).
    destruct (Z.eq_dec (sleeping_list_min_wakeup_time_ticks k)
                SLEEPING_QUEUE_EMPTY) as [He|He].
    + rewrite (threads_sleeping_empty k He). apply Hiff in He.
      rewrite He. by eexists.
    + rewrite (threads_sleeping_nonempty k He). eexists.
      split; [reflexivity|]. intros _. by destruct k.
Qed.

Lemma thread_counters_spec_witness :
  threads_sleeping sample_kernel = Done 3 sample_kernel.
Proof.
  destruct (thread_counters_spec sample_kernel) as [_ H].
  destruct H as (k' & Hr & Hk).
  - split; [split; intros H; discriminate H|].
    intros a rest H. by inversion H.
  - rewrite Hr. f_equal. apply Hk. discriminate.
Defined.

(** X7.  A priority written with [thread_set_priority] is the one
    [thread_get_priority] reads back, whatever its value: the setter does
    not check the range that [init_thread] asserts.  Setting the priority
    changes nothing else: the other fields of the running thread, the
    other threads and the order of the ready queue are as before. *)
Theorem thread_priority_round_trip (k : kernel) (th : thread) (p : Z) :
  valid_thread k (esp_page k) th ->
  status th = THREAD_RUNNING ->
  wakeup_time_ticks th = THREAD_NOT_SLEEPING ->
  exists k',
    (do _ <- thread_set_priority p; thread_get_priority) k = Done p k'
    /\ k' = with_mem (<[esp_page k := set_priority p th]> (mem k)) k
    /\ ready_list k' = ready_list k
    /\ esp_page k' = esp_page k.
Proof.
  intros Hv Hs Hw. pose proof Hv as (Hn & Hl & Hm).
  unfold thread_set_priority.
  unfold bind at 1. unfold bind at 1.
  rewrite (thread_current_ok k th Hv Hs Hw).
  munfold. rewrite Hl. cbn -[lookup insert].
  set (k' := with_mem _ _).
  assert (Hl' : mem k' !! esp_page k' = Some (set_priority p th)).
  { subst k'. cbn -[lookup insert]. by rewrite lookup_insert_eq. }
  unfold thread_get_priority.
  rewrite (bind_done _ _ _ _ _
             (thread_current_ok k' (set_priority p th)
                ltac:(by split) Hs Hw)).
  munfold. change (esp_page k') with (esp_page k) in *. rewrite Hl'.
  by eexists.
Qed.

Lemma thread_priority_round_trip_witness :
  exists k',
    (do _ <- thread_set_priority 1000; thread_get_priority) sample_kernel
    = Done 1000 k'
    /\ ready_list k' = [0x6000].
Proof.
  destruct (thread_priority_round_trip sample_kernel
              (kthread 1 THREAD_RUNNING "main" (-1)) 1000)
    as (k' & Hr & _ & Hq & _).
  - split; [|split]; [vm_compute; congruence|reflexivity|reflexivity].
  - reflexivity.
  - reflexivity.
  - exists k'. split; [exact Hr|exact Hq].
Defined.

(** X8.  A thread is made ready once: after [thread_unblock t] has moved
    a BLOCKED thread to the ready queue, a second [thread_unblock t]
    halts the kernel on the status assertion, so no call puts a thread
    on the ready queue twice. *)
Theorem thread_unblock_twice_halts (k : kernel) (t : Z) (th : thread) :
  valid_thread k t th ->
  status th = THREAD_BLOCKED ->
  (do _ <- thread_unblock t; thread_unblock t) k
  = Panic "t->status == THREAD_BLOCKED".
Proof.
  intros Hv Hs.
  rewrite (bind_done _ _ _ _ _ (thread_unblock_blocked k t th Hv Hs)).
  apply (thread_unblock_not_blocked _ t (set_status THREAD_READY th)); [|done].
  destruct Hv as (Hn & Hl & Hm). split; [done|]. split; [|done].
  cbn -[lookup insert]. by rewrite lookup_insert_eq.
Qed.

Lemma thread_unblock_twice_halts_witness :
  (do _ <- thread_unblock 0x3000; thread_unblock 0x3000) sample_kernel
  = Panic "t->status == THREAD_BLOCKED".
Proof.
  apply (thread_unblock_twice_halts sample_kernel 0x3000
           (kthread 3 THREAD_BLOCKED "s2" 105)).
  - split; [|split]; [vm_compute; congruence|reflexivity|reflexivity].
  - reflexivity.
Defined.

(* ===================================================================== *)
(** ** Round-robin dispatch *)
(* ===================================================================== *)

(** A dispatch that finds the running thread itself next to run. *)
Lemma schedule_no_switch k c :
  level k = INTR_OFF ->
  valid_thread k (esp_page k) c ->
  status c <> THREAD_RUNNING ->
  next_candidate k = esp_page k ->
  schedule k
  = Done tt (mark_running (with_ready_list (tail (ready_list k)) k) c).
Proof.
  intros Hlv Hv Hs Hnext. pose proof Hv as (Hn & Hl & Hm).
  rewrite (schedule_result k c c Hlv Hl Hs) by (by rewrite Hnext).
  rewrite Hnext, Z.eqb_refl.
  by rewrite (thread_schedule_tail_result
                (with_ready_list (tail (ready_list k)) k) NULL c Hlv Hl).
Qed.

Lemma thread_yield_switch k c n :
  valid_thread k (esp_page k) c ->
  status c = THREAD_RUNNING ->
  wakeup_time_ticks c = THREAD_NOT_SLEEPING ->
  in_intr_context k = false ->
  forall h r,
  ready_list k = h :: r ->
  valid_thread k h n ->
  h <> esp_page k ->
  thread_yield k
  = Done tt
      (with_thread_ticks 0
         (with_mem (<[h := set_status THREAD_RUNNING n]>
                      (<[esp_page k := set_status THREAD_READY c]> (mem k)))
            (with_esp_page h
               (with_ready_list
                  (r ++ (if esp_page k =? idle_thread k then []
                         else [esp_page k]))
                  (with_level INTR_OFF k))))).
Proof.
  intros Hv Hs Hw Hic h r Hrl (Hn1 & Hn2 & Hn3) Hne.
  rewrite (thread_yield_result k c Hv Hs Hw Hic).
  set (k2 := with_mem _ _).
  assert (Hnext : next_candidate k2 = h).
  { subst k2. unfold next_candidate. cbn -[lookup insert Z.eqb].
    rewrite Hrl. by destruct (esp_page k =? idle_thread k). }
  assert (Hc2 : mem k2 !! esp_page k2 = Some (set_status THREAD_READY c)).
  { subst k2. cbn -[lookup insert Z.eqb]. by rewrite lookup_insert_eq. }
  assert (Hv2 : valid_thread k2 (next_candidate k2) n).
  { rewrite Hnext. split; [done|]. split; [|done].
    subst k2. cbn -[lookup insert Z.eqb]. by rewrite lookup_insert_ne. }
  rewrite (bind_done _ _ _ _ _
             (schedule_switch k2 (set_status THREAD_READY c) n
                eq_refl Hc2 ltac:(done) ltac:(done) Hv2
                ltac:(by rewrite Hnext))).
  unfold after_schedule. munfold. rewrite Hnext.
  cbn -[lookup insert Z.eqb].
  destruct (Z.eqb_spec h (esp_page k)) as [|_]; [done|].
  unfold mark_running. subst k2. cbn -[lookup insert Z.eqb].
  rewrite Hrl.
  destruct (esp_page k =? idle_thread k); destruct k;
    cbn -[lookup insert]; by rewrite ?app_nil_r.
Qed.

(** X9.  Round robin, one step.  When a valid running thread yields and
    the ready queue is not empty, the front of the queue is dispatched
    (RUNNING, with a fresh time slice), the caller becomes READY at the
    back of the queue, and the rest of the queue keeps its order.  The
    idle thread is the exception the code makes: when it yields it is not
    put on the ready queue. *)
Theorem thread_yield_rotates (k : kernel) (c n : thread) (h : Z) (r : list Z) :
  valid_thread k (esp_page k) c ->
  status c = THREAD_RUNNING ->
  wakeup_time_ticks c = THREAD_NOT_SLEEPING ->
  in_intr_context k = false ->
  ready_list k = h :: r ->
  valid_thread k h n ->
  h <> esp_page k ->
  exists k',
    thread_yield k = Done tt k'
    /\ esp_page k' = h
    /\ (esp_page k <> idle_thread k -> ready_list k' = r ++ [esp_page k])
    /\ (esp_page k = idle_thread k -> ready_list k' = r)
    /\ mem k' !! h = Some (set_status THREAD_RUNNING n)
    /\ mem k' !! esp_page k = Some (set_status THREAD_READY c)
    /\ (forall a, a <> h -> a <> esp_page k -> mem k' !! a = mem k !! a)
    /\ thread_ticks k' = 0
    /\ sleeping_list k' = sleeping_list k.
Proof.
  intros Hv Hs Hw Hic Hrl Hvn Hne.
  rewrite (thread_yield_switch k c n Hv Hs Hw Hic h r Hrl Hvn Hne).
  eexists. split; [reflexivity|]. cbn -[lookup insert Z.eqb].
  split; [done|].
  split. { intros Hi. by destruct (Z.eqb_spec (esp_page k) (idle_thread k)). }
  split. { intros Hi. destruct (Z.eqb_spec (esp_page k) (idle_thread k));
             [by rewrite app_nil_r|done]. }
  split; [by rewrite lookup_insert_eq|].
  split; [rewrite lookup_insert_ne by done; by rewrite lookup_insert_eq|].
  split; [|done]. intros a H1 H2. by rewrite !lookup_insert_ne.
Qed.

Lemma thread_yield_rotates_witness :
  exists k',
    thread_yield (with_ready_list [0x6000; 0x2000] sample_kernel) = Done tt k'
    /\ esp_page k' = 0x6000
    /\ ready_list k' = [0x2000; 0x1000].
Proof.
  destruct (thread_yield_rotates
              (with_ready_list [0x6000; 0x2000] sample_kernel)
              (kthread 1 THREAD_RUNNING "main" (-1))
              (kthread 6 THREAD_READY "worker" (-1)) 0x6000 [0x2000])
    as (k' & Hr & He & Hq & _).
  - split; [|split]; [vm_compute; congruence|reflexivity|reflexivity].
  - reflexivity.
  - reflexivity.
  - reflexivity.
  - reflexivity.
  - split; [|split]; [vm_compute; congruence|reflexivity|reflexivity].
  - vm_compute. congruence.
  - exists k'. split; [exact Hr|]. split; [exact He|].
    apply Hq. vm_compute. congruence.
Defined.

(** A yield with an empty ready queue dispatches the caller again. *)
Lemma thread_yield_no_switch (k : kernel) (c : thread) :
  valid_thread k (esp_page k) c ->
  status c = THREAD_RUNNING ->
  wakeup_time_ticks c = THREAD_NOT_SLEEPING ->
  in_intr_context k = false ->
  ready_list k = [] ->
  thread_yield k = Done tt (with_thread_ticks 0 k).
Proof.
  intros Hv Hs Hw Hic Hrl. pose proof Hv as (Hn & Hl & Hm).
  rewrite (thread_yield_result k c Hv Hs Hw Hic).
  set (k2 := with_mem _ _).
  assert (Hnext : next_candidate k2 = esp_page k2).
  { subst k2. unfold next_candidate. cbn -[lookup insert Z.eqb]. rewrite Hrl.
    by destruct (Z.eqb_spec (esp_page k) (idle_thread k)). }
  assert (Hv2 : valid_thread k2 (esp_page k2) (set_status THREAD_READY c)).
  { split; [done|]. split; [|done].
    subst k2. cbn -[lookup insert Z.eqb]. by rewrite lookup_insert_eq. }
  rewrite (bind_done _ _ _ _ _
             (schedule_no_switch k2 _ eq_refl Hv2 ltac:(done) Hnext)).
  unfold after_schedule, mark_running. munfold. subst k2.
  cbn -[lookup insert Z.eqb]. rewrite Z.eqb_refl, insert_insert_eq.
  replace (set_status THREAD_RUNNING (set_status THREAD_READY c)) with c
    by (destruct c; cbn in *; by subst).
  rewrite (insert_id _ _ _ Hl), Hrl.
  destruct (esp_page k =? idle_thread k); destruct k; cbn in *; by subst.
Qed.

(** X10.  A thread that yields while no other thread is ready keeps the
    CPU, however often it yields: every [thread_yield] returns to it at
    once, and after one yield or more the state is the one the first was
    called in but for the time slice, which starts anew. *)
Theorem thread_yield_alone (k : kernel) (c : thread) (n : nat) :
  valid_thread k (esp_page k) c ->
  status c = THREAD_RUNNING ->
  wakeup_time_ticks c = THREAD_NOT_SLEEPING ->
  in_intr_context k = false ->
  ready_list k = [] ->
  repeat_call (S n) thread_yield k = Done tt (with_thread_ticks 0 k).
Proof.
  intros Hv Hs Hw Hic Hrl. revert k Hv Hic Hrl.
  induction n as [|n IH]; intros k Hv Hic Hrl.
  - cbn [repeat_call].
    by rewrite (bind_done _ _ _ _ _ (thread_yield_no_switch k c Hv Hs Hw Hic Hrl)).
  - change (repeat_call (S (S n)) thread_yield)
      with (do _ <- thread_yield; repeat_call (S n) thread_yield).
    rewrite (bind_done _ _ _ _ _ (thread_yield_no_switch k c Hv Hs Hw Hic Hrl)).
    by rewrite (IH (with_thread_ticks 0 k)).
Qed.

Lemma thread_yield_alone_witness :
  repeat_call 3 thread_yield
    (with_ready_list [] (with_thread_ticks 3 sample_kernel))
  = Done tt (with_thread_ticks 0
               (with_ready_list [] (with_thread_ticks 3 sample_kernel))).
Proof.
  apply (thread_yield_alone _ (kthread 1 THREAD_RUNNING "main" (-1)) 2).
  - split; [|split]; [vm_compute; congruence|reflexivity|reflexivity].
  - reflexivity.
  - reflexivity.
  - reflexivity.
  - reflexivity.
Defined.

Lemma iter_rot1_app (l1 l2 : list Z) :
  Nat.iter (length l1) rot1 (l1 ++ l2) = l2 ++ l1.
Proof.
  revert l2. induction l1 as [|x l1 IH]; intros l2.
  - cbn. by rewrite app_nil_r.
  - cbn [length]. rewrite Nat.iter_succ_r. cbn [app rot1].
    rewrite <- app_assoc, IH, <- app_assoc. done.
Qed.

Lemma thread_yield_step k :
  runnable_wf k ->
  exists k',
    thread_yield k = Done tt k'
    /\ esp_page k' :: ready_list k' = rot1 (esp_page k :: ready_list k)
    /\ runnable_wf k'.
Proof.
  intros (Hic & Hidle & (c & Hv & Hs & Hw) & Hnd & Hin & Hall).
  destruct (ready_list k) as [|h r] eqn:Hrl.
  - rewrite (thread_yield_no_switch k c Hv Hs Hw Hic Hrl).
    eexists. split; [reflexivity|]. cbn -[lookup]. rewrite Hrl.
    split; [done|]. unfold runnable_wf. cbn -[lookup]. rewrite Hrl.
    split; [done|]. split; [done|]. split; [by exists c|].
    split; [done|]. split; [done|]. intros a Ha. by apply elem_of_nil in Ha.
  - destruct (Hall h) as (n & Hvn & Hsn & Hwn); [left|].
    assert (Hne : h <> esp_page k).
    { intros ->. destruct Hv as (_ & H1 & _), Hvn as (_ & H2 & _). congruence. }
    rewrite (thread_yield_switch k c n Hv Hs Hw Hic h r Hrl Hvn Hne).
    destruct (Z.eqb_spec (esp_page k) (idle_thread k)) as [|_]; [done|].
    eexists. split; [reflexivity|]. cbn -[lookup insert].
    split; [done|].
    apply NoDup_cons in Hnd as [Hhr Hnd].
    assert (Hcr : esp_page k ∉ r).
    { intros Hc. destruct (Hall (esp_page k)) as (tc & (_ & H1 & _) & H2 & _);
        [by right|].
      destruct Hv as (_ & H3 & _). congruence. }
    unfold runnable_wf. cbn -[lookup insert].
    split; [done|].
    split. { intros ->. apply Hin. left. }
    split.
    { exists (set_status THREAD_RUNNING n). destruct Hvn as (H1 & H2 & H3).
      split; [|done]. split; [done|]. split; [|done].
      cbn -[lookup insert]. by rewrite lookup_insert_eq. }
    split.
    { apply NoDup_app. split; [done|]. split; [|apply NoDup_singleton].
      intros a Ha Ha'. apply list_elem_of_singleton in Ha'. by subst. }
    split.
    { intros Hc. apply elem_of_app in Hc as [Hc|Hc].
      - apply Hin. by right.
      - apply list_elem_of_singleton in Hc. done. }
    intros a Ha. apply elem_of_app in Ha as [Ha|Ha].
    + destruct (Hall a) as (ta & (H1 & H2 & H3) & H4 & H5); [by right|].
      exists ta. split; [|done]. split; [done|]. split; [|done].
      cbn -[lookup insert].
      rewrite !lookup_insert_ne; [done| |]; intros <-; done.
    + apply list_elem_of_singleton in Ha. subst a.
      exists (set_status THREAD_READY c). destruct Hv as (H1 & H2 & H3).
      split; [|done]. split; [done|]. split; [|done].
      cbn -[lookup insert].
      rewrite lookup_insert_ne by done. by rewrite lookup_insert_eq.
Qed.

(** X11.  Round-robin fairness.  From well-formed runnable threads, [n]
    yields in a row, each by the thread then running, all return; the
    running thread followed by the ready queue is the initial such list
    rotated [n] times, and the runnable threads are well formed again.
    After as many yields as there are runnable threads, every one has run
    once and the running thread and the ready queue are those of the
    start. *)
Theorem thread_yield_round_robin (k : kernel) (n : nat) :
  runnable_wf k ->
  exists k',
    repeat_call n thread_yield k = Done tt k'
    /\ esp_page k' :: ready_list k'
       = Nat.iter n rot1 (esp_page k :: ready_list k)
    /\ runnable_wf k'
    /\ (n = S (length (ready_list k)) ->
        esp_page k' = esp_page k /\ ready_list k' = ready_list k).
Proof.
  intros Hwf.
  assert (H : exists k',
             repeat_call n thread_yield k = Done tt k'
             /\ esp_page k' :: ready_list k'
                = Nat.iter n rot1 (esp_page k :: ready_list k)
             /\ runnable_wf k').
  { revert k Hwf. induction n as [|n IH]; intros k Hwf.
    - exists k. split; [reflexivity|]. split; [reflexivity|exact Hwf].
    - destruct (thread_yield_step k Hwf) as (k1 & Hr1 & Hq1 & Hwf1).
      destruct (IH k1 Hwf1) as (k' & Hr & Hq & Hwf').
      exists k'. cbn [repeat_call]. rewrite (bind_done _ _ _ _ _ Hr1).
      split; [exact Hr|]. split; [|exact Hwf'].
      by rewrite Hq, Hq1, Nat.iter_succ_r. }
  destruct H as (k' & Hr & Hq & Hwf'). exists k'.
  split; [exact Hr|]. split; [exact Hq|]. split; [exact Hwf'|].
  intros ->.
  change (S (length (ready_list k)))
    with (length (esp_page k :: ready_list k)) in Hq.
  rewrite <- (app_nil_r (esp_page k :: ready_list k)) in Hq at 2.
  rewrite iter_rot1_app in Hq. cbn in Hq. by inversion Hq.
Qed.

Lemma three_workers_wf : runnable_wf three_workers.
Proof.
  split; [reflexivity|]. split; [vm_compute; congruence|].
  split.
  { exists (kthread 1 THREAD_RUNNING "A" (-1)). split; [|done].
    split; [|split]; [vm_compute; congruence|reflexivity|reflexivity]. }
  split.
  { cbn. repeat (apply NoDup_cons; split;
                   [rewrite ?elem_of_cons, elem_of_nil; lia|]).
    apply NoDup_nil_2. }
  split. { cbn. rewrite !elem_of_cons, elem_of_nil. lia. }
  cbn. intros a Ha. repeat (apply elem_of_cons in Ha as [->|Ha]).
  - exists (kthread 3 THREAD_READY "B" (-1)). split; [|done].
    split; [|split]; [vm_compute; congruence|reflexivity|reflexivity].
  - exists (kthread 4 THREAD_READY "C" (-1)). split; [|done].
    split; [|split]; [vm_compute; congruence|reflexivity|reflexivity].
  - by apply elem_of_nil in Ha.
Qed.

Lemma thread_yield_round_robin_witness :
  (exists k', repeat_call 1 thread_yield three_workers = Done tt k'
              /\ esp_page k' :: ready_list k' = [0x3000; 0x4000; 0x1000])
  /\ (exists k', repeat_call 3 thread_yield three_workers = Done tt k'
              /\ esp_page k' = 0x1000 /\ ready_list k' = [0x3000; 0x4000]).
Proof.
  split.
  - destruct (thread_yield_round_robin three_workers 1 three_workers_wf)
      as (k' & Hr & Hq & _).
    exists k'. split; [exact Hr|exact Hq].
  - destruct (thread_yield_round_robin three_workers 3 three_workers_wf)
      as (k' & Hr & _ & _ & Hc).
    exists k'. split; [exact Hr|]. apply Hc. reflexivity.
Defined.

(* ===================================================================== *)
(** ** The time slice *)
(* ===================================================================== *)

Lemma thread_tick_step k th :
  valid_thread k (esp_page k) th ->
  status th = THREAD_RUNNING ->
  wakeup_time_ticks th = THREAD_NOT_SLEEPING ->
  can_increment (idle_ticks k) ->
  can_increment (user_ticks k) ->
  can_increment (kernel_ticks k) ->
  0 <= thread_ticks k < 2 ^ 32 - 1 ->
  exists k',
    thread_tick k = Done tt k'
    /\ mem k' = mem k /\ esp_page k' = esp_page k
    /\ ready_list k' = ready_list k
    /\ thread_ticks k' = thread_ticks k + 1
    /\ yield_on_return k'
       = (yield_on_return k || (TIME_SLICE <=? thread_ticks k + 1))
    /\ idle_ticks k <= idle_ticks k' <= idle_ticks k + 1
    /\ user_ticks k <= user_ticks k' <= user_ticks k + 1
    /\ kernel_ticks k <= kernel_ticks k' <= kernel_ticks k + 1
    /\ idle_ticks k' + user_ticks k' + kernel_ticks k'
       = idle_ticks k + user_ticks k + kernel_ticks k + 1.
Proof.
  intros Hv Hs Hw Hi Hu Hk Ht. unfold thread_tick.
  rewrite (bind_done _ _ _ _ _ (thread_current_ok k th Hv Hs Hw)).
  destruct Hv as (_ & Hl & _).
  assert (Hwrap : wrap_unsigned (thread_ticks k + 1) = thread_ticks k + 1).
  { unfold wrap_unsigned. rewrite Z.mod_small; lia. }
  mstep. rewrite Hl.
  destruct (esp_page k =? idle_thread k); msimpl;
    [|destruct (USERPROG k && negb (pagedir th =? NULL)); msimpl];
    (rewrite Hwrap;
     destruct (TIME_SLICE <=? thread_ticks k + 1) eqn:Hts;
     msimpl; eexists; (split; [reflexivity|]); msimpl;
     rewrite ?wrap_long_long_succ by assumption; rewrite ?Hwrap;
     repeat split; try reflexivity; try lia;
     by destruct (yield_on_return k)).
Qed.

Lemma thread_tick_steps (n : nat) : forall k th,
  valid_thread k (esp_page k) th ->
  status th = THREAD_RUNNING ->
  wakeup_time_ticks th = THREAD_NOT_SLEEPING ->
  - 2 ^ 63 <= idle_ticks k -> idle_ticks k + Z.of_nat n < 2 ^ 63 ->
  - 2 ^ 63 <= user_ticks k -> user_ticks k + Z.of_nat n < 2 ^ 63 ->
  - 2 ^ 63 <= kernel_ticks k -> kernel_ticks k + Z.of_nat n < 2 ^ 63 ->
  0 <= thread_ticks k -> thread_ticks k + Z.of_nat n < 2 ^ 32 ->
  exists k',
    repeat_call n thread_tick k = Done tt k'
    /\ mem k' = mem k /\ esp_page k' = esp_page k
    /\ ready_list k' = ready_list k
    /\ thread_ticks k' = thread_ticks k + Z.of_nat n
    /\ yield_on_return k'
       = (yield_on_return k
          || ((0 <? Z.of_nat n)
              && (TIME_SLICE <=? thread_ticks k + Z.of_nat n)))
    /\ idle_ticks k' + user_ticks k' + kernel_ticks k'
       = idle_ticks k + user_ticks k + kernel_ticks k + Z.of_nat n.
Proof.
  induction n as [|n IH]; intros k th Hv Hs Hw Hi1 Hi2 Hu1 Hu2 Hk1 Hk2 Ht1 Ht2.
  - exists k. cbn [repeat_call]. split; [reflexivity|].
    repeat split; try lia. cbn. by rewrite orb_false_r.
  - destruct (thread_tick_step k th Hv Hs Hw)
      as (k1 & Hr1 & Hm1 & He1 & Hq1 & Htt1 & Hy1 & Hib & Hub & Hkb & Hsum1);
      try (unfold can_increment; lia).
    destruct (IH k1 th) as (k' & Hr & Hm & He & Hq & Htt & Hy & Hsum);
      try lia; try done.
    { destruct Hv as (H1 & H2 & H3). split; [by rewrite He1|].
      split; [by rewrite Hm1, He1|done]. }
    exists k'. cbn [repeat_call]. rewrite (bind_done _ _ _ _ _ Hr1).
    split; [exact Hr|]. split; [congruence|]. split; [congruence|].
    split; [congruence|]. split; [lia|]. split; [|lia].
    rewrite Hy, Hy1, Htt1. unfold TIME_SLICE.
    destruct (yield_on_return k); [done|]. cbn [orb].
    destruct (Z.leb_spec 4 (thread_ticks k + 1));
      destruct (Z.ltb_spec 0 (Z.of_nat n));
      destruct (Z.leb_spec 4 (thread_ticks k + 1 + Z.of_nat n));
      destruct (Z.ltb_spec 0 (Z.of_nat (S n)));
      destruct (Z.leb_spec 4 (thread_ticks k + Z.of_nat (S n)));
      cbn; try reflexivity; lia.
Qed.

(** X12.  The time slice.  Let a valid thread start a fresh slice (slice
    counter 0, no yield requested).  After [n] timer ticks in a row the
    slice counter is [n], the yield-on-return flag is raised exactly when
    [n] has reached TIME_SLICE = 4, and each tick has been accounted to
    exactly one of the idle, user and kernel counters: their sum has
    grown by [n].  The thread still runs: ticks request the preemption,
    they never switch threads. *)
Theorem thread_tick_time_slice (k : kernel) (th : thread) (n : nat) :
  valid_thread k (esp_page k) th ->
  status th = THREAD_RUNNING ->
  wakeup_time_ticks th = THREAD_NOT_SLEEPING ->
  thread_ticks k = 0 ->
  yield_on_return k = false ->
  - 2 ^ 63 <= idle_ticks k /\ idle_ticks k + Z.of_nat n < 2 ^ 63 ->
  - 2 ^ 63 <= user_ticks k /\ user_ticks k + Z.of_nat n < 2 ^ 63 ->
  - 2 ^ 63 <= kernel_ticks k /\ kernel_ticks k + Z.of_nat n < 2 ^ 63 ->
  Z.of_nat n < 2 ^ 32 ->
  exists k',
    repeat_call n thread_tick k = Done tt k'
    /\ thread_ticks k' = Z.of_nat n
    /\ yield_on_return k' = (TIME_SLICE <=? Z.of_nat n)
    /\ idle_ticks k' + user_ticks k' + kernel_ticks k'
       = idle_ticks k + user_ticks k + kernel_ticks k + Z.of_nat n
    /\ esp_page k' = esp_page k
    /\ mem k' = mem k
    /\ ready_list k' = ready_list k.
Proof.
  intros Hv Hs Hw Ht Hy [Hi1 Hi2] [Hu1 Hu2] [Hk1 Hk2] Hn.
  destruct (thread_tick_steps n k th Hv Hs Hw)
    as (k' & Hr & Hm & He & Hq & Htt & Hy' & Hsum); try lia.
  exists k'. split; [exact Hr|]. rewrite Ht in Htt, Hy'. rewrite Hy in Hy'.
  split; [lia|]. split; [|done].
  rewrite Hy'. cbn [orb]. unfold TIME_SLICE.
  destruct (Z.ltb_spec 0 (Z.of_nat n)); destruct (Z.leb_spec 4 (0 + Z.of_nat n));
    destruct (Z.leb_spec 4 (Z.of_nat n)); cbn; try reflexivity; lia.
Qed.

Lemma thread_tick_time_slice_witness :
  (exists k', repeat_call 3 thread_tick sample_kernel = Done tt k'
              /\ thread_ticks k' = 3 /\ yield_on_return k' = false)
  /\ (exists k', repeat_call 4 thread_tick sample_kernel = Done tt k'
              /\ thread_ticks k' = 4 /\ yield_on_return k' = true).
Proof.
  split.
  - destruct (thread_tick_time_slice sample_kernel
                (kthread 1 THREAD_RUNNING "main" (-1)) 3)
      as (k' & Hr & Ht & Hy & _);
      [split; [|split]; [vm_compute; congruence|reflexivity|reflexivity]
      |reflexivity|reflexivity|reflexivity|reflexivity
      |cbn; lia|cbn; lia|cbn; lia|cbn; lia|].
    exists k'. split; [exact Hr|]. split; [exact Ht|exact Hy].
  - destruct (thread_tick_time_slice sample_kernel
                (kthread 1 THREAD_RUNNING "main" (-1)) 4)
      as (k' & Hr & Ht & Hy & _);
      [split; [|split]; [vm_compute; congruence|reflexivity|reflexivity]
      |reflexivity|reflexivity|reflexivity|reflexivity
      |cbn; lia|cbn; lia|cbn; lia|cbn; lia|].
    exists k'. split; [exact Hr|]. split; [exact Ht|exact Hy].
Defined.

(* ===================================================================== *)
(** ** Blocking and exiting *)
(* ===================================================================== *)

Lemma thread_block_result k c n :
  in_intr_context k = false ->
  level k = INTR_OFF ->
  valid_thread k (esp_page k) c ->
  status c = THREAD_RUNNING ->
  wakeup_time_ticks c = THREAD_NOT_SLEEPING ->
  valid_thread k (next_candidate k) n ->
  next_candidate k <> esp_page k ->
  thread_block k
  = Done tt
      (with_thread_ticks 0
         (with_mem (<[next_candidate k := set_status THREAD_RUNNING n]>
                      (<[esp_page k := set_status THREAD_BLOCKED c]> (mem k)))
            (with_esp_page (next_candidate k)
               (with_ready_list (tail (ready_list k)) k)))).
Proof.
  intros Hic Hlv Hv Hs Hw (Hn1 & Hn2 & Hn3) Hne.
  pose proof Hv as (Hc1 & Hc2 & Hc3).
  unfold thread_block. munfold. rewrite Hic. msimpl. rewrite Hlv. msimpl.
  rewrite (thread_current_ok k c Hv Hs Hw), Hc2. msimpl.
  set (k1 := with_mem _ k).
  assert (Hl1 : mem k1 !! esp_page k1 = Some (set_status THREAD_BLOCKED c)).
  { subst k1. cbn -[lookup insert]. by rewrite lookup_insert_eq. }
  assert (Hv1 : valid_thread k1 (next_candidate k1) n).
  { split; [done|]. split; [|done]. subst k1. cbn -[lookup insert].
    by rewrite lookup_insert_ne. }
  rewrite (schedule_switch k1 _ n Hlv Hl1 ltac:(done) ltac:(done) Hv1 Hne).
  unfold mark_running. subst k1. by destruct k.
Qed.

(** X13.  [thread_block], called with interrupts off by a valid running
    thread while another valid thread is next to run, marks the caller
    BLOCKED and dispatches that thread, RUNNING with a fresh time slice.
    The caller is left on no queue of the scheduler: the ready queue is
    the old one without its front, the sleeping queue is untouched.
    Called with interrupts on, or from interrupt context, it halts the
    kernel. *)
Theorem thread_block_spec (k : kernel) :
  (in_intr_context k = true -> thread_block k = Panic "!intr_context ()")
  /\ (in_intr_context k = false -> level k = INTR_ON ->
      thread_block k = Panic "intr_get_level () == INTR_OFF")
  /\ (forall c n,
        in_intr_context k = false ->
        level k = INTR_OFF ->
        valid_thread k (esp_page k) c ->
        status c = THREAD_RUNNING ->
        wakeup_time_ticks c = THREAD_NOT_SLEEPING ->
        valid_thread k (next_candidate k) n ->
        next_candidate k <> esp_page k ->
        exists k',
          thread_block k = Done tt k'
          /\ esp_page k' = next_candidate k
          /\ mem k' !! esp_page k = Some (set_status THREAD_BLOCKED c)
          /\ mem k' !! esp_page k' = Some (set_status THREAD_RUNNING n)
          /\ ready_list k' = tail (ready_list k)
          /\ sleeping_list k' = sleeping_list k
          /\ thread_ticks k' = 0).
Proof.
  split; [|split].
  - intros Hic. unfold thread_block. munfold. by rewrite Hic.
  - intros Hic Hlv. unfold thread_block. munfold. rewrite Hic. msimpl.
    by rewrite Hlv.
  - intros c n Hic Hlv Hv Hs Hw Hvn Hne.
    rewrite (thread_block_result k c n Hic Hlv Hv Hs Hw Hvn Hne).
    eexists. split; [reflexivity|]. cbn -[lookup insert].
    split; [done|].
    split; [rewrite lookup_insert_ne by done; by rewrite lookup_insert_eq|].
    split; [by rewrite lookup_insert_eq|done].
Qed.

Lemma thread_block_spec_witness :
  exists k',
    thread_block (with_level INTR_OFF sample_kernel) = Done tt k'
    /\ esp_page k' = 0x6000
    /\ ready_list k' = []
    /\ thread_block sample_kernel = Panic "intr_get_level () == INTR_OFF".
Proof.
  destruct (thread_block_spec (with_level INTR_OFF sample_kernel))
    as (_ & _ & H).
  destruct (H (kthread 1 THREAD_RUNNING "main" (-1))
              (kthread 6 THREAD_READY "worker" (-1)))
    as (k' & Hr & He & _ & _ & Hq & _).
  - reflexivity.
  - reflexivity.
  - split; [|split]; [vm_compute; congruence|reflexivity|reflexivity].
  - reflexivity.
  - reflexivity.
  - split; [|split]; [vm_compute; congruence|reflexivity|reflexivity].
  - vm_compute. congruence.
  - exists k'. split; [exact Hr|]. split; [exact He|]. split; [exact Hq|].
    destruct (thread_block_spec sample_kernel) as (_ & Hon & _).
    apply Hon; reflexivity.
Defined.

(** X14.  Blocking undone.  When the thread dispatched by a
    [thread_block] unblocks the thread that blocked, that thread is READY
    at the back of the ready queue, behind every thread that was ready
    before. *)
Theorem thread_block_then_unblock (k : kernel) (c n : thread) :
  in_intr_context k = false ->
  level k = INTR_OFF ->
  valid_thread k (esp_page k) c ->
  status c = THREAD_RUNNING ->
  wakeup_time_ticks c = THREAD_NOT_SLEEPING ->
  valid_thread k (next_candidate k) n ->
  next_candidate k <> esp_page k ->
  exists k',
    (do _ <- thread_block; thread_unblock (esp_page k)) k = Done tt k'
    /\ ready_list k' = tail (ready_list k) ++ [esp_page k]
    /\ mem k' !! esp_page k = Some (set_status THREAD_READY c)
    /\ esp_page k' = next_candidate k.
Proof.
  intros Hic Hlv Hv Hs Hw Hvn Hne. pose proof Hv as (Hc1 & Hc2 & Hc3).
  rewrite (bind_done _ _ _ _ _
             (thread_block_result k c n Hic Hlv Hv Hs Hw Hvn Hne)).
  set (k1 := with_thread_ticks _ _).
  assert (Hv1 : valid_thread k1 (esp_page k) (set_status THREAD_BLOCKED c)).
  { split; [done|]. split; [|done]. subst k1. cbn -[lookup insert].
    rewrite lookup_insert_ne by done. by rewrite lookup_insert_eq. }
  rewrite (thread_unblock_blocked k1 _ _ Hv1 eq_refl).
  eexists. split; [reflexivity|]. cbn -[lookup insert].
  split; [done|]. split; [|done]. by rewrite lookup_insert_eq.
Qed.

Lemma thread_block_then_unblock_witness :
  exists k',
    (do _ <- thread_block; thread_unblock 0x1000)
      (with_level INTR_OFF sample_kernel) = Done tt k'
    /\ ready_list k' = [0x1000]
    /\ esp_page k' = 0x6000.
Proof.
  destruct (thread_block_then_unblock (with_level INTR_OFF sample_kernel)
              (kthread 1 THREAD_RUNNING "main" (-1))
              (kthread 6 THREAD_READY "worker" (-1)))
    as (k' & Hr & Hq & _ & He).
  - reflexivity.
  - reflexivity.
  - split; [|split]; [vm_compute; congruence|reflexivity|reflexivity].
  - reflexivity.
  - reflexivity.
  - split; [|split]; [vm_compute; congruence|reflexivity|reflexivity].
  - vm_compute. congruence.
  - exists k'. split; [exact Hr|]. split; [exact Hq|exact He].
Defined.

Lemma list_remove_elem (l : list Z) (e a : Z) :
  a ∈ list_remove l e <-> a ∈ l /\ a <> e.
Proof. unfold list_remove. rewrite list_elem_of_filter. tauto. Qed.

(** X15.  [thread_exit], called outside interrupt context by a valid
    running thread while another valid thread is next to run, never
    returns to its caller: that next thread is dispatched.  The caller is
    taken off the registry of all threads, and the registry is otherwise
    as before.  Unless the caller is the initial thread, its page is
    freed by the thread dispatched and returned to the pool; the initial
    thread's page is kept, with the thread DYING in it.  And when the
    caller itself is next to run (the idle thread exiting while nobody is
    ready) the kernel halts at NOT_REACHED. *)
Theorem thread_exit_spec (k : kernel) (c : thread) :
  in_intr_context k = false ->
  valid_thread k (esp_page k) c ->
  status c = THREAD_RUNNING ->
  wakeup_time_ticks c = THREAD_NOT_SLEEPING ->
  (next_candidate k = esp_page k ->
   thread_exit k = Panic "NOT_REACHED ()")
  /\ (forall n,
        valid_thread k (next_candidate k) n ->
        next_candidate k <> esp_page k ->
        exists k',
          thread_exit k = Done tt k'
          /\ esp_page k' = next_candidate k
          /\ mem k' !! esp_page k' = Some (set_status THREAD_RUNNING n)
          /\ (forall a, a ∈ all_list k' <-> a ∈ all_list k /\ a <> esp_page k)
          /\ ready_list k' = tail (ready_list k)
          /\ (esp_page k <> initial_thread k ->
              mem k' !! esp_page k = None
              /\ free_log k' = esp_page k :: free_log k
              /\ free_pool k' = esp_page k :: free_pool k)
          /\ (esp_page k = initial_thread k ->
              mem k' !! esp_page k = Some (set_status THREAD_DYING c)
              /\ free_log k' = free_log k)).
Proof.
  intros Hic Hv Hs Hw. pose proof Hv as (Hc1 & Hc2 & Hc3).
  set (k0 := with_level INTR_OFF k).
  assert (Hcur0 : thread_current k0 = Done (esp_page k) k0)
    by (by apply (thread_current_ok k0 c)).
  set (k1 := with_all_list (list_remove (all_list k) (esp_page k)) k0).
  assert (Hcur1 : thread_current k1 = Done (esp_page k) k1)
    by (by apply (thread_current_ok k1 c)).
  set (k2 := with_mem (<[esp_page k := set_status THREAD_DYING c]> (mem k)) k1).
  assert (Hl2 : mem k2 !! esp_page k2 = Some (set_status THREAD_DYING c)).
  { subst k2. cbn -[lookup insert]. by rewrite lookup_insert_eq. }
  assert (Hstart : thread_exit k
                   = (do _ <- schedule;
                      after_schedule (esp_page k) (panic "NOT_REACHED ()")) k2).
  { unfold thread_exit, process_exit. munfold. rewrite Hic.
    cbn -[lookup insert thread_current schedule after_schedule list_remove].
    assert (Hup : forall b : bool,
              (if b then fun k0 : kernel => Done tt k0
               else fun k0 : kernel => Done tt k0)
              = fun k0 : kernel => Done tt k0) by (by intros []).
    rewrite Hup. fold k0. rewrite Hcur0.
    cbn -[lookup insert thread_current schedule after_schedule list_remove].
    fold k1. rewrite Hcur1.
    cbn -[lookup insert thread_current schedule after_schedule list_remove].
    subst k1 k0. cbn -[lookup insert schedule after_schedule list_remove].
    rewrite Hc2. reflexivity. }
  rewrite Hstart. split.
  - intros Hnext.
    assert (Hv2 : valid_thread k2 (esp_page k2) (set_status THREAD_DYING c))
      by (by split).
    rewrite (bind_done _ _ _ _ _
               (schedule_no_switch k2 _ eq_refl Hv2 ltac:(done) Hnext)).
    unfold after_schedule, mark_running. munfold.
    cbn -[lookup insert]. by rewrite Z.eqb_refl.
  - intros n (Hn1 & Hn2 & Hn3) Hne.
    assert (Hv2 : valid_thread k2 (next_candidate k2) n).
    { split; [done|]. split; [|done]. subst k2. cbn -[lookup insert].
      by rewrite lookup_insert_ne. }
    rewrite (bind_done schedule _ k2 tt
               (if esp_page k =? initial_thread k
                then mark_running
                       (with_esp_page (next_candidate k)
                          (with_ready_list (tail (ready_list k)) k2)) n
                else release_page (esp_page k)
                       (mark_running
                          (with_esp_page (next_candidate k)
                             (with_ready_list (tail (ready_list k)) k2)) n))).
    2:{ rewrite (schedule_result k2 _ n eq_refl Hl2 ltac:(done) Hv2).
        change (esp_page k2) with (esp_page k).
        change (next_candidate k2) with (next_candidate k).
        destruct (Z.eqb_spec (esp_page k) (next_candidate k)) as [|_];
          [done|].
        set (k3 := with_esp_page _ _).
        rewrite (thread_schedule_tail_result k3 (esp_page k) n eq_refl)
          by (subst k3 k2; cbn -[lookup insert];
              by rewrite lookup_insert_ne).
        assert (Hm3 : mem (mark_running k3 n) !! esp_page k
                      = Some (set_status THREAD_DYING c)).
        { unfold mark_running. subst k3 k2. cbn -[lookup insert].
          rewrite lookup_insert_ne by done. by rewrite lookup_insert_eq. }
        rewrite Hm3. cbn -[lookup insert Z.eqb].
        destruct (Z.eqb_spec (esp_page k) NULL) as [|_]; [done|].
        change (initial_thread k3) with (initial_thread k).
        change (esp_page k3) with (next_candidate k).
        destruct (Z.eqb_spec (esp_page k) (initial_thread k)) as [|_];
          [done|].
        cbn -[lookup insert Z.eqb].
        by destruct (Z.eqb_spec (esp_page k) (next_candidate k)). }
    unfold after_schedule. munfold.
    destruct (Z.eqb_spec (esp_page k) (initial_thread k)) as [Hi|Hi].
    + unfold mark_running. cbn -[lookup insert Z.eqb list_remove].
      destruct (Z.eqb_spec (next_candidate k) (esp_page k)) as [|_]; [done|].
      eexists. split; [reflexivity|]. cbn -[lookup insert list_remove].
      split; [done|]. split; [by rewrite lookup_insert_eq|].
      split; [intros a; apply list_remove_elem|]. split; [done|].
      split; [done|]. intros _. split; [|done].
      rewrite lookup_insert_ne by done. by rewrite lookup_insert_eq.
    + unfold mark_running, release_page.
      cbn -[lookup insert delete Z.eqb list_remove].
      destruct (Z.eqb_spec (next_candidate k) (esp_page k)) as [|_]; [done|].
      eexists. split; [reflexivity|]. cbn -[lookup insert delete list_remove].
      split; [done|].
      split; [rewrite lookup_delete_ne by done; by rewrite lookup_insert_eq|].
      split; [intros a; apply list_remove_elem|]. split; [done|].
      split; [|done]. intros _. split; [|done]. by rewrite lookup_delete_eq.
Qed.

Lemma thread_exit_spec_witness :
  (exists k',
     thread_exit (with_initial_thread 0x2000 sample_kernel) = Done tt k'
     /\ esp_page k' = 0x6000
     /\ mem k' !! 0x1000 = None
     /\ free_log k' = [0x1000])
  /\ thread_exit (with_ready_list [] (with_idle_thread 0x1000 sample_kernel))
     = Panic "NOT_REACHED ()".
Proof.
  split.
  - destruct (thread_exit_spec (with_initial_thread 0x2000 sample_kernel)
                (kthread 1 THREAD_RUNNING "main" (-1)))
      as (_ & H);
      [reflexivity
      |split; [|split]; [vm_compute; congruence|reflexivity|reflexivity]
      |reflexivity|reflexivity|].
    destruct (H (kthread 6 THREAD_READY "worker" (-1)))
      as (k' & Hr & He & _ & _ & _ & Hfree & _).
    + split; [|split]; [vm_compute; congruence|reflexivity|reflexivity].
    + vm_compute. congruence.
    + destruct Hfree as (Hm & Hf & _); [vm_compute; congruence|].
      exists k'. split; [exact Hr|]. split; [exact He|].
      split; [exact Hm|exact Hf].
  - destruct (thread_exit_spec
                (with_ready_list [] (with_idle_thread 0x1000 sample_kernel))
                (kthread 1 THREAD_RUNNING "main" (-1)))
      as (H & _);
      [reflexivity
      |split; [|split]; [vm_compute; congruence|reflexivity|reflexivity]
      |reflexivity|reflexivity|].
    apply H. reflexivity.
Defined.

(* ===================================================================== *)
(** ** Sleeping and waking *)
(* ===================================================================== *)

Lemma insert_by_split w e l :
  exists l1 l2,
    l = l1 ++ l2 /\ insert_by w e l = l1 ++ e :: l2
    /\ (forall a, a ∈ l1 -> w a <= w e)
    /\ match l2 with [] => True | x :: _ => w e < w x end.
Proof.
  induction l as [|x r IH]; cbn [insert_by].
  - exists [], []. repeat split; try done. intros a Ha. by apply elem_of_nil in Ha.
  - destruct (Z.ltb_spec (w e) (w x)) as [Hlt|Hge].
    + exists [], (x :: r). repeat split; try done.
      intros a Ha. by apply elem_of_nil in Ha.
    + destruct IH as (l1 & l2 & Hl & Hi & H1 & H2).
      exists (x :: l1), l2. cbn. rewrite Hi, Hl.
      split; [done|]. split; [done|]. split; [|done].
      intros a Ha. apply elem_of_cons in Ha as [->|Ha]; [lia|by apply H1].
Qed.

(** X16.  An ordered insert loses and reorders nothing: when
    [sleeping_queue_insert_ordered t] returns from a coherent queue, the
    new queue is the old one with [t] put in at one place; every sleeper
    in front of [t] wakes no later than [t] and every sleeper behind it
    no earlier.  The thread records are not touched. *)
Theorem sleeping_queue_insert_ordered_places
  (k : kernel) (t : Z) (k' : kernel) :
  sleep_queue_inv k ->
  sleeping_queue_insert_ordered t k = Done tt k' ->
  exists l1 l2,
    sleeping_list k = l1 ++ l2
    /\ sleeping_list k' = l1 ++ t :: l2
    /\ (forall a, a ∈ l1 -> wake_of k a <= wake_of k t)
    /\ (forall a, a ∈ l2 -> wake_of k t <= wake_of k a)
    /\ mem k' = mem k
    /\ ready_list k' = ready_list k.
Proof.
  intros (Hnd & Hpos & Hsort & Hiff & Hhd).
  unfold sleeping_queue_insert_ordered. mstep.
  destruct (in_intr_context k); msimpl; [done|].
  destruct (level_eqb (level k) INTR_OFF); msimpl; [|done].
  destruct (t =? NULL); msimpl; [done|].
  destruct (mem k !! t) as [th|] eqn:Hl; msimpl; [|done].
  destruct (status_eqb (status th) THREAD_BLOCKED); msimpl; [|done].
  destruct (Z.ltb_spec 0 (wakeup_time_ticks th)) as [Hp|]; msimpl; [|done].
  destruct (negb (sleeping_list_min_wakeup_time_ticks k =? SLEEPING_QUEUE_EMPTY)
            || list_empty (sleeping_list k)); msimpl; [|done].
  assert (Hwt : wake_of k t = wakeup_time_ticks th)
    by (unfold wake_of; by rewrite Hl).
  assert (Htail : forall x r a, sleeping_list k = x :: r -> a ∈ r ->
                                wake_of k x <= wake_of k a).
  { intros x r a Hsl Ha. unfold sleeping_sorted in Hsort.
    rewrite Hsl in Hsort. cbn in Hsort.
    apply (sorted_head_le _ _ _ Hsort).
    apply list_elem_of_In, in_map. by apply list_elem_of_In. }
  destruct ((sleeping_list_min_wakeup_time_ticks k =? SLEEPING_QUEUE_EMPTY)
            || (wakeup_time_ticks th <=? sleeping_list_min_wakeup_time_ticks k))
    eqn:Hcond; msimpl.
  - intros H. inversion H; subst k'; clear H. msimpl.
    exists [], (sleeping_list k). split; [done|]. split; [done|].
    split; [intros a Ha; by apply elem_of_nil in Ha|]. split; [|done].
    intros a Ha. destruct (sleeping_list k) as [|x r] eqn:Hsl;
      [by apply elem_of_nil in Ha|].
    apply orb_true_iff in Hcond as [He|Hle].
    { apply Z.eqb_eq, Hiff in He. done. }
    apply Z.leb_le in Hle. rewrite (Hhd x r eq_refl), <- Hwt in Hle.
    apply elem_of_cons in Ha as [->|Ha]; [done|].
    pose proof (Htail x r a eq_refl Ha). lia.
  - destruct (list_insert_ordered _ t (sleeping_list k) k)
      as [sl' k1| |] eqn:Hins; [|done|done].
    apply list_insert_ordered_done in Hins as [-> ->].
    intros H. inversion H; subst k'; clear H. msimpl.
    destruct (insert_by_split (wake_of k) t (sleeping_list k))
      as (l1 & l2 & Hsl & Hi & H1 & H2).
    exists l1, l2. split; [done|]. split; [done|]. split; [done|].
    split; [|done]. intros a Ha.
    destruct l2 as [|x r]; [by apply elem_of_nil in Ha|].
    apply elem_of_cons in Ha as [->|Ha]; [lia|].
    assert (wake_of k x <= wake_of k a); [|lia].
    unfold sleeping_sorted in Hsort. rewrite Hsl, map_app in Hsort.
    apply sorted_app_r in Hsort. cbn in Hsort.
    apply (sorted_head_le _ _ _ Hsort).
    apply list_elem_of_In, in_map. by apply list_elem_of_In.
Qed.

Lemma insert_kernel_inv : sleep_queue_inv insert_kernel.
Proof.
  apply (sleep_queue_inv_ext sample_kernel);
    [done|done| |exact (sample_kernel_sleep_queue_inv 100)].
  cbn. intros a Ha.
  repeat (apply elem_of_cons in Ha as [->|Ha]);
    [by vm_compute..|by apply elem_of_nil in Ha].
Qed.

Lemma sleeping_queue_insert_ordered_places_witness :
  exists k',
    sleeping_queue_insert_ordered 0x9000 insert_kernel = Done tt k'
    /\ sleeping_list k' = [0x3000; 0x9000; 0x4000; 0x5000].
Proof.
  destruct (sleeping_queue_insert_ordered 0x9000 insert_kernel)
    as [u k'| |] eqn:Hr; [|by vm_compute in Hr..].
  destruct u.
  destruct (sleeping_queue_insert_ordered_places insert_kernel 0x9000 k'
              insert_kernel_inv Hr) as (l1 & l2 & _ & _).
  exists k'. split; [reflexivity|]. by (vm_compute in Hr; inversion Hr).
Defined.

(** X17.  The gate of [thread_wakeup].  When no sleeper of a coherent
    queue is due, in particular when nobody sleeps, [thread_wakeup]
    returns in the very state it was called in: no queue, no thread
    record and no interrupt level is touched.  Hence a sweep that has
    returned leaves nothing to do: a second [thread_wakeup] at the same
    tick changes nothing. *)
Theorem thread_wakeup_nothing_due (k : kernel) :
  sleep_queue_inv k ->
  ((forall a, a ∈ sleeping_list k -> ticks k < wake_of k a) ->
   thread_wakeup k = Done tt k)
  /\ (forall k', thread_wakeup k = Done tt k' ->
                 thread_wakeup k' = Done tt k').
Proof.
  assert (Hgate : forall k0, sleep_queue_inv k0 ->
            (forall a, a ∈ sleeping_list k0 -> ticks k0 < wake_of k0 a) ->
            thread_wakeup k0 = Done tt k0).
  { intros k0 (_ & _ & _ & Hiff & Hhd) Hdue. unfold thread_wakeup. mstep.
    destruct (Z.eqb_spec (sleeping_list_min_wakeup_time_ticks k0)
                SLEEPING_QUEUE_EMPTY) as [He|He]; msimpl.
    { apply Hiff in He. by rewrite He. }
    destruct (sleeping_list k0) as [|x r] eqn:Hsl.
    { exfalso. apply He. by apply Hiff. }
    rewrite (Hhd x r eq_refl).
    destruct (Z.ltb_spec (ticks k0) (wake_of k0 x)) as [|Hge]; [done|].
    specialize (Hdue x ltac:(left)). lia. }
  intros Hinv. split; [by apply Hgate|].
  intros k' Hr.
  destruct (thread_wakeup_done k k' Hr Hinv)
    as (Hinv' & dr & _ & _ & _ & Hleft & _ & Hfrm).
  apply Hgate; [done|].
  assert (Ht : ticks k' = ticks k) by (unfold same_frame in Hfrm; tauto).
  rewrite Ht. exact Hleft.
Qed.

Lemma thread_wakeup_nothing_due_witness :
  thread_wakeup (at_tick 104 sample_kernel) = Done tt (at_tick 104 sample_kernel)
  /\ exists k', thread_wakeup (at_tick 110 sample_kernel) = Done tt k'
                /\ thread_wakeup k' = Done tt k'.
Proof.
  destruct (thread_wakeup_nothing_due (at_tick 104 sample_kernel)
              (sample_kernel_sleep_queue_inv 104)) as [H _].
  split.
  - apply H. cbn. intros a Ha.
    repeat (apply elem_of_cons in Ha as [->|Ha]);
      [by vm_compute..|by apply elem_of_nil in Ha].
  - destruct (thread_wakeup_nothing_due (at_tick 110 sample_kernel)
                (sample_kernel_sleep_queue_inv 110)) as [_ H2].
    destruct (thread_wakeup (at_tick 110 sample_kernel)) as [u k'| |] eqn:Hr;
      [|by vm_compute in Hr..].
    destruct u. exists k'. split; [reflexivity|]. by apply H2.
Defined.

(** A call of [thread_sleep] by a thread other than the idle thread, with
    a deadline that is not past, queues the caller. *)
Lemma thread_sleep_queued k deadline k' :
  thread_sleep deadline k = Done tt k' ->
  sleep_queue_inv k ->
  ticks k <= deadline ->
  esp_page k <> idle_thread k ->
  sleep_queue_inv k'
  /\ esp_page k ∈ sleeping_list k'
  /\ wake_of k' (esp_page k) = deadline.
Proof.
  intros H Hinv Hnow Hnidle. revert H. unfold thread_sleep. mstep.
  destruct (0 <=? deadline); msimpl; [|done].
  destruct (Z.ltb_spec deadline (ticks k)) as [|_]; [lia|]. msimpl.
  destruct (thread_current k) as [t k1| |] eqn:Hcur; [|done|done].
  apply thread_current_done_inv in Hcur
    as (-> & -> & c & (Hn & Hl & Hm) & Hs & Hw).
  destruct (in_intr_context k) eqn:Hic; msimpl; [done|].
  destruct (Z.eqb_spec (esp_page k) (idle_thread k)) as [|_]; [done|]. msimpl.
  rewrite Hl. msimpl. rewrite lookup_insert_eq. msimpl.
  set (c' := set_wakeup_time_ticks deadline (set_status THREAD_BLOCKED c)).
  set (k2 := with_mem _ _).
  assert (Hnotin : esp_page k ∉ sleeping_list k).
  { intros Hin. destruct Hinv as (_ & Hpos & _).
    specialize (Hpos _ Hin). unfold wake_of in Hpos. rewrite Hl, Hw in Hpos.
    unfold THREAD_NOT_SLEEPING in Hpos. lia. }
  assert (Hinv2 : sleep_queue_inv k2).
  { apply (sleep_queue_inv_ext k); try done.
    intros a Ha. apply wake_of_agree. subst k2. msimpl.
    rewrite !lookup_insert_ne; [done|intros <-; done..]. }
  destruct (sleeping_queue_insert_ordered (esp_page k) k2)
    as [u k3| |] eqn:Hins; [|done|done].
  destruct u.
  apply sleeping_queue_insert_ordered_done in Hins
    as (Hinv3 & Hin3 & Hpos3 & Hmem3 & _ & Hfrm3); [|done|done].
  destruct (schedule k3) as [u k4| |] eqn:Hsched; [|done|done]. destruct u.
  assert (He3 : esp_page k3 = esp_page k).
  { unfold same_frame in Hfrm3. subst k2. cbn in Hfrm3. tauto. }
  assert (Hcur3 : mem k3 !! esp_page k3 = Some c').
  { rewrite Hmem3, He3. subst k2. msimpl. by rewrite lookup_insert_eq. }
  destruct (schedule_done_frame k3 k4 _ Hsched Hcur3) as (Hsl4 & Hmin4 & Hwk4);
    [done|].
  unfold after_schedule. mstep.
  intros H.
  assert (Hk' : sleeping_list k' = sleeping_list k4
                /\ sleeping_list_min_wakeup_time_ticks k'
                   = sleeping_list_min_wakeup_time_ticks k4
                /\ forall a, wake_of k' a = wake_of k4 a).
  { destruct (esp_page k4 =? esp_page k); inversion H; by subst k'. }
  destruct Hk' as (Hsl' & Hmin' & Hwk').
  assert (Hsl : sleeping_list k' = sleeping_list k3) by congruence.
  assert (Hmin : sleeping_list_min_wakeup_time_ticks k'
                 = sleeping_list_min_wakeup_time_ticks k3) by congruence.
  assert (Hwk : forall a, wake_of k' a = wake_of k3 a).
  { intros a. by rewrite Hwk', Hwk4. }
  split; [by apply (sleep_queue_inv_ext k3)|].
  rewrite Hsl, Hwk. split; [done|].
  unfold wake_of. rewrite <- He3 at 1. by rewrite Hcur3.
Qed.

(** A sweep does not touch the record of a thread it leaves queued. *)
Lemma thread_wakeup_kept k k' :
  thread_wakeup k = Done tt k' ->
  NoDup (sleeping_list k) ->
  forall a, a ∈ sleeping_list k' -> mem k' !! a = mem k !! a.
Proof.
  intros H Hnd. revert H. unfold thread_wakeup. mstep.
  destruct (negb (sleeping_list_min_wakeup_time_ticks k =? SLEEPING_QUEUE_EMPTY)
            || list_empty (sleeping_list k)); msimpl; [|done].
  destruct ((sleeping_list_min_wakeup_time_ticks k =? SLEEPING_QUEUE_EMPTY)
            || (ticks k <? sleeping_list_min_wakeup_time_ticks k)); msimpl.
  { intros H. by inversion H. }
  set (k0 := with_level INTR_OFF k).
  destruct (thread_wakeup_loop _ (ticks k) k0) as [u k1| |] eqn:Hloop;
    [|done|done].
  destruct u.
  destruct (thread_wakeup_loop_done _ _ _ _ Hloop Hnd)
    as (dr & Hs & _ & _ & Hrest & _).
  change (sleeping_list k0) with (sleeping_list k) in Hs.
  change (mem k0) with (mem k) in Hrest.
  assert (Hnd' : NoDup (dr ++ sleeping_list k1)) by (by rewrite <- Hs).
  apply NoDup_app in Hnd' as (_ & Hdisj & _).
  assert (Hk : forall a, a ∈ sleeping_list k1 -> mem k1 !! a = mem k !! a).
  { intros a Ha. apply Hrest. intros Hin. by apply (Hdisj a). }
  destruct (list_empty (sleeping_list k1)); msimpl;
    intros H; inversion H; subst k'; exact Hk.
Qed.

(** X18.  Sleep and wake, end to end.  Let a thread other than the idle
    thread call [thread_sleep] with a deadline that is not past, and let
    [thread_wakeup] run once the timer shows tick [T].  If [T] is before
    the deadline the sleeper is still in the sleeping queue, its wake
    tick the deadline.  If [T] has reached the deadline the sleeper has
    left the sleeping queue and is on the ready queue, READY, its wake
    field reset to the sentinel.  No sleeper is woken early and none is
    missed. *)
Theorem thread_sleep_then_wakeup
  (k : kernel) (deadline : Z) (k1 : kernel) (T : Z) (k2 : kernel) :
  sleep_queue_inv k ->
  esp_page k <> idle_thread k ->
  ticks k <= deadline ->
  thread_sleep deadline k = Done tt k1 ->
  thread_wakeup (at_tick T k1) = Done tt k2 ->
  (T < deadline ->
   esp_page k ∈ sleeping_list k2 /\ wake_of k2 (esp_page k) = deadline)
  /\ (deadline <= T ->
      (esp_page k ∉ sleeping_list k2)
      /\ esp_page k ∈ ready_list k2
      /\ exists th, mem k2 !! esp_page k = Some th
           /\ status th = THREAD_READY
           /\ wakeup_time_ticks th = THREAD_NOT_SLEEPING).
Proof.
  intros Hinv Hnidle Hnow Hsleep Hwake.
  destruct (thread_sleep_queued k deadline k1 Hsleep Hinv Hnow Hnidle)
    as (Hinv1 & Hin1 & Hw1).
  assert (Hinv1' : sleep_queue_inv (at_tick T k1))
    by (by apply (sleep_queue_inv_ext k1)).
  destruct (thread_wakeup_done _ k2 Hwake Hinv1')
    as (Hinv2 & dr & Hs & Hr & Hdr & Hleft & _ & _).
  change (sleeping_list (at_tick T k1)) with (sleeping_list k1) in Hs.
  change (ready_list (at_tick T k1)) with (ready_list k1) in Hr.
  change (ticks (at_tick T k1)) with T in Hdr, Hleft.
  assert (Hkept : forall a, a ∈ sleeping_list k2 ->
                            wake_of k2 a = wake_of k1 a).
  { intros a Ha. apply wake_of_agree.
    apply (thread_wakeup_kept (at_tick T k1) k2 Hwake); [|done].
    by destruct Hinv1 as (? & _). }
  assert (Hnd : NoDup (dr ++ sleeping_list k2)).
  { rewrite <- Hs. by destruct Hinv1 as (? & _). }
  apply NoDup_app in Hnd as (_ & Hdisj & _).
  rewrite Hs in Hin1. apply elem_of_app in Hin1 as [Hin|Hin].
  - (* drained *)
    destruct (Hdr _ Hin) as (Hle & th & Hth & Hwk & Hst).
    change (wake_of (at_tick T k1) (esp_page k))
      with (wake_of k1 (esp_page k)) in Hle.
    split; [intros; lia|]. intros _.
    split; [by apply Hdisj|]. split; [|by exists th].
    rewrite Hr. apply elem_of_app. by right.
  - (* left behind *)
    specialize (Hleft _ Hin). rewrite (Hkept _ Hin) in Hleft.
    split; [|intros; lia]. intros _. split; [done|].
    by rewrite (Hkept _ Hin).
Qed.

Lemma thread_sleep_then_wakeup_witness :
  exists k1 k2 k3,
    thread_sleep 107 sample_kernel = Done tt k1
    /\ thread_wakeup (at_tick 106 k1) = Done tt k2
    /\ 0x1000 ∈ sleeping_list k2
    /\ thread_wakeup (at_tick 107 k1) = Done tt k3
    /\ 0x1000 ∈ ready_list k3.
Proof.
  destruct (thread_sleep 107 sample_kernel) as [u k1| |] eqn:H1;
    [|by vm_compute in H1..].
  destruct u.
  destruct (thread_wakeup (at_tick 106 k1)) as [u k2| |] eqn:H2;
    [|vm_compute in H1; inversion H1; subst k1; by vm_compute in H2..].
  destruct u.
  destruct (thread_wakeup (at_tick 107 k1)) as [u k3| |] eqn:H3;
    [|vm_compute in H1; inversion H1; subst k1; by vm_compute in H3..].
  destruct u.
  exists k1, k2, k3. split; [reflexivity|]. split; [exact H2|].
  destruct (thread_sleep_then_wakeup sample_kernel 107 k1 106 k2
              (sample_kernel_sleep_queue_inv 100)
              ltac:(vm_compute; congruence) ltac:(cbn; lia) H1 H2)
    as [Hearly _].
  destruct (thread_sleep_then_wakeup sample_kernel 107 k1 107 k3
              (sample_kernel_sleep_queue_inv 100)
              ltac:(vm_compute; congruence) ltac:(cbn; lia) H1 H3)
    as [_ Hdue].
  split; [apply Hearly; lia|]. split; [exact H3|].
  apply Hdue. lia.
Defined.

(* ===================================================================== *)
(** ** The scheduler invariant *)
(* ===================================================================== *)

Lemma sets_status_insert k k' t th' :
  mem k' = <[t := th']> (mem k) -> sets_status k k' t (Some (status th')).
Proof.
  intros Hm a. unfold status_of. rewrite Hm. case_decide as H.
  - subst a. by rewrite lookup_insert_eq.
  - by rewrite lookup_insert_ne.
Qed.

Lemma sets_status_delete k k' p :
  mem k' = delete p (mem k) -> sets_status k k' p None.
Proof.
  intros Hm a. unfold status_of. rewrite Hm. case_decide as H.
  - subst a. by rewrite lookup_delete_eq.
  - by rewrite lookup_delete_ne.
Qed.

Lemma status_of_lookup k a th :
  mem k !! a = Some th -> status_of k a = Some (status th).
Proof. unfold status_of. by intros ->. Qed.

(** A write that keeps the status of the record it replaces. *)
Lemma insert_same_status k k' t th th' :
  mem k !! t = Some th ->
  status th' = status th ->
  mem k' = <[t := th']> (mem k) ->
  forall a, status_of k' a = status_of k a.
Proof.
  intros Hl Hs Hm a. rewrite (sets_status_insert k k' t th' Hm a).
  case_decide as H; [|done]. subst a.
  by rewrite (status_of_lookup k t th Hl), Hs.
Qed.

(** The invariant reads the statuses, the running thread, the pool, the
    two queues and the idle thread only; the sleeping queue may lose
    members. *)
Lemma scheduler_inv_same_status k k' :
  (forall a, status_of k' a = status_of k a) ->
  esp_page k' = esp_page k ->
  free_pool k' = free_pool k ->
  ready_list k' = ready_list k ->
  idle_thread k' = idle_thread k ->
  NoDup (sleeping_list k') ->
  (forall a, a ∈ sleeping_list k' -> a ∈ sleeping_list k) ->
  scheduler_inv k -> scheduler_inv k'.
Proof.
  intros Hst He Hp Hr Hi Hnd Hsub
    ((Hrun & Huniq) & (Hpn & Hp0 & Hpf) & (Hrn & Hrs & Hsn & Hss & Hidle)).
  unfold scheduler_inv, one_running, pool_free, queues_wf.
  rewrite He, Hp, Hr, Hi.
  split; [split|split; [split; [|split]|split; [|split; [|split; [|split]]]]].
  - by rewrite Hst.
  - intros a. rewrite Hst. apply Huniq.
  - done.
  - done.
  - intros a Ha. rewrite Hst. by apply Hpf.
  - done.
  - intros a Ha. rewrite Hst. by apply Hrs.
  - done.
  - intros a Ha. rewrite Hst. by apply Hss, Hsub.
  - intros Hin. by apply Hidle, Hsub.
Qed.

Lemma scheduler_inv_ext k k' :
  mem k' = mem k -> esp_page k' = esp_page k -> free_pool k' = free_pool k ->
  ready_list k' = ready_list k -> sleeping_list k' = sleeping_list k ->
  idle_thread k' = idle_thread k ->
  scheduler_inv k -> scheduler_inv k'.
Proof.
  intros Hm He Hp Hr Hs Hi Hinv.
  apply (scheduler_inv_same_status k); try done.
  - intros a. unfold status_of. by rewrite Hm.
  - rewrite Hs. by destruct Hinv as (_ & _ & _ & _ & ? & _).
  - intros a. by rewrite Hs.
Qed.

(** The running thread is linked in no queue. *)
Lemma running_not_queued k :
  scheduler_inv k ->
  (esp_page k ∉ ready_list k) /\ (esp_page k ∉ sleeping_list k).
Proof.
  intros ((Hrun & _) & _ & (_ & Hrs & _ & Hss & _)).
  split; intros Hin.
  - specialize (Hrs _ Hin). congruence.
  - specialize (Hss _ Hin). congruence.
Qed.

(** A thread that is not running and is linked in no queue is made READY
    and appended to the ready queue. *)
Lemma enqueued_inv k k' t :
  scheduler_inv k ->
  status_of k t <> Some THREAD_RUNNING ->
  t ∉ ready_list k ->
  t ∉ sleeping_list k ->
  sets_status k k' t (Some THREAD_READY) ->
  esp_page k' = esp_page k ->
  ready_list k' = ready_list k ++ [t] ->
  sleeping_list k' = sleeping_list k ->
  idle_thread k' = idle_thread k ->
  NoDup (free_pool k') ->
  (forall a, a ∈ free_pool k' -> a ∈ free_pool k /\ a <> t) ->
  scheduler_inv k'.
Proof.
  intros ((Hrun & Huniq) & (Hpn & Hp0 & Hpf) & (Hrn & Hrs & Hsn & Hss & Hidle))
    Hnr Htr Hts Hst He Hr Hs Hi Hpn' Hpsub.
  assert (Hte : t <> esp_page k) by (intros ->; by apply Hnr).
  unfold scheduler_inv, one_running, pool_free, queues_wf.
  rewrite He, Hr, Hs, Hi.
  split; [split|split; [split; [|split]|split; [|split; [|split; [|split]]]]].
  - rewrite Hst. case_decide; [congruence|done].
  - intros a. rewrite Hst. case_decide; [discriminate|apply Huniq].
  - done.
  - intros Hin. by apply Hp0, Hpsub.
  - intros a Ha. destruct (Hpsub a Ha) as [Hin Hne]. rewrite Hst.
    case_decide; [done|]. by apply Hpf.
  - apply NoDup_app. split; [done|]. split; [|apply NoDup_singleton].
    intros a Ha Hin. apply list_elem_of_singleton in Hin. by subst a.
  - intros a Ha. rewrite Hst. case_decide; [done|].
    apply elem_of_app in Ha as [Ha|Ha]; [by apply Hrs|].
    by apply list_elem_of_singleton in Ha.
  - done.
  - intros a Ha. rewrite Hst. case_decide; [by subst a|]. by apply Hss.
  - done.
Qed.

(** The running thread gives up RUNNING for [s]; it may be put on the
    ready queue if [s] is READY, on the sleeping queue if [s] is BLOCKED
    and the thread is not the idle thread. *)
Lemma parked_intro k k2 s :
  scheduler_inv k ->
  s <> THREAD_RUNNING ->
  sets_status k k2 (esp_page k) (Some s) ->
  free_pool k2 = free_pool k ->
  idle_thread k2 = idle_thread k ->
  NoDup (ready_list k2) ->
  (forall a, a ∈ ready_list k2 ->
     a ∈ ready_list k \/ (a = esp_page k /\ s = THREAD_READY)) ->
  NoDup (sleeping_list k2) ->
  (forall a, a ∈ sleeping_list k2 ->
     a ∈ sleeping_list k
     \/ (a = esp_page k /\ s = THREAD_BLOCKED /\ esp_page k <> idle_thread k)) ->
  parked k2.
Proof.
  intros ((Hrun & Huniq) & (Hpn & Hp0 & Hpf) & (Hrn & Hrs & Hsn & Hss & Hidle))
    Hs Hst Hp Hi Hrn2 Hr2 Hsn2 Hs2.
  unfold parked, pool_free, queues_wf. rewrite Hp, Hi.
  split; [|split; [split; [|split]|split; [|split; [|split; [|split]]]]].
  - intros a. rewrite Hst. case_decide; [congruence|].
    intros Ha. by apply Huniq in Ha.
  - done.
  - done.
  - intros a Ha. rewrite Hst. case_decide as Heq; [|by apply Hpf].
    subst a. specialize (Hpf _ Ha). congruence.
  - done.
  - intros a Ha. rewrite Hst.
    destruct (Hr2 a Ha) as [Hin|[-> ->]].
    + case_decide as Heq; [|by apply Hrs].
      subst a. specialize (Hrs _ Hin). congruence.
    + by case_decide.
  - done.
  - intros a Ha. rewrite Hst.
    destruct (Hs2 a Ha) as [Hin|(-> & -> & _)].
    + case_decide as Heq; [|by apply Hss].
      subst a. specialize (Hss _ Hin). congruence.
    + by case_decide.
  - intros Hin. destruct (Hs2 _ Hin) as [Hin'|(Heq & _ & Hne)]; [done|].
    by apply Hne.
Qed.

(** The thread [next_thread_to_run] chose is marked RUNNING. *)
Lemma dispatched_inv k k' :
  parked k ->
  status_of k (next_candidate k) <> None ->
  sets_status k k' (next_candidate k) (Some THREAD_RUNNING) ->
  esp_page k' = next_candidate k ->
  free_pool k' = free_pool k ->
  ready_list k' = tail (ready_list k) ->
  sleeping_list k' = sleeping_list k ->
  idle_thread k' = idle_thread k ->
  scheduler_inv k'.
Proof.
  intros (Hnr & (Hpn & Hp0 & Hpf) & (Hrn & Hrs & Hsn & Hss & Hidle))
    Hx Hst He Hp Hr Hs Hi.
  assert (Hxr : forall a, a ∈ tail (ready_list k) ->
                  a ∈ ready_list k /\ a <> next_candidate k).
  { unfold next_candidate. destruct (ready_list k) as [|x r]; cbn.
    - intros a Ha. by apply elem_of_nil in Ha.
    - intros a Ha. apply NoDup_cons in Hrn as [Hxr _].
      split; [by right|]. by intros ->. }
  assert (Hxs : next_candidate k ∉ sleeping_list k).
  { intros Hin. specialize (Hss _ Hin). revert Hin Hss.
    unfold next_candidate. destruct (ready_list k) as [|x r] eqn:Hrl.
    - intros Hin _. by apply Hidle.
    - intros _ Hb. assert (Hrd : status_of k x = Some THREAD_READY)
        by (apply Hrs; left).
      congruence. }
  unfold scheduler_inv, one_running, pool_free, queues_wf.
  rewrite He, Hp, Hr, Hs, Hi.
  split; [split|split; [split; [|split]|split; [|split; [|split; [|split]]]]].
  - rewrite Hst. by case_decide.
  - intros a. rewrite Hst. case_decide; [done|].
    intros Ha. by destruct (Hnr a).
  - done.
  - done.
  - intros a Ha. rewrite Hst. case_decide as Heq; [|by apply Hpf].
    subst a. specialize (Hpf _ Ha). congruence.
  - destruct (ready_list k) as [|x r]; cbn; [apply NoDup_nil_2|].
    by apply NoDup_cons in Hrn as [_ ?].
  - intros a Ha. destruct (Hxr a Ha) as [Hin Hne]. rewrite Hst.
    case_decide; [done|]. by apply Hrs.
  - done.
  - intros a Ha. rewrite Hst. case_decide as Heq; [by subst a|].
    by apply Hss.
  - done.
Qed.

(** The page of a DYING thread goes back to the pool. *)
Lemma released_inv k k' p :
  scheduler_inv k ->
  p <> NULL ->
  status_of k p = Some THREAD_DYING ->
  sets_status k k' p None ->
  esp_page k' = esp_page k ->
  free_pool k' = p :: free_pool k ->
  ready_list k' = ready_list k ->
  sleeping_list k' = sleeping_list k ->
  idle_thread k' = idle_thread k ->
  scheduler_inv k'.
Proof.
  intros ((Hrun & Huniq) & (Hpn & Hp0 & Hpf) & (Hrn & Hrs & Hsn & Hss & Hidle))
    Hpnull Hpd Hst He Hp Hr Hs Hi.
  unfold scheduler_inv, one_running, pool_free, queues_wf.
  rewrite He, Hp, Hr, Hs, Hi.
  split; [split|split; [split; [|split]|split; [|split; [|split; [|split]]]]].
  - rewrite Hst. case_decide as Heq; [|done]. rewrite Heq in Hrun. congruence.
  - intros a. rewrite Hst. case_decide; [discriminate|apply Huniq].
  - apply NoDup_cons. split; [|done].
    intros Hin. specialize (Hpf _ Hin). congruence.
  - rewrite elem_of_cons. intros [Heq|Hin]; [by apply Hpnull|by apply Hp0].
  - intros a Ha. rewrite Hst. case_decide as Heq; [done|].
    apply elem_of_cons in Ha as [->|Ha]; [done|by apply Hpf].
  - done.
  - intros a Ha. rewrite Hst. case_decide as Heq; [|by apply Hrs].
    subst a. specialize (Hrs _ Ha). congruence.
  - done.
  - intros a Ha. rewrite Hst. case_decide as Heq; [|by apply Hss].
    subst a. specialize (Hss _ Ha). congruence.
  - done.
Qed.

(** [schedule], entered by a thread that has given up RUNNING,
    establishes the invariant: the thread it dispatches is the one
    RUNNING thread, taken off the ready queue, and the page it frees held
    a DYING thread that is linked in no queue. *)
Lemma schedule_dispatch_inv k k' :
  schedule k = Done tt k' -> parked k -> scheduler_inv k'.
Proof.
  intros H Hpk. revert H. unfold schedule.
  rewrite (bind_done running_thread _ k (esp_page k) k) by done.
  rewrite (bind_done _ _ _ _ _ (next_thread_to_run_result k)).
  set (k1 := with_ready_list _ k).
  mstep.
  destruct (level_eqb (level k) INTR_OFF) eqn:Hlv; msimpl; [|done].
  assert (Hlv' : level k = INTR_OFF) by (by destruct (level k)).
  change (mem k1) with (mem k).
  destruct (mem k !! esp_page k) as [c|] eqn:Hc; msimpl; [|done].
  destruct (status_eqb (status c) THREAD_RUNNING); msimpl; [done|].
  destruct (is_thread (next_candidate k) k1) as [b k2| |] eqn:Hb; [|done|done].
  apply is_thread_done_inv in Hb as [-> Hb].
  destruct b; msimpl; [|done].
  destruct (Hb eq_refl) as (n & Hn1 & Hn2 & Hn3).
  change (mem k1) with (mem k) in Hn2.
  assert (Hnx : status_of k (next_candidate k) <> None)
    by (by rewrite (status_of_lookup k _ n Hn2)).
  destruct (Z.eqb_spec (esp_page k) (next_candidate k)) as [Heq|Hne]; msimpl.
  - rewrite (thread_schedule_tail_result k1 NULL c) by done.
    cbn [Z.eqb NULL]. intros H. inversion H; subst k'.
    apply (dispatched_inv k); try done.
    + change (esp_page k1) with (esp_page k). rewrite <- Heq.
      by apply (sets_status_insert k _ (esp_page k)
                  (set_status THREAD_RUNNING c)).
  - unfold switch_threads. mstep.
    set (k2 := with_esp_page _ k1).
    rewrite (thread_schedule_tail_result k2 (esp_page k) n) by done.
    assert (Hm : mem (mark_running k2 n) !! esp_page k = Some c).
    { unfold mark_running. subst k2. msimpl. by rewrite lookup_insert_ne. }
    rewrite Hm.
    assert (Hmark : scheduler_inv (mark_running k2 n)).
    { apply (dispatched_inv k); try done.
      by apply (sets_status_insert k _ (next_candidate k)
                  (set_status THREAD_RUNNING n)). }
    destruct (Z.eqb_spec (esp_page k) NULL) as [|Hp0].
    { intros H. by inversion H; subst k'. }
    destruct (status_eqb (status c) THREAD_DYING
              && negb (esp_page k =? initial_thread k2)) eqn:Hdy.
    2:{ intros H. by inversion H; subst k'. }
    apply andb_true_iff in Hdy as [Hdy _]. apply status_eqb_eq in Hdy.
    destruct (negb (esp_page k =? esp_page k2)); [|done].
    intros H. inversion H; subst k'.
    apply (released_inv (mark_running k2 n) _ (esp_page k)); try done.
    + by rewrite (status_of_lookup _ _ c Hm), Hdy.
    + by apply sets_status_delete.
Qed.

(** What is run after [schedule ()] in the caller sets the level only. *)
Lemma after_schedule_inv cur l k k' :
  after_schedule cur (intr_set_level l) k = Done tt k' ->
  scheduler_inv k -> scheduler_inv k'.
Proof.
  unfold after_schedule. mstep.
  destruct (esp_page k =? cur); intros H; inversion H; subst k'; done.
Qed.

Lemma thread_unblock_inv t k k' :
  thread_unblock t k = Done tt k' ->
  t ∉ sleeping_list k ->
  scheduler_inv k -> scheduler_inv k'.
Proof.
  intros H Hts Hinv.
  apply thread_unblock_done_inv in H as (th & (Hn & Hl & Hm) & Hs & ->).
  assert (Hb : status_of k t = Some THREAD_BLOCKED)
    by (by rewrite (status_of_lookup k t th Hl), Hs).
  apply (enqueued_inv k _ t); try done.
  - congruence.
  - intros Hin. destruct Hinv as (_ & _ & (_ & Hrs & _)).
    specialize (Hrs _ Hin). congruence.
  - by apply (sets_status_insert k _ t (set_status THREAD_READY th)).
  - by destruct Hinv as (_ & (? & _) & _).
  - intros a Ha. split; [done|]. intros ->.
    destruct Hinv as (_ & (_ & _ & Hpf) & _). specialize (Hpf _ Ha).
    congruence.
Qed.

Lemma thread_block_inv k k' :
  thread_block k = Done tt k' -> scheduler_inv k -> scheduler_inv k'.
Proof.
  intros H Hinv. revert H. unfold thread_block. mstep.
  destruct (in_intr_context k); msimpl; [done|].
  destruct (level_eqb (level k) INTR_OFF); msimpl; [|done].
  destruct (thread_current k) as [t k1| |] eqn:Hcur; [|done|done].
  apply thread_current_done_inv in Hcur
    as (-> & -> & c & (Hn & Hl & Hm) & Hs & Hw).
  rewrite Hl. msimpl. set (k2 := with_mem _ _). intros H.
  apply (schedule_dispatch_inv k2 k' H).
  pose proof Hinv as (_ & _ & (Hrn & _ & Hsn & _)).
  apply (parked_intro k k2 THREAD_BLOCKED); try done.
  - by apply (sets_status_insert k k2 (esp_page k)
                (set_status THREAD_BLOCKED c)).
  - intros a Ha. by left.
  - intros a Ha. by left.
Qed.

Lemma thread_yield_inv k k' :
  thread_yield k = Done tt k' -> scheduler_inv k -> scheduler_inv k'.
Proof.
  intros H Hinv.
  destruct (thread_current k) as [t k1| |] eqn:Hcur;
    [|revert H; unfold thread_yield, bind; by rewrite Hcur..].
  apply thread_current_done_inv in Hcur
    as (-> & -> & c & Hv & Hs & Hw).
  destruct (in_intr_context k) eqn:Hic.
  { revert H. unfold thread_yield.
    rewrite (bind_done _ _ _ _ _ (thread_current_ok k c Hv Hs Hw)).
    mstep. by rewrite Hic. }
  rewrite (thread_yield_result k c Hv Hs Hw Hic) in H.
  apply bind_done_inv in H as ([] & k3 & Hsched & H).
  apply (after_schedule_inv _ _ _ _ H).
  apply (schedule_dispatch_inv _ k3 Hsched).
  pose proof Hinv as (_ & _ & (Hrn & _ & Hsn & _)).
  destruct (running_not_queued k Hinv) as [Hcr Hcs].
  apply (parked_intro k _ THREAD_READY); try done.
  - by apply (sets_status_insert k _ (esp_page k)
                (set_status THREAD_READY c)).
  - cbn. destruct (negb (esp_page k =? idle_thread k)); [|done].
    apply NoDup_app. split; [done|]. split; [|apply NoDup_singleton].
    intros a Ha Hin. apply list_elem_of_singleton in Hin. by subst a.
  - cbn. intros a Ha.
    destruct (negb (esp_page k =? idle_thread k)); [|by left].
    apply elem_of_app in Ha as [Ha|Ha]; [by left|].
    apply list_elem_of_singleton in Ha. by right.
  - intros a Ha. by left.
Qed.

(** The ordered insert adds the thread to the sleeping queue and leaves
    the thread records, the running thread, the pool, the ready queue
    and the idle thread alone. *)
Lemma sleeping_queue_insert_ordered_frame t k k' :
  sleeping_queue_insert_ordered t k = Done tt k' ->
  mem k' = mem k /\ esp_page k' = esp_page k /\ free_pool k' = free_pool k
  /\ ready_list k' = ready_list k /\ idle_thread k' = idle_thread k
  /\ (forall a, a ∈ sleeping_list k' <-> a = t \/ a ∈ sleeping_list k)
  /\ (t ∉ sleeping_list k -> NoDup (sleeping_list k) ->
      NoDup (sleeping_list k')).
Proof.
  unfold sleeping_queue_insert_ordered. mstep.
  destruct (in_intr_context k); msimpl; [done|].
  destruct (level_eqb (level k) INTR_OFF); msimpl; [|done].
  destruct (t =? NULL); msimpl; [done|].
  destruct (mem k !! t) as [th|] eqn:Hl; msimpl; [|done].
  destruct (status_eqb (status th) THREAD_BLOCKED); msimpl; [|done].
  destruct (0 <? wakeup_time_ticks th); msimpl; [|done].
  destruct (negb (sleeping_list_min_wakeup_time_ticks k =? SLEEPING_QUEUE_EMPTY)
            || list_empty (sleeping_list k)); msimpl; [|done].
  destruct ((sleeping_list_min_wakeup_time_ticks k =? SLEEPING_QUEUE_EMPTY)
            || (wakeup_time_ticks th <=? sleeping_list_min_wakeup_time_ticks k));
    msimpl.
  - intros H. inversion H; subst k'. msimpl. unfold list_push_front.
    repeat (split; [done|]). split.
    + intros a. by rewrite elem_of_cons.
    + intros Hn Hnd. by apply NoDup_cons.
  - destruct (list_insert_ordered _ t (sleeping_list k) k)
      as [sl' k1| |] eqn:Hins; [|done|done].
    apply list_insert_ordered_done in Hins as [-> ->].
    intros H. inversion H; subst k'. msimpl.
    repeat (split; [done|]). split.
    + intros a. apply insert_by_elem.
    + intros Hn Hnd. by apply insert_by_NoDup.
Qed.

Lemma thread_sleep_inv d k k' :
  thread_sleep d k = Done tt k' -> scheduler_inv k -> scheduler_inv k'.
Proof.
  intros H Hinv. revert H. unfold thread_sleep. mstep.
  destruct (0 <=? d); msimpl; [|done].
  destruct (d <? ticks k); msimpl.
  { intros H. by inversion H; subst k'. }
  destruct (thread_current k) as [t k1| |] eqn:Hcur; [|done|done].
  apply thread_current_done_inv in Hcur
    as (-> & -> & c & (Hn & Hl & Hm) & Hs & Hw).
  destruct (in_intr_context k) eqn:Hic; msimpl; [done|].
  destruct (Z.eqb_spec (esp_page k) (idle_thread k)) as [|Hnidle]; msimpl.
  { intros H. inversion H; subst k'. by apply (scheduler_inv_ext k). }
  rewrite Hl. msimpl. rewrite lookup_insert_eq. msimpl.
  set (k2 := with_mem _ _).
  destruct (sleeping_queue_insert_ordered (esp_page k) k2)
    as [u k3| |] eqn:Hins; [|done|done].
  destruct u.
  apply sleeping_queue_insert_ordered_frame in Hins
    as (Hm3 & He3 & Hp3 & Hr3 & Hi3 & Hin3 & Hnd3).
  destruct (schedule k3) as [u' k4| |] eqn:Hsched; [|done|done]. destruct u'.
  intros H. apply (after_schedule_inv _ _ _ _ H).
  apply (schedule_dispatch_inv k3 k4 Hsched).
  pose proof Hinv as (_ & _ & (Hrn & _ & Hsn & _)).
  destruct (running_not_queued k Hinv) as [Hcr Hcs].
  apply (parked_intro k k3 THREAD_BLOCKED); try done.
  - apply (sets_status_insert k k3 (esp_page k)
             (set_wakeup_time_ticks d (set_status THREAD_BLOCKED c))).
    rewrite Hm3. subst k2. msimpl. by rewrite insert_insert_eq.
  - by rewrite Hr3.
  - rewrite Hr3. intros a Ha. by left.
  - by apply Hnd3.
  - intros a Ha. apply Hin3 in Ha as [->|Ha]; [by right|by left].
Qed.

Lemma thread_wakeup_loop_inv bound now : forall k k',
  thread_wakeup_loop bound now k = Done tt k' ->
  scheduler_inv k -> scheduler_inv k'.
Proof.
  induction bound as [|b IH]; intros k k' H Hinv; [done|].
  revert H. cbn [thread_wakeup_loop]. unfold bind at 1, gets at 1.
  destruct (sleeping_list k) as [|front rest] eqn:Hsl.
  { unfold ret. intros H. by inversion H; subst k'. }
  mstep.
  destruct (front =? NULL); msimpl; [done|].
  destruct (mem k !! front) as [th|] eqn:Hl; msimpl; [|done].
  destruct (status_eqb (status th) THREAD_BLOCKED); msimpl; [|done].
  destruct (0 <? wakeup_time_ticks th); msimpl; [|done].
  destruct (now <? wakeup_time_ticks th); msimpl.
  { intros H. inversion H; subst k'. by apply (scheduler_inv_ext k). }
  rewrite Hl. msimpl. set (k1 := with_mem _ _).
  destruct (thread_unblock front k1) as [u k2| |] eqn:Hu; [|done|done].
  destruct u. intros H. apply (IH k2 k' H).
  assert (Hnd : NoDup (front :: rest)).
  { rewrite <- Hsl. by destruct Hinv as (_ & _ & _ & _ & ? & _). }
  apply NoDup_cons in Hnd as [Hfr Hnd].
  apply (thread_unblock_inv _ _ _ Hu); [done|].
  apply (scheduler_inv_same_status k); try done.
  - by apply (insert_same_status k k1 front th
                (set_wakeup_time_ticks THREAD_NOT_SLEEPING th)).
  - intros a Ha. rewrite Hsl. by right.
Qed.

Lemma thread_wakeup_inv k k' :
  thread_wakeup k = Done tt k' -> scheduler_inv k -> scheduler_inv k'.
Proof.
  intros H Hinv. revert H. unfold thread_wakeup. mstep.
  destruct (negb (sleeping_list_min_wakeup_time_ticks k =? SLEEPING_QUEUE_EMPTY)
            || list_empty (sleeping_list k)); msimpl; [|done].
  destruct ((sleeping_list_min_wakeup_time_ticks k =? SLEEPING_QUEUE_EMPTY)
            || (ticks k <? sleeping_list_min_wakeup_time_ticks k)); msimpl.
  { intros H. by inversion H; subst k'. }
  set (k0 := with_level INTR_OFF k).
  destruct (thread_wakeup_loop _ (ticks k) k0) as [u k1| |] eqn:Hloop;
    [|done|done].
  destruct u.
  assert (Hinv1 : scheduler_inv k1).
  { apply (thread_wakeup_loop_inv _ _ _ _ Hloop).
    by apply (scheduler_inv_ext k). }
  destruct (list_empty (sleeping_list k1)); msimpl;
    intros H; inversion H; subst k'; by apply (scheduler_inv_ext k1).
Qed.

Lemma thread_tick_inv k k' :
  thread_tick k = Done tt k' -> scheduler_inv k -> scheduler_inv k'.
Proof.
  intros H Hinv. revert H. unfold thread_tick.
  destruct (thread_current k) as [t k1| |] eqn:Hcur;
    [|unfold bind; by rewrite Hcur..].
  rewrite (bind_done _ _ _ _ _ Hcur).
  apply thread_current_done_inv in Hcur
    as (-> & -> & c & (Hn & Hl & Hm) & Hs & Hw).
  mstep. rewrite Hl. msimpl.
  destruct (esp_page k =? idle_thread k); msimpl;
    [|destruct (USERPROG k && negb (pagedir c =? NULL)); msimpl];
    match goal with |- context [TIME_SLICE <=? ?n] =>
      destruct (TIME_SLICE <=? n) end;
    intros H; inversion H; subst k'; by apply (scheduler_inv_ext k).
Qed.

Lemma thread_set_priority_inv p k k' :
  thread_set_priority p k = Done tt k' -> scheduler_inv k -> scheduler_inv k'.
Proof.
  intros H Hinv. revert H. unfold thread_set_priority.
  destruct (thread_current k) as [t k1| |] eqn:Hcur;
    [|unfold bind; by rewrite Hcur..].
  rewrite (bind_done _ _ _ _ _ Hcur).
  apply thread_current_done_inv in Hcur
    as (-> & -> & c & (Hn & Hl & Hm) & Hs & Hw).
  mstep. rewrite Hl. intros H. inversion H; subst k'.
  pose proof Hinv as (_ & _ & (_ & _ & Hsn & _)).
  apply (scheduler_inv_same_status k); try done.
  by apply (insert_same_status k _ (esp_page k) c (set_priority p c)).
Qed.

Lemma thread_exit_inv k k' :
  thread_exit k = Done tt k' -> scheduler_inv k -> scheduler_inv k'.
Proof.
  intros H Hinv. revert H. unfold thread_exit, process_exit. mstep.
  destruct (in_intr_context k); msimpl; [done|].
  assert (Hup : forall b : bool,
            (if b then fun k0 : kernel => Done tt k0
             else fun k0 : kernel => Done tt k0)
            = fun k0 : kernel => Done tt k0) by (by intros []).
  rewrite Hup. msimpl.
  set (k0 := with_level INTR_OFF k).
  destruct (thread_current k0) as [t k1| |] eqn:Hcur; [|done|done].
  apply thread_current_done_inv in Hcur
    as (-> & -> & c & Hv & Hs & Hw).
  msimpl.
  set (k1 := with_all_list _ _).
  rewrite (thread_current_ok k1 c Hv Hs Hw). msimpl.
  destruct Hv as (Hn & Hl & Hm). change (mem k0) with (mem k) in Hl.
  change (esp_page k0) with (esp_page k) in *.
  subst k1 k0. msimpl. rewrite Hl. msimpl. set (k2 := with_mem _ _).
  destruct (schedule k2) as [u k3| |] eqn:Hsched; [|done|done]. destruct u.
  assert (Hinv3 : scheduler_inv k3).
  { apply (schedule_dispatch_inv k2 k3 Hsched).
    pose proof Hinv as (_ & _ & (Hrn & _ & Hsn & _)).
    apply (parked_intro k k2 THREAD_DYING); try done.
    - by apply (sets_status_insert k k2 (esp_page k)
                  (set_status THREAD_DYING c)).
    - intros a Ha. by left.
    - intros a Ha. by left. }
  unfold after_schedule. mstep.
  destruct (esp_page k3 =? esp_page k); [done|].
  intros H. by inversion H; subst k'.
Qed.

Lemma thread_create_inv nm prio function aux k tid k' :
  thread_create nm prio function aux k = Done tid k' ->
  scheduler_inv k -> scheduler_inv k'.
Proof.
  intros H Hinv.
  destruct (free_pool k) as [|p rest] eqn:Hpool.
  { revert H. unfold thread_create, palloc_get_page. mstep.
    destruct (function =? NULL); msimpl; [done|].
    rewrite Hpool. msimpl. intros H. by inversion H; subst k'. }
  pose proof Hinv as (_ & (Hpn & Hp0 & Hpf) & (_ & Hrs & _ & Hss & _)).
  rewrite Hpool in Hpn, Hp0, Hpf.
  assert (Hp : p <> NULL) by (intros ->; apply Hp0; by left).
  assert (Hfree : status_of k p = None) by (apply Hpf; by left).
  apply NoDup_cons in Hpn as [Hpr Hpn].
  assert (Hpre : function <> NULL /\ PRI_MIN <= prio <= PRI_MAX).
  { generalize H. unfold thread_create, palloc_get_page, init_thread. mstep.
    destruct (Z.eqb_spec function NULL) as [|Hf]; msimpl; [done|].
    rewrite Hpool. msimpl.
    destruct (Z.eqb_spec p NULL) as [|_]; [done|]. msimpl.
    destruct (Z.leb_spec PRI_MIN prio); msimpl; [|done].
    destruct (Z.leb_spec prio PRI_MAX); msimpl; [|done].
    intros _. split; [done|lia]. }
  destruct Hpre as [Hf Hprio].
  rewrite (thread_create_result k nm prio function aux p rest Hf Hprio Hpool Hp)
    in H.
  inversion H; subst k'.
  apply (enqueued_inv k _ p); try done.
  - congruence.
  - intros Hin. specialize (Hrs _ Hin). congruence.
  - intros Hin. specialize (Hss _ Hin). congruence.
  - by apply (sets_status_insert k _ p
                (created_thread (next_tid k) nm prio function aux)).
  - intros a Ha. split; [rewrite Hpool; by right|]. by intros ->.
Qed.

Lemma run_call_inv c k k' :
  run_call c k = Done tt k' -> scheduler_inv k -> scheduler_inv k'.
Proof.
  destruct c; cbn [run_call].
  - intros H. apply bind_done_inv in H as (tid & k1 & Hc & H).
    inversion H; subst k'. by apply (thread_create_inv _ _ _ _ _ _ _ Hc).
  - unfold bind at 1, gets at 1.
    destruct (existsb (Z.eqb t) (sleeping_list k)) eqn:Hex; [done|].
    intros H. apply (thread_unblock_inv _ _ _ H).
    intros Hin. apply not_true_iff_false in Hex. apply Hex.
    apply existsb_exists. exists t. split; [|apply Z.eqb_refl].
    by apply list_elem_of_In.
  - apply thread_block_inv.
  - apply thread_yield_inv.
  - apply thread_sleep_inv.
  - apply thread_wakeup_inv.
  - apply thread_tick_inv.
  - apply thread_set_priority_inv.
  - apply thread_exit_inv.
Qed.

Lemma pooled_workers_inv : scheduler_inv pooled_workers.
Proof.
  assert (Hst : forall a s, status_of pooled_workers a = Some s ->
            (a = 0x1000 /\ s = THREAD_RUNNING)
            \/ (a = 0x2000 /\ s = THREAD_BLOCKED)
            \/ (a = 0x3000 /\ s = THREAD_READY)
            \/ (a = 0x4000 /\ s = THREAD_READY)).
  { intros a s H. unfold status_of in H.
    apply fmap_Some in H as (th & Hl & ->). revert Hl.
    cbn -[lookup insert]. rewrite !lookup_insert_Some, lookup_empty.
    intros [[<- <-]|[_ [[<- <-]|[_ [[<- <-]|[_ [[<- <-]|[_ ?]]]]]]]];
      [by left|right; by left|right; right; by left|by do 3 right|done]. }
  split; [split|split; [split; [|split]|split; [|split; [|split; [|split]]]]].
  - reflexivity.
  - intros a Ha. destruct (Hst a _ Ha) as [[? _]|[[_ ?]|[[_ ?]|[_ ?]]]];
      [done|discriminate..].
  - cbn. apply NoDup_cons. split; [apply not_elem_of_nil|apply NoDup_nil_2].
  - cbn. rewrite elem_of_cons, elem_of_nil. unfold NULL. lia.
  - cbn -[status_of]. intros a Ha.
    apply elem_of_cons in Ha as [->|Ha]; [reflexivity|nil_elem].
  - cbn. repeat (apply NoDup_cons; split;
                   [rewrite ?elem_of_cons, elem_of_nil; lia|]).
    apply NoDup_nil_2.
  - cbn -[status_of]. intros a Ha.
    repeat (apply elem_of_cons in Ha as [->|Ha]); [reflexivity..|nil_elem].
  - cbn. apply NoDup_nil_2.
  - cbn. intros a Ha. nil_elem.
  - cbn. apply not_elem_of_nil.
Qed.

(** X19.  The scheduler invariant holds along every run of the thread
    interface.  Let exactly one thread be RUNNING, the one whose page the
    stack pointer lies in; let the page pool hold distinct non-null pages
    none of which holds a thread; and let the queue links be used as
    thread.h says: the ready queue holds READY threads, the sleeping
    queue BLOCKED ones, each once, the idle thread not among the
    sleepers.  Then the same is true after any run that does not halt the
    kernel, where a run is a sequence of calls of [thread_create],
    [thread_unblock] (of a thread not linked in the sleeping queue),
    [thread_block], [thread_yield], [thread_sleep], [thread_wakeup],
    [thread_tick], [thread_set_priority] and [thread_exit], before each
    of which the rest of the kernel settles the interrupt level, the
    interrupt-context flag, the pending yield and the tick count the
    call is made with.  Every dispatch marks the thread it switches to
    RUNNING after the one it leaves was marked otherwise, every push
    links a thread that is linked in no queue, and a page is freed only
    after its thread was switched away from. *)
Theorem scheduler_inv_preserved
  (tr : list (env * call)) (k k' : kernel) :
  scheduler_inv k ->
  run_trace tr k = Done tt k' ->
  scheduler_inv k'.
Proof.
  revert k. induction tr as [|[e c] rest IH]; intros k Hinv H.
  - inversion H. by subst k'.
  - cbn [run_trace] in H.
    apply bind_done_inv in H as ([] & k0 & He & H).
    apply bind_done_inv in H as ([] & k1 & Hc & H).
    inversion He; subst k0.
    apply (IH k1); [|done]. apply (run_call_inv c _ k1 Hc).
    by apply (scheduler_inv_ext k).
Qed.

Lemma scheduler_inv_preserved_witness :
  exists k',
    run_trace
      [(mk_env INTR_ON false 100 false, call_create "D" 31 1 0);
       (mk_env INTR_ON false 100 false, call_yield);
       (mk_env INTR_ON false 100 false, call_sleep 100);
       (mk_env INTR_OFF true 101 false, call_tick);
       (mk_env INTR_OFF true 101 false, call_wakeup);
       (mk_env INTR_ON false 101 false, call_exit);
       (mk_env INTR_ON false 101 false, call_set_priority 5);
       (mk_env INTR_OFF false 101 false, call_block);
       (mk_env INTR_ON false 101 false, call_unblock 0x5000)]
      pooled_workers
    = Done tt k'
    /\ esp_page k' = 0x1000
    /\ ready_list k' = [0x3000; 0x5000]
    /\ scheduler_inv k'.
Proof.
  destruct (run_trace
      [(mk_env INTR_ON false 100 false, call_create "D" 31 1 0);
       (mk_env INTR_ON false 100 false, call_yield);
       (mk_env INTR_ON false 100 false, call_sleep 100);
       (mk_env INTR_OFF true 101 false, call_tick);
       (mk_env INTR_OFF true 101 false, call_wakeup);
       (mk_env INTR_ON false 101 false, call_exit);
       (mk_env INTR_ON false 101 false, call_set_priority 5);
       (mk_env INTR_OFF false 101 false, call_block);
       (mk_env INTR_ON false 101 false, call_unblock 0x5000)]
      pooled_workers)
    as [u k'| |] eqn:H; [|by vm_compute in H..].
  destruct u. exists k'. split; [reflexivity|].
  pose proof (scheduler_inv_preserved _ pooled_workers k' pooled_workers_inv H)
    as Hinv.
  vm_compute in H. inversion H; subst k'.
  split; [reflexivity|]. split; [reflexivity|]. exact Hinv.
Defined.
